(** * collycrawler: a shallow embedding of the crawl pipeline

    The development follows the packages of the repository:

    - [GoStrings], [Regexp], [NetURL], [Bufio]: the parts of the Go
      standard library the program calls (strings, regexp, net/url,
      bufio), at byte level;
    - [URLFilter], [Scraper]: internal/scraper (url_filter, scraper.go);
    - [Collector]: internal/collector/collector.go;
    - [Storage]: internal/storage (storage.go, jsonl.go);
    - [Crawler]: cmd/crawler/crawler.go;
    - [Samples]: the configuration of the repository and sample pages.

    The libraries that stay outside (goquery, crypto/md5, time,
    encoding/json) are the classes [Scraper.Externals] and
    [Storage.JSON]; what the surroundings decide during a call of the
    storage (the clock, failures of the file system) is the record
    [Storage.IOEnv].  The definitions come first, the properties after
    them.

    Go strings are byte sequences and are modelled by [string]; Go maps
    used as sets ([map[string]bool] whose entries are only ever set to
    [true]) are modelled by [gset string]. *)

From Stdlib Require Import Ascii ZArith Lia.
From stdpp Require Import base option list gmap sets strings sorting.

#[local] Set Warnings "-clear-no-such-hyp".
Local Open Scope bool_scope.

(* ===================================================================== *)
(** ** Package strings *)
(* ===================================================================== *)

Module GoStrings.

Definition byte (n : N) : ascii := ascii_of_N n.

Fixpoint bytes (l : list N) : string :=
  match l with
  | [] => ""
  | n :: l' => String (byte n) (bytes l')
  end.

Fixpoint drop (n : nat) (s : string) : string :=
  match n, s with
  | O, _ => s
  | S _, "" => ""
  | S n', String _ s' => drop n' s'
  end.

Fixpoint take (n : nat) (s : string) : string :=
  match n, s with
  | O, _ => ""
  | S _, "" => ""
  | S n', String c s' => String c (take n' s')
  end.

(** [strings.HasPrefix(s, prefix)] *)
Definition HasPrefix (s prefix : string) : bool := String.prefix prefix s.

(** [strings.HasSuffix(s, suffix)]:
    [len(s) >= len(suffix) && s[len(s)-len(suffix):] == suffix] *)
Definition HasSuffix (s suffix : string) : bool :=
  (String.length suffix <=? String.length s)%nat
  && String.eqb (drop (String.length s - String.length suffix) s) suffix.

(** [strings.Contains(s, substr)]: some suffix of [s] starts with [substr]. *)
Fixpoint Contains (s substr : string) : bool :=
  HasPrefix s substr
  || match s with
     | "" => false
     | String _ s' => Contains s' substr
     end.

(** [strings.Split(s, sep)] for a separator of one byte, the only use the
    program makes of it ([","], ["|"] and ["*"]). *)
Fixpoint Split (s : string) (sep : ascii) : list string :=
  match s with
  | "" => [""]
  | String c s' =>
      if Ascii.eqb c sep then "" :: Split s' sep
      else match Split s' sep with
           | x :: r => String c x :: r
           | [] => [String c ""]
           end
  end.

(** The UTF-8 encodings of the code points for which [unicode.IsSpace]
    holds: the six ASCII ones, U+0085, U+00A0, U+1680, U+2000..U+200A,
    U+2028, U+2029, U+202F, U+205F and U+3000. *)
Definition spaceRunes : list string :=
  bytes <$> [ [9]; [10]; [11]; [12]; [13]; [32];
              [194; 133]; [194; 160]; [225; 154; 128];
              [226; 128; 128]; [226; 128; 129]; [226; 128; 130];
              [226; 128; 131]; [226; 128; 132]; [226; 128; 133];
              [226; 128; 134]; [226; 128; 135]; [226; 128; 136];
              [226; 128; 137]; [226; 128; 138];
              [226; 128; 168]; [226; 128; 169]; [226; 128; 175];
              [226; 129; 159]; [227; 128; 128] ]%N.

(** The input without its first rune when that rune is one of [runes]. *)
Fixpoint stripRune (runes : list string) (s : string) : option string :=
  match runes with
  | [] => None
  | r :: runes' =>
      if HasPrefix s r then Some (drop (String.length r) s)
      else stripRune runes' s
  end.

Fixpoint trimLeftLoop (fuel : nat) (runes : list string) (s : string) : string :=
  match fuel with
  | O => s
  | S fuel' =>
      match stripRune runes s with
      | Some s' => trimLeftLoop fuel' runes s'
      | None => s
      end
  end.

Definition TrimLeftSpace (s : string) : string :=
  trimLeftLoop (String.length s) spaceRunes s.

(** Trimming on the right is trimming the reversed string on the left by
    the reversed encodings: a space encoding is a lead byte followed by
    continuation bytes, which is what [utf8.DecodeLastRuneInString] finds
    when it walks back from the end. *)
Definition TrimRightSpace (s : string) : string :=
  String.rev (trimLeftLoop (String.length s) (String.rev <$> spaceRunes) (String.rev s)).

(** [strings.TrimSpace(s)] *)
Definition TrimSpace (s : string) : string := TrimRightSpace (TrimLeftSpace s).

(** [len(strings.Fields(s))]: the number of maximal runs of non-space runes. *)
Fixpoint countFields (fuel : nat) (inField : bool) (s : string) : nat :=
  match fuel with
  | O => 0
  | S fuel' =>
      match s with
      | "" => 0
      | String _ s' =>
          match stripRune spaceRunes s with
          | Some rest => countFields fuel' false rest
          | None => (if inField then 0 else 1) + countFields fuel' true s'
          end
      end
  end.

Definition FieldsLen (s : string) : nat := countFields (String.length s) false s.

(** The last byte of a string. *)
Fixpoint lastByte (s : string) : option ascii :=
  match s with
  | "" => None
  | String c "" => Some c
  | String _ s' => lastByte s'
  end.

(** [s] holds the byte [c]. *)
Fixpoint hasByte (c : ascii) (s : string) : bool :=
  match s with
  | "" => false
  | String d s' => Ascii.eqb d c || hasByte c s'
  end.

(** Every byte of [s] satisfies [p]. *)
Fixpoint allBytes (p : ascii → bool) (s : string) : bool :=
  match s with
  | "" => true
  | String c s' => p c && allBytes p s'
  end.

(** The number of bytes [c] in [s]. *)
Fixpoint countByte (c : ascii) (s : string) : nat :=
  match s with
  | "" => 0
  | String d s' => (if Ascii.eqb d c then 1 else 0) + countByte c s'
  end.

End GoStrings.

(* ===================================================================== *)
(** ** Package regexp *)
(* ===================================================================== *)

(** The fragment of RE2 syntax that the patterns of the program use:
    literals, escaped punctuation, [\d], a negated one-character class
    [[^c]], groups with alternation, the postfix operators [+] and [*],
    and the end-of-text anchor [$].  Every construct of the fragment
    treats a multi-byte rune as a run of bytes none of which is ASCII,
    so matching bytes and matching runes agree on it. *)

Module Regexp.

Inductive re : Type :=
  | Eps
  | EndText                      (* [$], no multi-line flag *)
  | Chr (c : ascii)              (* the byte [c] *)
  | NotChr (c : ascii)           (* [[^c]]: one byte other than [c] *)
  | Digit                        (* [\d]: one of [0] to [9] *)
  | Seq (r1 r2 : re)
  | Alt (r1 r2 : re)
  | Star (r : re).

Definition isDigit (c : ascii) : bool :=
  (48 <=? N_of_ascii c)%N && (N_of_ascii c <=? 57)%N.
Definition plus (r : re) : re := Seq r (Star r).

(** *** Parsing a pattern *)

Definition isMeta (c : ascii) : bool :=
  bool_decide (c ∈ [ "|"; "("; ")"; "["; "]"; "*"; "+"; "?"; "."; "^"; "{"; "}"; "\"; "$" ]%char).

Definition isPunct (c : ascii) : bool :=
  let n := N_of_ascii c in
  ((33 <=? n) && (n <=? 47) || (58 <=? n) && (n <=? 64)
   || (91 <=? n) && (n <=? 96) || (123 <=? n) && (n <=? 126))%N.

Definition postfix (r : re) (s : string) : re * string :=
  match s with
  | String "+" s' => (plus r, s')
  | String "*" s' => (Star r, s')
  | _ => (r, s)
  end.

Fixpoint parseAlt (fuel : nat) (s : string) : option (re * string) :=
  match fuel with
  | O => None
  | S fuel' =>
      match parseSeq fuel' s with
      | Some (r1, String "|" s') =>
          match parseAlt fuel' s' with
          | Some (r2, s'') => Some (Alt r1 r2, s'')
          | None => None
          end
      | res => res
      end
  end
with parseSeq (fuel : nat) (s : string) : option (re * string) :=
  match fuel with
  | O => None
  | S fuel' =>
      match s with
      | "" | String "|" _ | String ")" _ => Some (Eps, s)
      | _ =>
          match parseAtom fuel' s with
          | Some (r1, s') =>
              let '(r1', s'') := postfix r1 s' in
              match parseSeq fuel' s'' with
              | Some (Eps, s3) => Some (r1', s3)
              | Some (r2, s3) => Some (Seq r1' r2, s3)
              | None => None
              end
          | None => None
          end
      end
  end
with parseAtom (fuel : nat) (s : string) : option (re * string) :=
  match fuel with
  | O => None
  | S fuel' =>
      match s with
      | String "(" s' =>
          match parseAlt fuel' s' with
          | Some (r, String ")" s'') => Some (r, s'')
          | _ => None
          end
      | String "[" (String "^" (String c (String "]" s'))) =>
          if isMeta c then None else Some (NotChr c, s')
      | String "\" (String "d" s') => Some (Digit, s')
      | String "\" (String c s') =>
          if isPunct c then Some (Chr c, s') else None
      | String "$" s' => Some (EndText, s')
      | String c s' => if isMeta c then None else Some (Chr c, s')
      | "" => None
      end
  end.

(** [regexp.Compile]: [None] stands for a syntax error. *)
Definition Compile (pattern : string) : option re :=
  match parseAlt (3 * String.length pattern + 3) pattern with
  | Some (r, "") => Some r
  | _ => None
  end.

(** *** Matching *)

(** [matchK r s k]: some prefix of [s] matches [r] and the rest of [s]
    satisfies [k].  A starred expression iterates only while it consumes
    input. *)
Fixpoint matchK (r : re) (s : string) (k : string → bool) : bool :=
  match r with
  | Eps => k s
  | EndText => match s with "" => k s | _ => false end
  | Chr c => match s with String d s' => Ascii.eqb d c && k s' | "" => false end
  | NotChr c => match s with String d s' => negb (Ascii.eqb d c) && k s' | "" => false end
  | Digit => match s with String d s' => isDigit d && k s' | "" => false end
  | Seq r1 r2 => matchK r1 s (λ s', matchK r2 s' k)
  | Alt r1 r2 => matchK r1 s k || matchK r2 s k
  | Star r1 =>
      (fix iter (fuel : nat) (s : string) : bool :=
         k s
         || match fuel with
            | O => false
            | S fuel' =>
                matchK r1 s
                  (λ s', (String.length s' <? String.length s)%nat && iter fuel' s')
            end) (String.length s) s
  end.

(** A match that starts at the first byte of [s]. *)
Definition matchHere (r : re) (s : string) : bool := matchK r s (λ _, true).

(** A match that starts anywhere in [s]. *)
Fixpoint search (r : re) (s : string) : bool :=
  matchHere r s
  || match s with
     | "" => false
     | String _ s' => search r s'
     end.

(** [matched, _ := regexp.MatchString(pattern, s)]: a pattern that does
    not compile gives [false] (with an error the callers discard). *)
Definition MatchString (pattern s : string) : bool :=
  match Compile pattern with
  | Some r => search r s
  | None => false
  end.

(** The expression for the text [t] followed by [r]. *)
Fixpoint lit (t : string) (r : re) : re :=
  match t with
  | "" => r
  | String c t' => Seq (Chr c) (lit t' r)
  end.

(** [tailIs t r]: the expression [r] is [t], or a sequence that ends in [t]. *)
Fixpoint tailIs (t r : re) : Prop :=
  r = t ∨ match r with Seq _ r2 => tailIs t r2 | _ => False end.

End Regexp.

(* ===================================================================== *)
(** ** internal/scraper: URLFilter *)
(* ===================================================================== *)

Module URLFilter.

Record URLFilter : Type := {
  articlePatterns : list string;
  excludePatterns : list string;
}.

Definition NewURLFilter : URLFilter := {|
  articlePatterns :=
    [ "/posts/[^/]+/$";
      "/posts/\d+/[^/]+/$";
      "/posts/[^/]+/[^/]+/$";
      "/posts/[^/]+-[^/]+/$";
      "/posts/[^/]+_[^/]+/$" ];
  excludePatterns :=
    [ "/posts/$";
      "/posts/index\.xml$";
      "/tags/";
      "/categories/";
      "\.(jpg|jpeg|png|gif|pdf|css|js)$" ];
|}.

(** [for _, pattern := range patterns { if matched { return true } }] *)
Fixpoint anyMatch (patterns : list string) (url : string) : bool :=
  match patterns with
  | [] => false
  | pattern :: rest =>
      if Regexp.MatchString pattern url then true else anyMatch rest url
  end.

Definition IsArticlePage (uf : URLFilter) (url : string) : bool :=
  if anyMatch (excludePatterns uf) url then false
  else if anyMatch (articlePatterns uf) url then true
  else false.

Definition listPatterns : list string :=
  [ "/posts/$"; "/posts/page/\d+/$"; "/$" ].

Definition IsListPage (uf : URLFilter) (url : string) : bool :=
  anyMatch listPatterns url.

Definition ShouldExtractContent (uf : URLFilter) (url : string) : bool :=
  IsArticlePage uf url.

Definition ShouldFollowLinks (uf : URLFilter) (url : string) : bool :=
  IsListPage uf url || IsArticlePage uf url.

Definition GetURLType (uf : URLFilter) (url : string) : string :=
  if IsArticlePage uf url then "article"
  else if IsListPage uf url then "list"
  else "other".

(** The extensions that the last exclusion pattern lists. *)
Definition staticExtensions : list string :=
  [ "jpg"; "jpeg"; "png"; "gif"; "pdf"; "css"; "js" ].

End URLFilter.

(* ===================================================================== *)
(** ** internal/models *)
(* ===================================================================== *)

Module Models.

(** A [time.Time], as the instant it denotes (nanoseconds since the epoch). *)
Definition Time : Type := Z.

Record Article : Type := {
  URL : string;
  Title : string;
  Content : string;
  PlainText : string;
  Author : string;
  PublishedDate : option Time;
  ScrapedAt : Time;
  WordCount : Z;
  ContentHash : string;
}.

Record TargetConfig : Type := {
  BaseURL : string;
  StartURLs : list string;
  AllowedDomains : list string;
  ExcludePatterns : list string;
}.

Record ArticleSelectors : Type := {
  SelTitle : string;
  SelContent : string;
  SelPublishedDate : string;
  SelAuthor : string;
}.

(** [MaxBackupFiles] is a Go [int]; [ValidateStorageConfig] rejects values
    below one when backups are enabled, and the negative range, on which
    the slice expression of [cleanupOldBackups] is out of bounds, is not
    represented. *)
Record StorageConfig : Type := {
  OutputFormat : string;
  OutputFile : string;
  BackupEnabled : bool;
  BackupDirectory : string;
  MaxBackupFiles : nat;
}.

Record Config : Type := {
  Target : TargetConfig;
  Selectors : ArticleSelectors;
  Storage : StorageConfig;
}.

End Models.

(* ===================================================================== *)
(** ** Package net/url *)
(* ===================================================================== *)

(** The [Host] field that [url.Parse] gives for a URL of the shape
    [scheme://userinfo@host:port/path?query#fragment]: the authority runs
    to the first slash, question mark or number sign, and the host (with
    its port) is what follows the last at-sign in it.  A string without
    [://] has no host.  The errors of [url.Parse] are not modelled. *)

Module NetURL.
Import GoStrings.

Fixpoint afterScheme (s : string) : option string :=
  if HasPrefix s "://" then Some (drop 3 s)
  else match s with
       | "" => None
       | String c s' =>
           if bool_decide (c ∈ [ "/"; "?"; "#" ]%char) then None else afterScheme s'
       end.

Fixpoint authority (s : string) : string :=
  match s with
  | "" => ""
  | String c s' =>
      if bool_decide (c ∈ [ "/"; "?"; "#" ]%char) then "" else String c (authority s')
  end.

Definition Host (rawURL : string) : string :=
  match afterScheme rawURL with
  | None => ""
  | Some rest => default "" (last (Split (authority rest) "@"))
  end.

End NetURL.

(* ===================================================================== *)
(** ** internal/collector *)
(* ===================================================================== *)

Module Collector.
Import GoStrings Models.

(** [matchesPattern(url, pattern)] *)
Definition matchesPattern (url pattern : string) : bool :=
  if Contains pattern "*" then
    match Split pattern "*" with
    | [part0; part1] => HasPrefix url part0 && HasSuffix url part1
    | _ => Contains url pattern
    end
  else Contains url pattern.

Fixpoint anyExcluded (patterns : list string) (url : string) : bool :=
  match patterns with
  | [] => false
  | pattern :: rest =>
      if matchesPattern url pattern then true else anyExcluded rest url
  end.

Fixpoint anyDomain (domains : list string) (url : string) : bool :=
  match domains with
  | [] => false
  | domain :: rest =>
      if Contains url domain then true else anyDomain rest url
  end.

(** [Collector.IsAllowedURL(url)] *)
Definition IsAllowedURL (config : Config) (url : string) : bool :=
  if anyExcluded (ExcludePatterns (Target config)) url then false
  else if anyDomain (AllowedDomains (Target config)) url then true
  else false.

End Collector.

(* ===================================================================== *)
(** ** internal/scraper: Scraper *)
(* ===================================================================== *)

Module Scraper.
Import GoStrings Models.

(** What the scraper asks of the libraries it is built on: goquery (parse
    a fragment, drop the unwanted subtrees and comments, serialise; the
    text of a fragment), crypto/md5 with [%x], [time.Parse] and net/url
    ([url.Parse] followed by [ResolveReference] and [String]).  [None] is
    the error result. *)
Class Externals : Type := {
  goquery_clean : string → option string;
  goquery_Text : string → option string;
  md5_hex : string → string;
  time_Parse : string → string → option Time;
  url_resolve : string → string → option string;
}.

(** The view of a [colly.HTMLElement] that the scraper uses. *)
Record HTMLElement : Type := {
  RequestURL : string;                         (* [e.Request.URL.String()] *)
  ChildText : string → string;                 (* [e.ChildText(selector)] *)
  ChildHtml : string → list (option string);   (* [el.DOM.Html()] of each match *)
  ChildDates : string → list (string * string);(* [el.Attr("datetime"), el.Text] of each match *)
  Hrefs : list string;                         (* [el.Attr("href")] of each [a[href]] *)
}.

Record Scraper : Type := {
  config : Config;
  articles : list Article;
  visitedURLs : gset string;
  urlFilter : URLFilter.URLFilter;
}.

Definition NewScraper (config : Config) : Scraper := {|
  config := config;
  articles := [];
  visitedURLs := ∅;
  urlFilter := URLFilter.NewURLFilter;
|}.

(** The class [\s] of RE2: tab, line feed, form feed, carriage return, space. *)
Definition isReSpace (c : ascii) : bool :=
  bool_decide (N_of_ascii c ∈ [9; 10; 12; 13; 32]%N).

(** [regexp.MustCompile(`\s+`).ReplaceAllString(text, " ")] *)
Fixpoint collapseSpace (inRun : bool) (text : string) : string :=
  match text with
  | "" => ""
  | String c text' =>
      if isReSpace c then
        if inRun then collapseSpace true text'
        else String " " (collapseSpace true text')
      else String c (collapseSpace false text')
  end.

Definition cleanText (text : string) : string :=
  TrimSpace (collapseSpace false text).

(** [text] has no whitespace of the class [\s] but single blanks;
    [afterBlank] tells that a blank comes just before [text]. *)
Fixpoint collapsedFrom (afterBlank : bool) (text : string) : bool :=
  match text with
  | "" => true
  | String c text' =>
      if isReSpace c then
        Ascii.eqb c " " && negb afterBlank && collapsedFrom true text'
      else collapsedFrom false text'
  end.

(** The selector loop of [extractTitle]. *)
Fixpoint titleFromSelectors (e : HTMLElement) (selectors : list string) : option string :=
  match selectors with
  | [] => None
  | selector :: rest =>
      let title := ChildText e (TrimSpace selector) in
      if bool_decide (title ≠ "") then Some (cleanText title)
      else titleFromSelectors e rest
  end.

Definition extractTitle (s : Scraper) (e : HTMLElement) : string :=
  let selectors := Split (SelTitle (Selectors (config s))) "," in
  match titleFromSelectors e selectors with
  | Some title => title
  | None =>
      let pageTitle := cleanText (ChildText e "title") in
      if bool_decide (pageTitle ≠ "") then
        match Split pageTitle "|" with
        | part0 :: _ =>
            let articleTitle := TrimSpace part0 in
            if bool_decide (articleTitle ≠ "") then articleTitle else pageTitle
        | [] => pageTitle
        end
      else ""
  end.

(** The title as the specification words it: the first selector with
    text gives the title; otherwise the first segment of the title tag,
    split on the bar, that is not empty; otherwise there is no title. *)
Definition specTitle (s : Scraper) (e : HTMLElement) : string :=
  let selectors := Split (SelTitle (Selectors (config s))) "," in
  match titleFromSelectors e selectors with
  | Some title => title
  | None =>
      let segments := TrimSpace <$> Split (cleanText (ChildText e "title")) "|" in
      default "" (head (filter (λ segment, segment ≠ "") segments))
  end.

(** [Scraper.matchesPattern(url, pattern)] *)
Definition matchesPattern (url pattern : string) : bool :=
  if Contains pattern "*" then
    match Split pattern "*" with
    | [part0; part1] => HasPrefix url part0 && HasSuffix url part1
    | _ => Contains url pattern
    end
  else Contains url pattern.

Fixpoint anyExcluded (patterns : list string) (url : string) : bool :=
  match patterns with
  | [] => false
  | pattern :: rest =>
      if matchesPattern url pattern then true else anyExcluded rest url
  end.

(** [Scraper.isValidInternalLink(urlStr)]: the host has to be one of the
    allowed domains. *)
Fixpoint validForDomains (config : Config) (domains : list string) (urlStr : string) : bool :=
  match domains with
  | [] => false
  | domain :: rest =>
      if String.eqb (NetURL.Host urlStr) domain then
        negb (anyExcluded (ExcludePatterns (Target config)) urlStr)
      else validForDomains config rest urlStr
  end.

Definition isValidInternalLink (s : Scraper) (urlStr : string) : bool :=
  validForDomains (config s) (AllowedDomains (Target (config s))) urlStr.

Section WithExternals.
Context `{Externals}.

Definition cleanHTML (html : string) : string :=
  default html (goquery_clean html).

(** The callback of [e.ForEach(selector, ...)] in [extractContent]. *)
Fixpoint firstHtml (content : string) (matches : list (option string)) : string :=
  match matches with
  | [] => content
  | m :: rest =>
      if bool_decide (content = "") then
        match m with
        | Some html => if bool_decide (html ≠ "") then firstHtml html rest
                       else firstHtml content rest
        | None => firstHtml content rest
        end
      else firstHtml content rest
  end.

Fixpoint contentFromSelectors (e : HTMLElement) (selectors : list string) : string :=
  match selectors with
  | [] => ""
  | selector :: rest =>
      let content := firstHtml "" (ChildHtml e (TrimSpace selector)) in
      if bool_decide (content ≠ "") then cleanHTML content
      else contentFromSelectors e rest
  end.

Definition extractContent (s : Scraper) (e : HTMLElement) : string :=
  contentFromSelectors e (Split (SelContent (Selectors (config s))) ",").

Fixpoint authorFromSelectors (e : HTMLElement) (selectors : list string) : string :=
  match selectors with
  | [] => ""
  | selector :: rest =>
      let author := ChildText e (TrimSpace selector) in
      if bool_decide (author ≠ "") then cleanText author
      else authorFromSelectors e rest
  end.

Definition extractAuthor (s : Scraper) (e : HTMLElement) : string :=
  if bool_decide (SelAuthor (Selectors (config s)) = "") then ""
  else authorFromSelectors e (Split (SelAuthor (Selectors (config s))) ",").

Definition dateFormats : list string :=
  [ "2006-01-02T15:04:05Z07:00";             (* time.RFC3339 *)
    "2006-01-02T15:04:05.999999999Z07:00";   (* time.RFC3339Nano *)
    "2006-01-02T15:04:05Z";
    "2006-01-02T15:04:05";
    "2006-01-02 15:04:05";
    "2006-01-02";
    "January 2, 2006";
    "Jan 2, 2006";
    "2006/01/02" ].

Fixpoint parseWith (formats : list string) (dateStr : string) : option Time :=
  match formats with
  | [] => None
  | format :: rest =>
      match time_Parse format dateStr with
      | Some t => Some t
      | None => parseWith rest dateStr
      end
  end.

Definition parseDate (dateStr : string) : option Time :=
  parseWith dateFormats (TrimSpace dateStr).

(** The callback of [e.ForEach(selector, ...)] in [extractPublishedDate]. *)
Fixpoint firstDate (dateStr : string) (matches : list (string * string)) : string :=
  match matches with
  | [] => dateStr
  | (datetime, text) :: rest =>
      if bool_decide (dateStr = "") then
        firstDate (if bool_decide (datetime ≠ "") then datetime else text) rest
      else firstDate dateStr rest
  end.

Fixpoint dateFromSelectors (e : HTMLElement) (selectors : list string) : option Time :=
  match selectors with
  | [] => None
  | selector :: rest =>
      let dateStr := firstDate "" (ChildDates e (TrimSpace selector)) in
      if bool_decide (dateStr ≠ "") then
        match parseDate dateStr with
        | Some t => Some t
        | None => dateFromSelectors e rest
        end
      else dateFromSelectors e rest
  end.

Definition extractPublishedDate (s : Scraper) (e : HTMLElement) : option Time :=
  if bool_decide (SelPublishedDate (Selectors (config s)) = "") then None
  else dateFromSelectors e (Split (SelPublishedDate (Selectors (config s))) ",").

Definition htmlToPlainText (html : string) : string :=
  match goquery_Text html with
  | None => html
  | Some text => cleanText text
  end.

Definition calculateWordCount (text : string) : Z := Z.of_nat (FieldsLen text).

Definition generateContentHash (content : string) : string := md5_hex content.

(** [ExtractArticle(e)]; [now] is the value of [time.Now()]. *)
Definition ExtractArticle (now : Time) (e : HTMLElement) (s : Scraper)
  : Scraper * option Article :=
  let urlStr := RequestURL e in
  if bool_decide (urlStr ∈ visitedURLs s) then (s, None)
  else
    let s1 := {| config := config s; articles := articles s;
                 visitedURLs := {[urlStr]} ∪ visitedURLs s;
                 urlFilter := urlFilter s |} in
    if negb (URLFilter.ShouldExtractContent (urlFilter s1) urlStr) then (s1, None)
    else
      let title := extractTitle s1 e in
      if bool_decide (title = "") then (s1, None)
      else
        let content := extractContent s1 e in
        if bool_decide (content = "") then (s1, None)
        else
          let author := extractAuthor s1 e in
          let publishedDate := extractPublishedDate s1 e in
          let plainText := htmlToPlainText content in
          let wordCount := calculateWordCount plainText in
          let contentHash := generateContentHash (title +:+ plainText) in
          let article := {|
            URL := urlStr;
            Title := TrimSpace title;
            Content := content;
            PlainText := plainText;
            Author := author;
            PublishedDate := publishedDate;
            ScrapedAt := now;
            WordCount := wordCount;
            ContentHash := contentHash;
          |} in
          ({| config := config s1; articles := articles s1 ++ [article];
              visitedURLs := visitedURLs s1; urlFilter := urlFilter s1 |},
           Some article).

(** [GetArticles()] and [GetArticleCount()] *)
Definition GetArticles (s : Scraper) : list Article := articles s.

Definition GetArticleCount (s : Scraper) : nat := length (articles s).

(** [resolveURL(base, href)] *)
Definition resolveURL (base href : string) : string :=
  default "" (url_resolve base href).

(** The two acceptance tests of [ExtractLinks]. *)
Definition isArticleLink (absoluteURL : string) : bool :=
  Contains absoluteURL "/posts/"
  && HasSuffix absoluteURL "/"
  && negb (HasSuffix absoluteURL "/posts/")
  && negb (Contains absoluteURL "/page/").

Definition isPaginationLink (absoluteURL : string) : bool :=
  Contains absoluteURL "/page/" || Contains absoluteURL "/posts/page/".

(** The callback of [e.ForEach("a[href]", ...)]: the state is the pair of
    [links] and [linkMap]. *)
Definition visitHref (base href : string) (st : list string * gset string)
  : list string * gset string :=
  if bool_decide (href = "") then st
  else
    let absoluteURL := resolveURL base href in
    if bool_decide (absoluteURL = "") then st
    else
      let st1 :=
        if isArticleLink absoluteURL then
          if bool_decide (absoluteURL ∈ st.2) then st
          else (st.1 ++ [absoluteURL], {[absoluteURL]} ∪ st.2)
        else st in
      if isPaginationLink absoluteURL then
        if bool_decide (absoluteURL ∈ st1.2) then st1
        else (st1.1 ++ [absoluteURL], {[absoluteURL]} ∪ st1.2)
      else st1.

Definition ExtractLinks (e : HTMLElement) : list string :=
  (foldl (λ st href, visitHref (RequestURL e) href st) ([], ∅) (Hrefs e)).1.

(** A sequence of calls of [ExtractArticle] on one scraper, with the
    result of each call. *)
Fixpoint extractAll (calls : list (Time * HTMLElement)) (s : Scraper)
  : Scraper * list (option Article) :=
  match calls with
  | [] => (s, [])
  | (now, e) :: rest =>
      let '(s1, r) := ExtractArticle now e s in
      let '(s2, rs) := extractAll rest s1 in
      (s2, r :: rs)
  end.

(** The non-nil results of a sequence of calls that carry the URL [url]. *)
Definition producedFor (url : string) (results : list (option Article)) : list Article :=
  filter (λ a, URL a = url) (omap id results).

(** The invariant of the loop of [ExtractLinks]: [linkMap] holds the
    members of [links], and [links] has no repetition. *)
Definition linksInv (st : list string * gset string) : Prop :=
  NoDup st.1 ∧ ∀ u, u ∈ st.2 ↔ u ∈ st.1.

End WithExternals.

End Scraper.

(* ===================================================================== *)
(** ** Package bufio *)
(* ===================================================================== *)

Module Bufio.
Import GoStrings.

(** *** Scanner with the [ScanLines] split function and the default buffer *)

Definition MaxScanTokenSize : nat := 64 * 1024.

Definition LF : ascii := byte 10.
Definition CR : ascii := byte 13.

(** [dropCR]: a line loses one trailing carriage return. *)
Fixpoint dropCR (line : string) : string :=
  match line with
  | "" => ""
  | String c "" => if Ascii.eqb c CR then "" else line
  | String c rest => String c (dropCR rest)
  end.

(** The lines of the input, without their line feeds; what follows the
    last line feed is a line when it is not empty. *)
Fixpoint rawLines (input : string) : list string :=
  match input with
  | "" => []
  | String c input' =>
      if Ascii.eqb c LF then "" :: rawLines input'
      else match rawLines input' with
           | [] => [String c ""]
           | line :: rest => String c line :: rest
           end
  end.

(** The tokens that successive calls of [Scan] deliver, and whether the
    scanner stopped with [ErrTooLong]: a line has to fit, with its line
    feed, in a buffer that grows to [MaxScanTokenSize] bytes and no
    further. *)
Fixpoint scanTokens (lines : list string) : list string * bool :=
  match lines with
  | [] => ([], false)
  | line :: rest =>
      if (MaxScanTokenSize <=? String.length line)%nat then ([], true)
      else let '(tokens, tooLong) := scanTokens rest in
           (dropCR line :: tokens, tooLong)
  end.

Definition scanLines (input : string) : list string * bool :=
  scanTokens (rawLines input).

(** *** Writer over a file opened for appending *)

(** The file as the writer sees it: its content, and how many more bytes
    it takes before a write fails ([None]: no limit). *)
Record File : Type := {
  data : string;
  room : option nat;
}.

(** [n, err := file.Write(p)]: the result is the file, [n] and [err == nil]. *)
Definition fileWrite (f : File) (p : string) : File * nat * bool :=
  match room f with
  | None => ({| data := data f +:+ p; room := None |}, String.length p, true)
  | Some r =>
      if (String.length p <=? r)%nat then
        ({| data := data f +:+ p; room := Some (r - String.length p) |},
         String.length p, true)
      else ({| data := data f +:+ take r p; room := Some 0 |}, r, false)
  end.

Definition defaultBufSize : nat := 4096.

Record Writer : Type := {
  buf : string;       (* [b.buf[0:b.n]] *)
  failed : bool;      (* [b.err != nil] *)
}.

Definition NewWriter : Writer := {| buf := ""; failed := false |}.

Definition Buffered (b : Writer) : nat := String.length (buf b).
Definition Available (b : Writer) : nat := defaultBufSize - Buffered b.

(** [b.Flush()]; the boolean is [err == nil]. *)
Definition Flush (b : Writer) (f : File) : Writer * File * bool :=
  if failed b then (b, f, false)
  else if (Buffered b =? 0)%nat then (b, f, true)
  else
    let '(f', n, ok) := fileWrite f (buf b) in
    if ok then ({| buf := ""; failed := false |}, f', true)
    else ({| buf := drop n (buf b); failed := true |}, f', false).

(** The loop of [b.Write(p)]: [for len(p) > b.Available() && b.err == nil]. *)
Fixpoint writeLoop (fuel : nat) (b : Writer) (f : File) (p : string)
  : Writer * File * string :=
  match fuel with
  | O => (b, f, p)
  | S fuel' =>
      if (Available b <? String.length p)%nat && negb (failed b) then
        if (Buffered b =? 0)%nat then
          let '(f', n, ok) := fileWrite f p in
          writeLoop fuel' {| buf := buf b; failed := negb ok |} f' (drop n p)
        else
          let n := Available b in
          let '(b', f', _) := Flush {| buf := buf b +:+ take n p; failed := failed b |} f in
          writeLoop fuel' b' f' (drop n p)
      else (b, f, p)
  end.

(** [b.Write(p)] and [b.WriteString(p)]; the boolean is [err == nil].
    The loop runs at most three times: once to fill and flush the
    buffer, once to hand a large rest to the file. *)
Definition Write (b : Writer) (f : File) (p : string) : Writer * File * bool :=
  let '(b', f', p') := writeLoop (String.length p + 2) b f p in
  if failed b' then (b', f', false)
  else ({| buf := buf b' +:+ p'; failed := false |}, f', true).

End Bufio.

(* ===================================================================== *)
(** ** internal/storage *)
(* ===================================================================== *)

Module Storage.
Import GoStrings Models.

(** encoding/json on [models.Article]; [None] is the error result. *)
Class JSON : Type := {
  json_Marshal : Article → option string;
  json_Unmarshal : string → option Article;
}.

(** The errors the storage returns, one for each [fmt.Errorf] (and the
    errors [Load] and [filepath.Glob] pass on). *)
Inductive error : Type :=
  | ErrMkdirOutput
  | ErrMkdirBackup
  | ErrOpenOutput
  | ErrEncode
  | ErrWrite
  | ErrNewline
  | ErrOpenRead
  | ErrScan
  | ErrBackupCopy
  | ErrGlob.

Inductive result (A : Type) : Type :=
  | Ok (a : A)
  | Fail (e : error).
Arguments Ok {A} a.
Arguments Fail {A} e.

(** The part of the file system the storage touches: the output file
    ([None] when it does not exist) and the entries of the backup
    directory, by name. *)
Record FS : Type := {
  outFile : option string;
  backupDir : gmap string string;
}.

Inductive CopyFault : Type :=
  | CopyOpenFails               (* [os.Open(src)] *)
  | CopyCreateFails             (* [os.Create(dst)] *)
  | CopyStops (n : nat).        (* [io.Copy] fails after [n] bytes *)

(** What the surroundings decide during one call. *)
Record IOEnv : Type := {
  now : string;                 (* [time.Now().Format("20060102_150405")] *)
  mkdirFails : string → bool;   (* [os.MkdirAll(dir, 0755)] *)
  copyFault : option CopyFault; (* [copyFile] *)
  globFails : bool;             (* [filepath.Glob] *)
  removeFails : string → bool;  (* [os.Remove(file)] *)
  openFails : bool;             (* opening an existing output file, or creating it *)
  quota : option nat;           (* bytes the output file takes before a write fails *)
  readFails : bool;             (* a read error while scanning *)
}.

Record JSONLStorage : Type := {
  config : StorageConfig;
  outputFile : string;
  existingHashes : gset string;
}.

Definition withHashes (j : JSONLStorage) (hashes : gset string) : JSONLStorage :=
  {| config := config j; outputFile := outputFile j; existingHashes := hashes |}.

Definition withOutFile (fs : FS) (content : string) : FS :=
  {| outFile := Some content; backupDir := backupDir fs |}.

Definition withBackupDir (fs : FS) (dir : gmap string string) : FS :=
  {| outFile := outFile fs; backupDir := dir |}.

Definition newline : string := String Bufio.LF "".

(** *** Backups *)

Definition backupFileName (timestamp : string) : string :=
  "articles_backup_" +:+ timestamp +:+ ".jsonl".

(** A directory entry that the pattern [articles_backup_*.jsonl] matches. *)
Definition matchBackupName (name : string) : bool :=
  (String.length "articles_backup_" + String.length ".jsonl" <=? String.length name)%nat
  && HasPrefix name "articles_backup_" && HasSuffix name ".jsonl".

(** [filepath.Glob(filepath.Join(dir, "articles_backup_*.jsonl"))] *)
Definition globBackups (fs : FS) : list string :=
  filter (λ name, matchBackupName name) (elements (dom (backupDir fs))).

(** The loop over [filesToDelete]; a failed [os.Remove] is logged. *)
Fixpoint removeFiles (env : IOEnv) (files : list string) (dir : gmap string string)
  : gmap string string :=
  match files with
  | [] => dir
  | file :: rest =>
      if removeFails env file then removeFiles env rest dir
      else removeFiles env rest (delete file dir)
  end.

Definition cleanupOldBackups (env : IOEnv) (cfg : StorageConfig) (fs : FS)
  : FS * option error :=
  if globFails env then (fs, Some ErrGlob)
  else
    let files := globBackups fs in
    if (length files <=? MaxBackupFiles cfg)%nat then (fs, None)
    else
      let files := merge_sort String.le files in
      let filesToDelete := list.take (length files - MaxBackupFiles cfg) files in
      (withBackupDir fs (removeFiles env filesToDelete (backupDir fs)), None).

Definition createBackup (env : IOEnv) (cfg : StorageConfig) (fs : FS)
  : FS * option error :=
  match outFile fs with
  | None => (fs, None)
  | Some content =>
      let backupName := backupFileName (now env) in
      match copyFault env with
      | Some CopyOpenFails | Some CopyCreateFails => (fs, Some ErrBackupCopy)
      | Some (CopyStops n) =>
          (withBackupDir fs (<[backupName := take n content]> (backupDir fs)),
           Some ErrBackupCopy)
      | None =>
          let fs1 := withBackupDir fs (<[backupName := content]> (backupDir fs)) in
          ((cleanupOldBackups env cfg fs1).1, None)
      end
  end.

(** [if j.config.BackupEnabled { if err := j.createBackup(); err != nil { log } }] *)
Definition backupIfEnabled (env : IOEnv) (j : JSONLStorage) (fs : FS) : FS :=
  if BackupEnabled (config j) then (createBackup env (config j) fs).1 else fs.

(** *** Save, SaveBatch, Load, Exists *)

Section WithJSON.
Context `{JSON}.

(** [os.OpenFile(j.outputFile, O_CREATE|O_WRONLY|O_APPEND, 0644)] *)
Definition openAppend (env : IOEnv) (fs : FS) : option Bufio.File :=
  if openFails env then None
  else Some {| Bufio.data := default "" (outFile fs); Bufio.room := quota env |}.

Definition Save (env : IOEnv) (article : Article) (st : JSONLStorage * FS)
  : (JSONLStorage * FS) * option error :=
  let '(j, fs) := st in
  if bool_decide (ContentHash article ∈ existingHashes j) then (st, None)
  else
    let fs := backupIfEnabled env j fs in
    match openAppend env fs with
    | None => ((j, fs), Some ErrOpenOutput)
    | Some opened =>
        match json_Marshal article with
        | None => ((j, withOutFile fs (Bufio.data opened)), Some ErrEncode)
        | Some jsonData =>
            let '(written, _, ok) := Bufio.fileWrite opened jsonData in
            if negb ok then ((j, withOutFile fs (Bufio.data written)), Some ErrWrite)
            else
              let '(ended, _, ok) := Bufio.fileWrite written newline in
              if negb ok then ((j, withOutFile fs (Bufio.data ended)), Some ErrNewline)
              else
                ((withHashes j ({[ContentHash article]} ∪ existingHashes j),
                  withOutFile fs (Bufio.data ended)), None)
        end
    end.

(** The state of the loop of [SaveBatch]. *)
Record BatchState : Type := {
  hashes : gset string;
  writer : Bufio.Writer;
  file : Bufio.File;
  savedCount : nat;
  skippedCount : nat;
}.

Definition batchStep (b : BatchState) (article : Article) : BatchState :=
  if bool_decide (ContentHash article ∈ hashes b) then
    {| hashes := hashes b; writer := writer b; file := file b;
       savedCount := savedCount b; skippedCount := S (skippedCount b) |}
  else
    match json_Marshal article with
    | None => b
    | Some jsonData =>
        let '(w, f, ok) := Bufio.Write (writer b) (file b) jsonData in
        let b1 := {| hashes := hashes b; writer := w; file := f;
                     savedCount := savedCount b; skippedCount := skippedCount b |} in
        if negb ok then b1
        else
          let '(w, f, ok) := Bufio.Write w f newline in
          let b2 := {| hashes := hashes b; writer := w; file := f;
                       savedCount := savedCount b; skippedCount := skippedCount b |} in
          if negb ok then b2
          else {| hashes := {[ContentHash article]} ∪ hashes b; writer := w; file := f;
                  savedCount := S (savedCount b); skippedCount := skippedCount b |}
    end.

Definition SaveBatch (env : IOEnv) (articles : list Article) (st : JSONLStorage * FS)
  : (JSONLStorage * FS) * option error :=
  let '(j, fs) := st in
  match articles with
  | [] => (st, None)
  | _ =>
      let fs := backupIfEnabled env j fs in
      match openAppend env fs with
      | None => ((j, fs), Some ErrOpenOutput)
      | Some opened =>
          let b := foldl batchStep
                     {| hashes := existingHashes j; writer := Bufio.NewWriter;
                        file := opened; savedCount := 0; skippedCount := 0 |}
                     articles in
          (* deferred: [writer.Flush()], then [file.Close()] *)
          let '(_, closed, _) := Bufio.Flush (writer b) (file b) in
          ((withHashes j (hashes b), withOutFile fs (Bufio.data closed)), None)
      end
  end.

(** The body of the scanning loop of [Load] for one line. *)
Definition decodeLine (text : string) : option Article :=
  let line := TrimSpace text in
  if bool_decide (line = "") then None else json_Unmarshal line.

Definition Load (env : IOEnv) (fs : FS) : result (list Article) :=
  match outFile fs with
  | None => Ok []
  | Some content =>
      if openFails env then Fail ErrOpenRead
      else
        let '(tokens, tooLong) := Bufio.scanLines content in
        let articles := omap decodeLine tokens in
        if tooLong || readFails env then Fail ErrScan
        else Ok articles
  end.

Definition Exists (j : JSONLStorage) (contentHash : string) : bool * option error :=
  (bool_decide (contentHash ∈ existingHashes j), None).

(** [loadExistingHashes] *)
Definition loadExistingHashes (env : IOEnv) (fs : FS) (j : JSONLStorage)
  : JSONLStorage * option error :=
  match Load env fs with
  | Fail e => (j, Some e)
  | Ok articles =>
      (withHashes j (foldl (λ hs article, {[ContentHash article]} ∪ hs)
                           (existingHashes j) articles), None)
  end.

(** [filepath.Dir] is not modelled: the directories are named by the
    paths they are derived from. *)
Definition NewJSONLStorage (env : IOEnv) (config : Config) (fs : FS)
  : result JSONLStorage :=
  let storageConfig := Models.Storage config in
  if mkdirFails env (OutputFile storageConfig) then Fail ErrMkdirOutput
  else if BackupEnabled storageConfig && mkdirFails env (BackupDirectory storageConfig)
  then Fail ErrMkdirBackup
  else
    let storage := {| config := storageConfig;
                      outputFile := OutputFile storageConfig;
                      existingHashes := ∅ |} in
    Ok (loadExistingHashes env fs storage).1.

(** *** Sequences of calls *)

Inductive call : Type :=
  | CallSave (article : Article)
  | CallSaveBatch (articles : list Article).

Definition callArticles (c : call) : list Article :=
  match c with
  | CallSave article => [article]
  | CallSaveBatch articles => articles
  end.

Definition runCall (env : IOEnv) (c : call) (st : JSONLStorage * FS)
  : (JSONLStorage * FS) * option error :=
  match c with
  | CallSave article => Save env article st
  | CallSaveBatch articles => SaveBatch env articles st
  end.

Fixpoint runCalls (calls : list (IOEnv * call)) (st : JSONLStorage * FS)
  : (JSONLStorage * FS) * list (option error) :=
  match calls with
  | [] => (st, [])
  | (env, c) :: rest =>
      let '(st1, r) := runCall env c st in
      let '(st2, rs) := runCalls rest st1 in
      (st2, r :: rs)
  end.

(** The articles handed to a sequence of calls, in order. *)
Definition offered (calls : list (IOEnv * call)) : list Article :=
  calls ≫= (λ c, callArticles c.2).

(** The records a list of articles is written as. *)
Fixpoint encodeLines (articles : list Article) : string :=
  match articles with
  | [] => ""
  | article :: rest =>
      default "" (json_Marshal article) +:+ newline +:+ encodeLines rest
  end.

(** The property that what [Save] returns for a duplicate differs from
    what it returns for an article that it appends. *)
Definition reportsDuplicateDistinctly : Prop :=
  ∀ env1 env2 article1 article2 st1 st2,
    ContentHash article1 ∈ existingHashes st1.1 →
    ContentHash article2 ∉ existingHashes st2.1 →
    (Save env2 article2 st2).2 = None →
    (Save env1 article1 st1).2 ≠ (Save env2 article2 st2).2.

(** The output file takes [n] more bytes. *)
Definition takes (env : IOEnv) (n : nat) : Prop :=
  match quota env with
  | None => True
  | Some r => n ≤ r
  end.

(** The record of [article] is one line, and [Load] reads the article
    back from it. *)
Definition wellEncoded (article : Article) : Prop :=
  ∃ line, json_Marshal article = Some line
          ∧ hasByte Bufio.LF line = false
          ∧ decodeLine (Bufio.dropCR line) = Some article.

(** The record of [article] fits the buffer of the scanner. *)
Definition shortRecord (article : Article) : Prop :=
  ∃ line, json_Marshal article = Some line
          ∧ (String.length line < Bufio.MaxScanTokenSize)%nat.

End WithJSON.

(** The first article of each fingerprint that is not in [seen]. *)
Fixpoint firstByHash (seen : gset string) (articles : list Article) : list Article :=
  match articles with
  | [] => []
  | article :: rest =>
      if bool_decide (ContentHash article ∈ seen) then firstByHash seen rest
      else article :: firstByHash ({[ContentHash article]} ∪ seen) rest
  end.

(** The fingerprints of a list of articles. *)
Definition hashesOf (articles : list Article) : gset string :=
  list_to_set (ContentHash <$> articles).


(** The output file can be opened and takes every write. *)
Definition writable (env : IOEnv) : Prop :=
  openFails env = false ∧ quota env = None.

(** The content of the output file, empty when there is none. *)
Definition content (fs : FS) : string := default "" (outFile fs).

(** A sequence of calls of [Save] alone. *)
Definition saves (calls : list (IOEnv * Article)) : list (IOEnv * call) :=
  (λ c, (c.1, CallSave c.2)) <$> calls.

Section Records.
Context `{JSON}.



End Records.

(** *** Sequences of backup rotations *)

(** Copying and pruning meet no failure. *)
Definition rotates (env : IOEnv) : Prop :=
  copyFault env = None ∧ globFails env = false ∧ ∀ file, removeFails env file = false.

Definition rotations (envs : list IOEnv) (cfg : StorageConfig) (fs : FS) : FS :=
  foldl (λ fs env, (createBackup env cfg fs).1) fs envs.

(** The backup files of the backup directory. *)
Definition backupFiles (fs : FS) : gset string :=
  list_to_set (globBackups fs).

(** The names of the backup files that a sequence of rotations writes. *)
Definition createdNames (envs : list IOEnv) : gset string :=
  list_to_set ((λ env, backupFileName (now env)) <$> envs).

(** [s1] sorts strictly before [s2] in the order of [sort.Strings]. *)
Definition older (s1 s2 : string) : Prop := String.le s1 s2 ∧ s1 ≠ s2.

(** [kept] is what retention leaves of [all]: the [n] newest of them,
    or all of them when there are [n] or fewer. *)
Definition keepsNewest (n : nat) (all kept : gset string) : Prop :=
  kept ⊆ all
  ∧ size kept = n `min` size all
  ∧ ∀ dropped name, dropped ∈ all → dropped ∉ kept → name ∈ kept → older dropped name.

(** [b] is [a] with bytes appended. *)
Definition extends (a b : string) : Prop := ∃ more, b = a +:+ more.

End Storage.

(* ===================================================================== *)
(** ** internal/storage: the statistics of the store *)
(* ===================================================================== *)

Module StorageStats.
Import GoStrings Models.

Record StorageStats : Type := {
  TotalArticles : Z;
  TotalSizeBytes : Z;
  LastSavedAt : string;
  StorageFormat : string;
  OutputFile : string;
}.

Section WithJSON.
Context `{Storage.JSON}.

(** [GetStats()]; [os.Stat] succeeds when the output file exists, and
    [modTime] is [fileInfo.ModTime().Format(time.RFC3339)]. *)
Definition GetStats (env : Storage.IOEnv) (modTime : string)
    (j : Storage.JSONLStorage) (fs : Storage.FS)
  : StorageStats * option Storage.error :=
  let stats :=
    match Storage.outFile fs with
    | Some written =>
        {| TotalArticles := 0; TotalSizeBytes := Z.of_nat (String.length written);
           LastSavedAt := modTime; StorageFormat := "jsonl";
           OutputFile := Storage.outputFile j |}
    | None =>
        {| TotalArticles := 0; TotalSizeBytes := 0; LastSavedAt := "";
           StorageFormat := "jsonl"; OutputFile := Storage.outputFile j |}
    end in
  match Storage.Load env fs with
  | Storage.Fail e => (stats, Some e)
  | Storage.Ok articles =>
      ({| TotalArticles := Z.of_nat (length articles);
          TotalSizeBytes := TotalSizeBytes stats;
          LastSavedAt := LastSavedAt stats;
          StorageFormat := StorageFormat stats;
          OutputFile := OutputFile stats |}, None)
  end.

End WithJSON.

End StorageStats.

(* ===================================================================== *)
(** ** internal/storage/factory.go *)
(* ===================================================================== *)

Module Factory.
Import GoStrings Models.

(** [strings.ToLower], a parameter: it maps letters outside ASCII too. *)
Class Unicode : Type := {
  strings_ToLower : string → string;
}.

Inductive error : Type :=
  | ErrJSONUnsupported
  | ErrCSVUnsupported
  | ErrUnsupportedFormat (format : string)
  | ErrOutputFileRequired
  | ErrBackupDirectoryRequired
  | ErrMaxBackupFiles
  | ErrStorage (e : Storage.error).

Section WithLibraries.
Context `{Unicode} `{Storage.JSON}.

Definition NewStorage (env : Storage.IOEnv) (config : Config) (fs : Storage.FS)
  : Storage.JSONLStorage + error :=
  let format := strings_ToLower (OutputFormat (Storage config)) in
  if String.eqb format "jsonl" then
    match Storage.NewJSONLStorage env config fs with
    | Storage.Ok j => inl j
    | Storage.Fail e => inr (ErrStorage e)
    end
  else if String.eqb format "json" then inr ErrJSONUnsupported
  else if String.eqb format "csv" then inr ErrCSVUnsupported
  else inr (ErrUnsupportedFormat format).

(** [ValidateStorageConfig]; [MaxBackupFiles] is a natural number here,
    so [<= 0] is [= 0]. *)
Definition ValidateStorageConfig (config : Config) : option error :=
  if String.eqb (Models.OutputFile (Storage config)) "" then Some ErrOutputFileRequired
  else
    let format := strings_ToLower (OutputFormat (Storage config)) in
    let isSupported := existsb (λ supported, String.eqb format supported) [ "jsonl" ] in
    if negb isSupported then Some (ErrUnsupportedFormat format)
    else if BackupEnabled (Storage config) then
      if String.eqb (BackupDirectory (Storage config)) "" then
        Some ErrBackupDirectoryRequired
      else if (MaxBackupFiles (Storage config) <=? 0)%nat then Some ErrMaxBackupFiles
      else None
    else None.

End WithLibraries.

End Factory.

(* ===================================================================== *)
(** ** cmd/crawler *)
(* ===================================================================== *)

Module Crawler.
Import Models.

Record CrawlStats : Type := {
  ProcessedURLs : Z;
  SavedArticles : Z;
  SkippedArticles : Z;
  ErrorCount : Z;
  DryRun : bool;
}.

Record CrawlerApp : Type := {
  scraper : Scraper.Scraper;
  storage : Storage.JSONLStorage * Storage.FS;
  stats : CrawlStats;
}.

Definition processed (st : CrawlStats) : CrawlStats :=
  {| ProcessedURLs := ProcessedURLs st + 1; SavedArticles := SavedArticles st;
     SkippedArticles := SkippedArticles st; ErrorCount := ErrorCount st;
     DryRun := DryRun st |}.

Definition saved (st : CrawlStats) : CrawlStats :=
  {| ProcessedURLs := ProcessedURLs st; SavedArticles := SavedArticles st + 1;
     SkippedArticles := SkippedArticles st; ErrorCount := ErrorCount st;
     DryRun := DryRun st |}.

Definition skipped (st : CrawlStats) : CrawlStats :=
  {| ProcessedURLs := ProcessedURLs st; SavedArticles := SavedArticles st;
     SkippedArticles := SkippedArticles st + 1; ErrorCount := ErrorCount st;
     DryRun := DryRun st |}.

Definition failed (st : CrawlStats) : CrawlStats :=
  {| ProcessedURLs := ProcessedURLs st; SavedArticles := SavedArticles st;
     SkippedArticles := SkippedArticles st; ErrorCount := ErrorCount st + 1;
     DryRun := DryRun st |}.

Section WithLibraries.
Context `{Scraper.Externals} `{Storage.JSON}.

(** [handleArticle(e)]; [clock] is the value of [time.Now()] in the scraper. *)
Definition handleArticle (env : Storage.IOEnv) (clock : Time)
    (e : Scraper.HTMLElement) (app : CrawlerApp) : CrawlerApp :=
  let stats1 := processed (stats app) in
  let '(scraper1, extracted) := Scraper.ExtractArticle clock e (scraper app) in
  match extracted with
  | None =>
      {| scraper := scraper1; storage := storage app; stats := skipped stats1 |}
  | Some article =>
      match Storage.Exists (storage app).1 (ContentHash article) with
      | (_, Some _) =>
          {| scraper := scraper1; storage := storage app; stats := failed stats1 |}
      | (true, None) =>
          {| scraper := scraper1; storage := storage app; stats := skipped stats1 |}
      | (false, None) =>
          if negb (DryRun stats1) then
            match Storage.Save env article (storage app) with
            | (storage1, Some _) =>
                {| scraper := scraper1; storage := storage1; stats := failed stats1 |}
            | (storage1, None) =>
                {| scraper := scraper1; storage := storage1; stats := saved stats1 |}
            end
          else
            {| scraper := scraper1; storage := storage app; stats := saved stats1 |}
      end
  end.

(** [handleLinks(e)]: the URLs handed to [e.Request.Visit], in order;
    [config] is the configuration of the collector. *)
Definition handleLinks (config : Config) (e : Scraper.HTMLElement) : list string :=
  filter (λ link, Collector.IsAllowedURL config link = true) (Scraper.ExtractLinks e).

(** The article handler called for a sequence of pages. *)
Definition handleArticles (pages : list (Storage.IOEnv * Time * Scraper.HTMLElement))
    (app : CrawlerApp) : CrawlerApp :=
  foldl (λ app page, handleArticle page.1.1 page.1.2 page.2 app) app pages.

End WithLibraries.

End Crawler.

(* ===================================================================== *)
(** ** cmd/crawler/main.go *)
(* ===================================================================== *)

Module Main.
Import Models.

(** The scraper, the store and the three counters of [main]. *)
Record State : Type := {
  scraperInstance : Scraper.Scraper;
  store : Storage.JSONLStorage * Storage.FS;
  processedURLs : Z;
  savedArticles : Z;
  skippedArticles : Z;
}.

Section WithLibraries.
Context `{Scraper.Externals} `{Storage.JSON}.

(** The function given to [c.SetupArticleHandler]. *)
Definition articleHandler (dryRun : bool) (env : Storage.IOEnv) (clock : Time)
    (e : Scraper.HTMLElement) (st : State) : State :=
  let processedURLs1 := (processedURLs st + 1)%Z in
  let '(scraper1, extracted) := Scraper.ExtractArticle clock e (scraperInstance st) in
  match extracted with
  | None =>
      {| scraperInstance := scraper1; store := store st;
         processedURLs := processedURLs1; savedArticles := savedArticles st;
         skippedArticles := (skippedArticles st + 1)%Z |}
  | Some article =>
      if negb dryRun then
        match Storage.Save env article (store st) with
        | (store1, Some _) =>
            {| scraperInstance := scraper1; store := store1;
               processedURLs := processedURLs1; savedArticles := savedArticles st;
               skippedArticles := skippedArticles st |}
        | (store1, None) =>
            {| scraperInstance := scraper1; store := store1;
               processedURLs := processedURLs1;
               savedArticles := (savedArticles st + 1)%Z;
               skippedArticles := skippedArticles st |}
        end
      else
        {| scraperInstance := scraper1; store := store st;
           processedURLs := processedURLs1;
           savedArticles := (savedArticles st + 1)%Z;
           skippedArticles := skippedArticles st |}
  end.

End WithLibraries.

End Main.

(* ===================================================================== *)
(** ** Sample data *)
(* ===================================================================== *)

(** The configuration of configs/config.yaml, pages of the target site,
    and stand-ins for the libraries, on which the statements below are
    exercised. *)

Module Samples.
Import GoStrings Models.

Definition site : string := "https://yamada-tech-memo.netlify.app".

Definition config : Config := {|
  Target := {|
    BaseURL := site;
    StartURLs := [ site +:+ "/"; site +:+ "/posts/" ];
    AllowedDomains := [ "yamada-tech-memo.netlify.app" ];
    ExcludePatterns :=
      [ "*.jpg"; "*.jpeg"; "*.png"; "*.gif"; "*.pdf"; "*.css"; "*.js";
        "/assets/*"; "/images/*"; "/posts/$"; "/posts/index.xml";
        "/tags/*"; "/categories/*" ];
  |};
  Selectors := {|
    SelTitle := "h1, .post-title, .entry-title, .post-header h1, article h1, main h1, title";
    SelContent := "main, article, .post-content, .entry-content, .content, .post-body, .markdown, body";
    SelPublishedDate := "time[datetime], .post-date, .published, .date, .post-meta time, .meta time";
    SelAuthor := ".author, .post-author, .by-author, .post-meta .author, .meta .author";
  |};
  Storage := {|
    OutputFormat := "jsonl";
    OutputFile := "data/articles.jsonl";
    BackupEnabled := true;
    BackupDirectory := "data/backups";
    MaxBackupFiles := 10;
  |};
|}.

(** A stand-in for goquery, md5, time and net/url: markup is kept as it
    is, the digest is the text itself, no date parses, and a reference
    that starts with a slash is resolved against [site]. *)
Definition externals : Scraper.Externals := {|
  Scraper.goquery_clean := λ html, Some html;
  Scraper.goquery_Text := λ html, Some html;
  Scraper.md5_hex := λ content, content;
  Scraper.time_Parse := λ _ _, None;
  Scraper.url_resolve := λ _ href,
    Some (if HasPrefix href "/" then site +:+ href else href);
|}.

(** An article page with a heading and a body. *)
Definition articlePage : Scraper.HTMLElement := {|
  Scraper.RequestURL := site +:+ "/posts/go-colly/";
  Scraper.ChildText := λ selector,
    if String.eqb selector "h1" then "Scraping with Colly"
    else if String.eqb selector "title" then "Scraping with Colly | Yamada Tech Memo"
    else "";
  Scraper.ChildHtml := λ selector,
    if String.eqb selector "main" then [ Some "<p>Colly is a scraping framework.</p>" ]
    else [];
  Scraper.ChildDates := λ _, [];
  Scraper.Hrefs :=
    [ "/posts/"; "/posts/page/2/"; "/posts/go-colly/"; "/tags/go/";
      ""; "/posts/go-colly/"; "/posts/aws-lambda/"; "/about/" ];
|}.

(** A page on which no title selector finds text and whose title tag
    starts with the separator. *)
Definition barePage : Scraper.HTMLElement := {|
  Scraper.RequestURL := site +:+ "/posts/untitled/";
  Scraper.ChildText := λ selector,
    if String.eqb selector "title" then "| My Blog" else "";
  Scraper.ChildHtml := λ selector,
    if String.eqb selector "main" then [ Some "<p>text</p>" ] else [];
  Scraper.ChildDates := λ _, [];
  Scraper.Hrefs := [];
|}.

(** An article of which only the fingerprint and the title are set. *)
Definition note (hash title : string) : Article := {|
  URL := ""; Title := title; Content := ""; PlainText := "";
  Author := ""; PublishedDate := None; ScrapedAt := 0%Z; WordCount := 0%Z;
  ContentHash := hash;
|}.

(** A stand-in for encoding/json: a record is the fingerprint and the
    title between braces, separated by a colon. *)
Definition codec : Storage.JSON := {|
  Storage.json_Marshal := λ a, Some ("{" +:+ ContentHash a +:+ ":" +:+ Title a +:+ "}");
  Storage.json_Unmarshal := λ line,
    match line with
    | String "{" rest =>
        match Split rest ":" with
        | [hash; title] =>
            if HasSuffix title "}"
            then Some (note hash (take (String.length title - 1) title))
            else None
        | _ => None
        end
    | _ => None
    end;
|}.

(** Surroundings in which nothing fails. *)
Definition env (timestamp : string) : Storage.IOEnv := {|
  Storage.now := timestamp;
  Storage.mkdirFails := λ _, false;
  Storage.copyFault := None;
  Storage.globFails := false;
  Storage.removeFails := λ _, false;
  Storage.openFails := false;
  Storage.quota := None;
  Storage.readFails := false;
|}.

(** No output file, no backups. *)
Definition emptyFS : Storage.FS := {|
  Storage.outFile := None;
  Storage.backupDir := ∅;
|}.

(** The store that [NewJSONLStorage] builds over [emptyFS]. *)
Definition freshStore : Storage.JSONLStorage := {|
  Storage.config := Storage config;
  Storage.outputFile := OutputFile (Storage config);
  Storage.existingHashes := ∅;
|}.

(** Title selectors that do not name the title tag. *)
Definition plainConfig : Config := {|
  Target := Target config;
  Selectors := {|
    SelTitle := "h1, .post-title, .entry-title";
    SelContent := SelContent (Selectors config);
    SelPublishedDate := SelPublishedDate (Selectors config);
    SelAuthor := SelAuthor (Selectors config);
  |};
  Storage := Storage config;
|}.

(** Backups with a retention of two files. *)
Definition twoBackups : StorageConfig := {|
  OutputFormat := "jsonl";
  OutputFile := "data/articles.jsonl";
  BackupEnabled := true;
  BackupDirectory := "data/backups";
  MaxBackupFiles := 2;
|}.

(** An output file with one record, no backups. *)
Definition seededFS : Storage.FS := {|
  Storage.outFile := Some ("{h1:first}" +:+ Storage.newline);
  Storage.backupDir := ∅;
|}.

(** A URL of another host that names the allowed domain in its query. *)
Definition foreignURL : string :=
  "https://evil.example/?next=yamada-tech-memo.netlify.app".

(** [n] copies of the byte [c]. *)
Fixpoint fill (n : nat) (c : ascii) : string :=
  match n with
  | O => ""
  | S n' => String c (fill n' c)
  end.

(** Three articles with the fingerprint [h1] and one with [h2], in two
    calls of [Save] and one of [SaveBatch]. *)
Definition sampleCalls : list (Storage.IOEnv * Storage.call) :=
  [ (env "20250101_120000", Storage.CallSave (note "h1" "first"));
    (env "20250101_120001", Storage.CallSave (note "h1" "second"));
    (env "20250101_120002",
     Storage.CallSaveBatch [ note "h2" "other"; note "h1" "third" ]) ].

(** An article whose record is longer than the buffer of the scanner. *)
Definition longArticle : Article :=
  note "h9" (fill Bufio.MaxScanTokenSize "a").

(** Four rotations, three seconds apart and out of order. *)
Definition sampleRotations : list Storage.IOEnv :=
  env <$> [ "20250101_120003"; "20250101_120000";
            "20250101_120009"; "20250101_120006" ].

(** Surroundings in which the output file takes [n] more bytes and then
    no more (a full disk), and nothing else fails. *)
Definition fullAfter (n : nat) (timestamp : string) : Storage.IOEnv := {|
  Storage.now := timestamp;
  Storage.mkdirFails := λ _, false;
  Storage.copyFault := None;
  Storage.globFails := false;
  Storage.removeFails := λ _, false;
  Storage.openFails := false;
  Storage.quota := Some n;
  Storage.readFails := false;
|}.


(** Surroundings in which no backup can be made: creating the copy and
    listing the backup directory fail. *)
Definition failingCopy (timestamp : string) : Storage.IOEnv := {|
  Storage.now := timestamp;
  Storage.mkdirFails := λ _, false;
  Storage.copyFault := Some Storage.CopyCreateFails;
  Storage.globFails := true;
  Storage.removeFails := λ _, true;
  Storage.openFails := false;
  Storage.quota := None;
  Storage.readFails := false;
|}.

(** An output file with one record, and a backup directory with three
    backups and a file of another kind. *)
Definition crowdedFS : Storage.FS := {|
  Storage.outFile := Some ("{h1:first}" +:+ Storage.newline);
  Storage.backupDir :=
    <[ "articles_backup_20250101_120000.jsonl" := "" ]>
    (<[ "articles_backup_20250101_120003.jsonl" := "" ]>
    (<[ "articles_backup_20250101_120006.jsonl" := "" ]>
    (<[ "notes.txt" := "keep" ]> ∅)));
|}.

(** The application at its start, over [emptyFS]. *)
Definition app (dryRun : bool) : Crawler.CrawlerApp := {|
  Crawler.scraper := Scraper.NewScraper config;
  Crawler.storage := (freshStore, emptyFS);
  Crawler.stats := {| Crawler.ProcessedURLs := 0; Crawler.SavedArticles := 0;
                      Crawler.SkippedArticles := 0; Crawler.ErrorCount := 0;
                      Crawler.DryRun := dryRun |};
|}.

(** A stand-in for [strings.ToLower] that lowers the letters of ASCII. *)
Definition lowerByte (c : ascii) : ascii :=
  let n := N_of_ascii c in
  if ((65 <=? n) && (n <=? 90))%N then ascii_of_N (n + 32) else c.

Fixpoint lower (s : string) : string :=
  match s with
  | "" => ""
  | String c s' => String (lowerByte c) (lower s')
  end.

Definition unicode : Factory.Unicode := {| Factory.strings_ToLower := lower |}.

(** The configuration with the format written in capitals. *)
Definition capitalsConfig : Config := {|
  Target := Target config;
  Selectors := Selectors config;
  Storage := {|
    OutputFormat := "JSONL";
    OutputFile := "data/articles.jsonl";
    BackupEnabled := true;
    BackupDirectory := "data/backups";
    MaxBackupFiles := 10;
  |};
|}.

(** [main] at its start, over [emptyFS]. *)
Definition mainState : Main.State := {|
  Main.scraperInstance := Scraper.NewScraper config;
  Main.store := (freshStore, emptyFS);
  Main.processedURLs := 0;
  Main.savedArticles := 0;
  Main.skippedArticles := 0;
|}.

(** The article page, the same page again and a page without text. *)
Definition samplePages : list (Storage.IOEnv * Time * Scraper.HTMLElement) :=
  [ (env "20250101_120000", 0%Z, articlePage);
    (env "20250101_120001", 1%Z, articlePage);
    (env "20250101_120002", 2%Z, barePage) ].

(** Three calls of [Save], two of them for the fingerprint [h1]. *)
Definition sampleSaves : list (Storage.IOEnv * Article) :=
  [ (env "20250101_120000", note "h1" "first");
    (env "20250101_120001", note "h1" "second");
    (env "20250101_120002", note "h2" "other") ].

End Samples.

(* ===================================================================== *)
(** ** Tactics *)
(* ===================================================================== *)

(** Finds the last part of a sequence in a goal [Regexp.tailIs t r]. *)
Ltac tail_found := repeat first [ left; reflexivity | right ].

(** Membership in a list that is written out. *)
Ltac in_list := repeat first [ apply list_elem_of_here | apply list_elem_of_further ].

(** The expression that a pattern compiles to. *)
Ltac compiled p :=
  let c := eval vm_compute in (Regexp.Compile p) in
  match c with Some ?r => constr:(r) end.

(* ===================================================================== *)
(** * Properties *)
(* ===================================================================== *)

(** ** Strings and regular expressions *)

Module StringFacts.
Import GoStrings.

Lemma append_cons c s t : String c s +:+ t = String c (s +:+ t).
Proof. reflexivity. Qed.

Lemma append_nil_l s : "" +:+ s = s.
Proof. reflexivity. Qed.

Lemma append_nil_r s : s +:+ "" = s.
Proof. induction s as [|c s IH]; [done|]. by rewrite append_cons, IH. Qed.

Lemma append_assoc s t u : (s +:+ t) +:+ u = s +:+ (t +:+ u).
Proof. induction s as [|c s IH]; [done|]. by rewrite !append_cons, IH. Qed.

Lemma length_append s t : String.length (s +:+ t) = String.length s + String.length t.
Proof. induction s as [|c s IH]; [done|]. rewrite append_cons. simpl. by rewrite IH. Qed.

Lemma take_append_drop n s : take n s +:+ drop n s = s.
Proof.
  revert s. induction n as [|n IH]; intros [|c s]; try done.
  simpl. by rewrite append_cons, IH.
Qed.

Lemma drop_append_length s t : drop (String.length s) (s +:+ t) = t.
Proof. induction s as [|c s IH]; [by destruct t|]. by rewrite append_cons. Qed.

Lemma HasSuffix_split s suffix :
  HasSuffix s suffix = true → ∃ front, s = front +:+ suffix.
Proof.
  unfold HasSuffix. intros [_ Heq%String.eqb_eq]%andb_prop.
  exists (take (String.length s - String.length suffix) s).
  set (n := String.length s - String.length suffix) in *.
  rewrite <- Heq. symmetry. apply take_append_drop.
Qed.

Lemma HasSuffix_app front suffix : HasSuffix (front +:+ suffix) suffix = true.
Proof.
  unfold HasSuffix. rewrite length_append. apply andb_true_intro. split.
  - apply Nat.leb_le. lia.
  - replace (String.length front + String.length suffix - String.length suffix)
      with (String.length front) by lia.
    rewrite drop_append_length. apply String.eqb_refl.
Qed.

Lemma lastByte_append s t : t ≠ "" → lastByte (s +:+ t) = lastByte t.
Proof.
  intros Ht. induction s as [|c s IH]; [done|].
  rewrite append_cons. simpl. destruct (s +:+ t) eqn:E; [|done].
  destruct s; [|done]. by rewrite append_nil_l in E.
Qed.

End StringFacts.

Module RegexpFacts.
Import GoStrings StringFacts Regexp.

(** A match leaves a suffix of the input to the continuation. *)
Lemma matchK_suffix r : ∀ s k,
  matchK r s k = true → ∃ front rest, s = front +:+ rest ∧ k rest = true.
Proof.
  induction r as [| |c|c| |r1 IH1 r2 IH2|r1 IH1 r2 IH2|r IH]; intros s k; simpl.
  - intros Hk. by exists "", s.
  - destruct s; [|done]. intros Hk. by exists "", "".
  - destruct s as [|d s]; [done|]. intros [_ Hk]%andb_prop.
    by exists (String d ""), s.
  - destruct s as [|d s]; [done|]. intros [_ Hk]%andb_prop.
    by exists (String d ""), s.
  - destruct s as [|d s]; [done|]. intros [_ Hk]%andb_prop.
    by exists (String d ""), s.
  - intros (f1 & s1 & -> & Hm)%IH1. apply IH2 in Hm as (f2 & s2 & -> & Hk).
    exists (f1 +:+ f2), s2. by rewrite append_assoc.
  - intros [Hm|Hm]%orb_prop; [by apply IH1|by apply IH2].
  - generalize (String.length s) at 1. intros fuel. revert s.
    induction fuel as [|fuel IHf]; intros s.
    + rewrite orb_false_r. intros Hk. by exists "", s.
    + intros [Hk|Hm]%orb_prop; [by exists "", s|].
      apply IH in Hm as (f1 & s1 & -> & [_ Hm]%andb_prop).
      apply IHf in Hm as (f2 & s2 & -> & Hk).
      exists (f1 +:+ f2), s2. by rewrite append_assoc.
Qed.

Lemma search_app r front s : search r s = true → search r (front +:+ s) = true.
Proof.
  intros Hs. induction front as [|c front IH]; [done|].
  rewrite append_cons. simpl. rewrite IH. apply orb_true_r.
Qed.

Lemma search_split r s :
  search r s = true → ∃ front rest, s = front +:+ rest ∧ matchHere r rest = true.
Proof.
  induction s as [|c s IH]; simpl.
  - rewrite orb_false_r. intros Hm. by exists "", "".
  - intros [Hm|Hs]%orb_prop; [by exists "", (String c s)|].
    apply IH in Hs as (front & rest & -> & Hm). by exists (String c front), rest.
Qed.

Lemma matchK_tail t r : tailIs t r → ∀ s k,
  matchK r s k = true → ∃ front rest, s = front +:+ rest ∧ matchK t rest k = true.
Proof.
  induction r as [| |c|c| |r1 IH1 r2 IH2|r1 IH1 r2 IH2|r IH];
    (intros [->|Ht] s k Hm; [by exists "", s|]); try done.
  simpl in Hm. apply matchK_suffix in Hm as (f1 & s1 & -> & Hm).
  apply (IH2 Ht) in Hm as (f2 & s2 & -> & Hm).
  exists (f1 +:+ f2), s2. by rewrite append_assoc.
Qed.

(** A pattern that ends in [c$] only matches text that ends in [c]. *)
Lemma search_ends_with c r s :
  tailIs (Seq (Chr c) EndText) r → search r s = true → lastByte s = Some c.
Proof.
  intros Ht (f1 & s1 & -> & Hm)%search_split.
  apply (matchK_tail _ _ Ht) in Hm as (f2 & s2 & -> & Hm).
  simpl in Hm. destruct s2 as [|c' [|]]; try done.
  - apply andb_prop in Hm as [Hc%Ascii.eqb_eq _]. subst c'.
    rewrite <- append_assoc. by rewrite lastByte_append.
  - by rewrite andb_false_r in Hm.
Qed.

End RegexpFacts.

(** ** The URL filter *)

Module URLFilterFacts.
Import GoStrings StringFacts Regexp RegexpFacts URLFilter.

Lemma anyMatch_true patterns url :
  anyMatch patterns url = true
  ↔ ∃ pattern, pattern ∈ patterns ∧ MatchString pattern url = true.
Proof.
  induction patterns as [|p ps IH]; simpl.
  - split; [done|]. intros (? & ?%elem_of_nil & _). done.
  - destruct (MatchString p url) eqn:Hp.
    + split; [|done]. intros _. exists p. split; [left|done].
    + rewrite IH. split.
      * intros (q & Hq & Hm). exists q. split; [by right|done].
      * intros (q & [->|Hq]%elem_of_cons & Hm); [congruence|by exists q].
Qed.

Lemma MatchString_ends_with c pattern r url :
  Compile pattern = Some r → tailIs (Seq (Chr c) EndText) r →
  MatchString pattern url = true → lastByte url = Some c.
Proof.
  unfold MatchString. intros -> Ht Hs. by apply (search_ends_with c r).
Qed.

Lemma MatchString_suffix pattern r front s :
  Compile pattern = Some r → search r s = true →
  MatchString pattern (front +:+ s) = true.
Proof. unfold MatchString. intros -> Hs. by apply search_app. Qed.

Lemma IsListPage_ends_with_slash uf url :
  IsListPage uf url = true → lastByte url = Some "/"%char.
Proof.
  unfold IsListPage. intros (p & Hp & Hm)%anyMatch_true.
  unfold listPatterns in Hp.
  repeat (apply elem_of_cons in Hp as [->|Hp]); [..|by apply elem_of_nil in Hp];
    match type of Hm with
    | MatchString ?p _ = true =>
        let r := compiled p in
        apply (MatchString_ends_with "/" p r);
          [vm_compute; reflexivity|vm_compute; tail_found|exact Hm]
    end.
Qed.

Lemma static_asset_excluded url ext :
  ext ∈ staticExtensions → HasSuffix url ("." +:+ ext) = true →
  MatchString "\.(jpg|jpeg|png|gif|pdf|css|js)$" url = true
  ∧ lastByte url ≠ Some "/"%char.
Proof.
  intros Hext (front & ->)%HasSuffix_split. unfold staticExtensions in Hext.
  repeat (apply elem_of_cons in Hext as [->|Hext]); [..|by apply elem_of_nil in Hext];
    (split;
     [ let r := compiled "\.(jpg|jpeg|png|gif|pdf|css|js)$" in
       apply (MatchString_suffix _ r); vm_compute; reflexivity
     | rewrite lastByte_append; [vm_compute; congruence|done] ]).
Qed.

(** C3. *)
Theorem exclusion_takes_precedence :
  (∀ uf url,
     (∃ pattern, pattern ∈ excludePatterns uf ∧ MatchString pattern url = true) →
     IsArticlePage uf url = false
     ∧ ShouldExtractContent uf url = false
     ∧ GetURLType uf url ≠ "article")
  ∧ (∀ url ext,
       ext ∈ staticExtensions → HasSuffix url ("." +:+ ext) = true →
       IsArticlePage NewURLFilter url = false
       ∧ GetURLType NewURLFilter url = "other").
Proof.
  assert (Hfirst : ∀ uf url,
    (∃ pattern, pattern ∈ excludePatterns uf ∧ MatchString pattern url = true) →
    IsArticlePage uf url = false).
  { intros uf url Hex%anyMatch_true. unfold IsArticlePage. by rewrite Hex. }
  split.
  - intros uf url Hex. pose proof (Hfirst uf url Hex) as Hno.
    unfold ShouldExtractContent, GetURLType. rewrite Hno.
    repeat split; try done. by destruct (IsListPage uf url).
  - intros url ext Hext Hsuf.
    destruct (static_asset_excluded url ext Hext Hsuf) as [Hm Hlast].
    assert (IsArticlePage NewURLFilter url = false) as Hno.
    { apply Hfirst. eexists. split; [|exact Hm]. simpl. in_list. }
    split; [done|]. unfold GetURLType. rewrite Hno.
    destruct (IsListPage NewURLFilter url) eqn:Hl; [|done].
    by apply IsListPage_ends_with_slash in Hl.
Qed.

(** A URL under [/tags/] that has the shape of an article, and an image
    below an article. *)
Lemma exclusion_takes_precedence_witness :
  let url := "https://yamada-tech-memo.netlify.app/tags/posts/go-colly/" in
  MatchString "/posts/[^/]+/$" url = true
  ∧ IsArticlePage NewURLFilter url = false
  ∧ GetURLType NewURLFilter "https://yamada-tech-memo.netlify.app/posts/go-colly/photo.jpg" = "other".
Proof.
  split; [vm_compute; reflexivity|]. split.
  - apply (proj1 exclusion_takes_precedence NewURLFilter).
    exists "/tags/". split; [simpl; in_list|vm_compute; reflexivity].
  - apply (proj2 exclusion_takes_precedence _ "jpg").
    + unfold staticExtensions. in_list.
    + vm_compute. reflexivity.
Defined.

End URLFilterFacts.

(** ** Link discovery *)

Module ContainsFacts.
Import GoStrings StringFacts.

Lemma HasPrefix_split s p : HasPrefix s p = true ↔ ∃ rest, s = p +:+ rest.
Proof.
  unfold HasPrefix. revert s. induction p as [|c p IH]; intros s.
  - split; [intros _; by exists s|by destruct s].
  - destruct s as [|d s]; simpl.
    + split; [done|]. intros (rest & Hr). by rewrite append_cons in Hr.
    + destruct (ascii_dec c d) as [->|Hne].
      * rewrite IH. split; intros (rest & Hr); exists rest.
        -- by rewrite append_cons, Hr.
        -- rewrite append_cons in Hr. by simplify_eq.
      * split; [done|]. intros (rest & Hr). rewrite append_cons in Hr. by simplify_eq.
Qed.

Lemma Contains_nil sub : Contains "" sub = HasPrefix "" sub || false.
Proof. reflexivity. Qed.

Lemma Contains_cons c s sub :
  Contains (String c s) sub = HasPrefix (String c s) sub || Contains s sub.
Proof. reflexivity. Qed.

Lemma Contains_split s sub :
  Contains s sub = true ↔ ∃ front rest, s = front +:+ sub +:+ rest.
Proof.
  induction s as [|c s IH]; [rewrite Contains_nil|rewrite Contains_cons].
  - rewrite orb_false_r, HasPrefix_split. split.
    + intros (rest & Hr). by exists "", rest.
    + intros (front & rest & Hr). destruct front; [by exists rest|].
      by rewrite append_cons in Hr.
  - rewrite orb_true_iff, HasPrefix_split, IH. split.
    + intros [(rest & ->)|(front & rest & ->)]; [by exists "", rest|].
      by exists (String c front), rest.
    + intros (front & rest & Hr). destruct front as [|d front].
      * left. by exists rest.
      * right. rewrite append_cons in Hr. simplify_eq. by exists front, rest.
Qed.

Lemma Contains_trans s t u :
  Contains s t = true → Contains t u = true → Contains s u = true.
Proof.
  rewrite !Contains_split. intros (f1 & r1 & ->) (f2 & r2 & ->).
  exists (f1 +:+ f2), (r2 +:+ r1). by rewrite !append_assoc.
Qed.

End ContainsFacts.

Module ScraperFacts.
Import GoStrings StringFacts ContainsFacts Models Scraper.

Section WithExternals.
Context `{Externals}.

Lemma isPaginationLink_page u : isPaginationLink u = Contains u "/page/".
Proof.
  unfold isPaginationLink. destruct (Contains u "/page/") eqn:Hp; [done|].
  simpl. destruct (Contains u "/posts/page/") eqn:Hq; [|done].
  rewrite <- Hp. symmetry. by eapply Contains_trans.
Qed.

Lemma addLink_inv u st :
  linksInv st →
  let st' := if bool_decide (u ∈ st.2) then st else (st.1 ++ [u], {[u]} ∪ st.2) in
  linksInv st' ∧ ∀ v, v ∈ st'.1 ↔ v ∈ st.1 ∨ v = u.
Proof.
  intros [Hnd Hmap]. cbv zeta. case_bool_decide as Hu.
  - split; [done|]. intros v. split; [by left|]. intros [?| ->]; [done|by apply Hmap].
  - unfold linksInv. cbn [fst snd]. split; [split|].
    + apply NoDup_app. split; [done|]. split; [|apply NoDup_singleton].
      intros v Hv ->%list_elem_of_singleton. by apply Hu, Hmap.
    + intros v. rewrite elem_of_union, elem_of_singleton, elem_of_app,
        list_elem_of_singleton, Hmap. tauto.
    + intros v. by rewrite elem_of_app, list_elem_of_singleton.
Qed.

Lemma visitHref_inv base href st :
  linksInv st →
  linksInv (visitHref base href st)
  ∧ ∀ v, v ∈ (visitHref base href st).1
         ↔ v ∈ st.1 ∨ (href ≠ "" ∧ resolveURL base href = v ∧ isArticleLink v || isPaginationLink v = true).
Proof.
  intros Hinv. unfold visitHref. case_bool_decide as Hh.
  { split; [done|]. intros v. split; [by left|]. by intros [?|[? _]]. }
  set (u := resolveURL base href). case_bool_decide as Hu.
  { split; [done|]. intros v. split; [by left|]. intros [?|(_ & <- & Hacc)]; [done|].
    fold u in Hacc. by rewrite Hu in Hacc. }
  assert (∃ st1, st1 = (if isArticleLink u then
            if bool_decide (u ∈ st.2) then st else (st.1 ++ [u], {[u]} ∪ st.2)
          else st)
     ∧ linksInv st1
     ∧ ∀ v, v ∈ st1.1 ↔ v ∈ st.1 ∨ (v = u ∧ isArticleLink u = true))
    as (st1 & <- & Hinv1 & Hmem1).
  { eexists. split; [done|]. destruct (isArticleLink u).
    - destruct (addLink_inv u st Hinv) as [? Hm]. split; [done|].
      intros v. rewrite Hm. naive_solver.
    - split; [done|]. naive_solver. }
  destruct (isPaginationLink u) eqn:Hp.
  - destruct (addLink_inv u st1 Hinv1) as [? Hm]. split; [done|].
    intros v. rewrite Hm, Hmem1. split.
    + intros [[?|[-> Ha]]| ->]; [by left|right..]; by rewrite ?Ha, ?Hp, ?orb_true_r.
    + intros [?|(_ & <- & _)]; [by do 2 left|by right].
  - split; [done|]. intros v. rewrite Hmem1. split.
    + intros [?|[-> Ha]]; [by left|right]. by rewrite Ha.
    + intros [?|(_ & <- & Ha)]; [by left|right]. split; [done|].
      by rewrite Hp, orb_false_r in Ha.
Qed.

Lemma foldl_visitHref base hrefs : ∀ st,
  linksInv st →
  let st' := foldl (λ st href, visitHref base href st) st hrefs in
  linksInv st'
  ∧ ∀ v, v ∈ st'.1
         ↔ v ∈ st.1 ∨ ∃ href, href ∈ hrefs ∧ href ≠ ""
                              ∧ resolveURL base href = v ∧ isArticleLink v || isPaginationLink v = true.
Proof.
  induction hrefs as [|href hrefs IH]; intros st Hinv; simpl.
  - split; [done|]. intros v. split; [by left|]. intros [?|(? & ?%elem_of_nil & _)]; done.
  - destruct (visitHref_inv base href st Hinv) as [Hinv1 Hm1].
    destruct (IH _ Hinv1) as [Hinv2 Hm2]. split; [done|].
    intros v. rewrite Hm2, Hm1. split.
    + intros [[?|?]|(h & ? & ?)]; [by left|right..].
      * exists href. split; [left|done].
      * exists h. split; [by right|done].
    + intros [?|(h & [->|?]%elem_of_cons & ?)]; [by do 2 left| |].
      * left. by right.
      * right. by exists h.
Qed.

(** C8. The list that [ExtractLinks] returns has no repetition, and holds
    a URL exactly when the URL is the resolution of a non-empty reference
    of the page and either (a) holds [/posts/], ends in a slash, does not
    end in [/posts/] and does not hold [/page/], or (b) holds [/page/]. *)
Theorem ExtractLinks_accepts_exactly (e : HTMLElement) :
  NoDup (ExtractLinks e)
  ∧ ∀ u, u ∈ ExtractLinks e
         ↔ (∃ href, href ∈ Hrefs e ∧ href ≠ "" ∧ resolveURL (RequestURL e) href = u)
           ∧ (Contains u "/posts/" = true ∧ HasSuffix u "/" = true
              ∧ HasSuffix u "/posts/" = false ∧ Contains u "/page/" = false
              ∨ Contains u "/page/" = true).
Proof.
  unfold ExtractLinks.
  destruct (foldl_visitHref (RequestURL e) (Hrefs e) ([], ∅)) as [[Hnd _] Hm].
  { split; [constructor|]. intros u. simpl. set_solver. }
  split; [done|]. intros u. rewrite Hm. simpl.
  assert (isArticleLink u || isPaginationLink u = true ↔
    (Contains u "/posts/" = true ∧ HasSuffix u "/" = true
     ∧ HasSuffix u "/posts/" = false ∧ Contains u "/page/" = false
     ∨ Contains u "/page/" = true)) as Hacc.
  { rewrite isPaginationLink_page. unfold isArticleLink.
    rewrite orb_true_iff, !andb_true_iff, !negb_true_iff. tauto. }
  rewrite <- Hacc. split.
  - intros [?%elem_of_nil|(h & ? & ? & ? & ?)]; [done|]. split; [by exists h|done].
  - intros [(h & ? & ? & ?) ?]. right. by exists h.
Qed.

End WithExternals.
End ScraperFacts.

(** ** The visited set *)

Module VisitedFacts.
Import GoStrings Models Scraper.

Section WithExternals.
Context `{Externals}.

(** One call: what it does to the visited set and to the articles. *)
Lemma ExtractArticle_step now e s :
  let '(s', r) := ExtractArticle now e s in
  visitedURLs s' = {[RequestURL e]} ∪ visitedURLs s
  ∧ match r with
    | None => articles s' = articles s
    | Some a => articles s' = articles s ++ [a]
                ∧ URL a = RequestURL e ∧ RequestURL e ∉ visitedURLs s
    end.
Proof.
  unfold ExtractArticle. case_bool_decide as Hv.
  { split; [set_solver|done]. }
  repeat case_match; simplify_eq; cbn [visitedURLs articles URL]; done.
Qed.

Lemma ExtractArticle_visited now e s :
  RequestURL e ∈ visitedURLs s → ExtractArticle now e s = (s, None).
Proof. intros Hv. unfold ExtractArticle. by rewrite bool_decide_eq_true_2. Qed.

Lemma extractAll_app calls1 calls2 s :
  extractAll (calls1 ++ calls2) s
  = let '(s1, rs1) := extractAll calls1 s in
    let '(s2, rs2) := extractAll calls2 s1 in
    (s2, rs1 ++ rs2).
Proof.
  revert s. induction calls1 as [|[now e] calls1 IH]; intros s; simpl.
  - by destruct (extractAll calls2 s).
  - destruct (ExtractArticle now e s) as [s1 r]. rewrite IH.
    destruct (extractAll calls1 s1) as [s2 rs]. by destruct (extractAll calls2 s2).
Qed.

Lemma extractAll_visited calls : ∀ s,
  visitedURLs (extractAll calls s).1
  = list_to_set ((λ c, RequestURL c.2) <$> calls) ∪ visitedURLs s.
Proof.
  induction calls as [|[now e] calls IH]; intros s; simpl; [set_solver|].
  pose proof (ExtractArticle_step now e s) as Hstep.
  destruct (ExtractArticle now e s) as [s1 r]. destruct Hstep as [Hv _].
  specialize (IH s1). destruct (extractAll calls s1) as [s2 rs]. simpl in *.
  rewrite IH, Hv. set_solver.
Qed.

Lemma producedFor_cons url r rs :
  producedFor url (r :: rs)
  = match r with
    | Some a => if decide (URL a = url) then a :: producedFor url rs
                else producedFor url rs
    | None => producedFor url rs
    end.
Proof.
  unfold producedFor. destruct r as [a|]; simpl; [|done].
  rewrite filter_cons. by destruct (decide (URL a = url)).
Qed.

Lemma extractAll_produced url calls : ∀ s,
  length (producedFor url (extractAll calls s).2)
  ≤ (if bool_decide (url ∈ visitedURLs s) then 0 else 1).
Proof.
  induction calls as [|[now e] calls IH]; intros s; simpl.
  { unfold producedFor. simpl. case_bool_decide; lia. }
  pose proof (ExtractArticle_step now e s) as Hstep.
  destruct (ExtractArticle now e s) as [s1 r]. destruct Hstep as [Hv Hr].
  specialize (IH s1). destruct (extractAll calls s1) as [s2 rs]. simpl in *.
  rewrite producedFor_cons. rewrite Hv in IH.
  destruct r as [a|].
  - destruct Hr as (_ & Ha & Hnew). destruct (decide (URL a = url)) as [Hu|Hu].
    + rewrite bool_decide_eq_true_2 in IH by set_solver.
      rewrite bool_decide_eq_false_2 by congruence. simpl. lia.
    + repeat case_bool_decide; set_solver by lia.
  - repeat case_bool_decide; set_solver by lia.
Qed.

(** C9. Along any sequence of calls of [ExtractArticle] on one scraper the
    visited set only grows; once a call has been made for a URL, every
    later call for the same URL returns nil and leaves the scraper, and
    so its list of articles, as it was; and the calls of a sequence return
    at most one article for any URL. *)
Theorem visited_set_invariant
    (before between : list (Time * HTMLElement))
    (now1 now2 : Time) (e1 e2 : HTMLElement) (s : Scraper)
    (Hsame : RequestURL e1 = RequestURL e2) :
  let s1 := (extractAll before s).1 in
  let s2 := (extractAll (before ++ (now1, e1) :: between) s).1 in
  visitedURLs s ⊆ visitedURLs s1
  ∧ visitedURLs s1 ⊆ visitedURLs s2
  ∧ RequestURL e1 ∈ visitedURLs s2
  ∧ ExtractArticle now2 e2 s2 = (s2, None)
  ∧ ∀ calls url,
      length (producedFor url (extractAll calls s).2) ≤ 1.
Proof.
  intros s1 s2. subst s1 s2. rewrite !extractAll_visited.
  rewrite fmap_app, fmap_cons. cbn [snd].
  split; [set_solver|]. split; [set_solver|]. split; [set_solver|]. split.
  - apply ExtractArticle_visited. rewrite extractAll_visited, <- Hsame.
    rewrite fmap_app, fmap_cons. set_solver.
  - intros calls url. etrans; [apply extractAll_produced|]. case_bool_decide; lia.
Qed.

End WithExternals.

(** The article page visited twice: an article, then nil. *)
Lemma visited_set_invariant_witness :
  let s := Scraper.NewScraper Samples.config in
  let first := @ExtractArticle Samples.externals 1%Z Samples.articlePage s in
  let second := @ExtractArticle Samples.externals 2%Z Samples.articlePage first.1 in
  is_Some first.2 ∧ second = (first.1, None).
Proof.
  split; [vm_compute; eauto|].
  exact (proj1 (proj2 (proj2 (proj2
    (@visited_set_invariant Samples.externals [] [] 1%Z 2%Z
       Samples.articlePage Samples.articlePage
       (Scraper.NewScraper Samples.config) eq_refl))))).
Defined.

End VisitedFacts.

(** ** The buffered writer *)

Module BufioFacts.
Import GoStrings StringFacts Bufio.

Lemma length_zero s : String.length s = 0 → s = "".
Proof. by destruct s. Qed.

Lemma drop_whole s : drop (String.length s) s = "".
Proof. induction s as [|c s IH]; [done|]. simpl. exact IH. Qed.

(** Without a limit on the file, a write appends its argument. *)
Lemma fileWrite_unlimited f p :
  room f = None →
  fileWrite f p = ({| data := data f +:+ p; room := None |}, String.length p, true).
Proof. unfold fileWrite. by intros ->. Qed.

Lemma Flush_unlimited b f :
  failed b = false → room f = None →
  ∃ f', Flush b f = ({| buf := ""; failed := false |}, f', true)
        ∧ room f' = None ∧ data f' = data f +:+ buf b.
Proof.
  intros Hb Hf. unfold Flush. rewrite Hb.
  destruct (Buffered b =? 0) eqn:Hn.
  - apply Nat.eqb_eq, length_zero in Hn. destruct b as [bb bf]. simpl in *. subst.
    exists f. by rewrite append_nil_r.
  - rewrite fileWrite_unlimited by done. by eexists.
Qed.

Lemma writeLoop_unlimited fuel : ∀ b f p,
  failed b = false → room f = None →
  ∃ b' f' p', writeLoop fuel b f p = (b', f', p')
    ∧ failed b' = false ∧ room f' = None
    ∧ data f' +:+ buf b' +:+ p' = data f +:+ buf b +:+ p.
Proof.
  induction fuel as [|fuel IH]; intros b f p Hb Hf; simpl.
  { by exists b, f, p. }
  destruct ((Available b <? String.length p) && negb (failed b)); [|by exists b, f, p].
  destruct (Buffered b =? 0) eqn:Hn.
  - apply Nat.eqb_eq, length_zero in Hn.
    rewrite fileWrite_unlimited by done. simpl.
    destruct (IH {| buf := buf b; failed := false |}
                 {| data := data f +:+ p; room := None |}
                 (drop (String.length p) p)) as (b' & f' & p' & -> & ? & ? & Hd); [done..|].
    exists b', f', p'. split; [done|]. split; [done|]. split; [done|].
    rewrite Hd. simpl. by rewrite drop_whole, Hn, !append_nil_r.
  - destruct (Flush_unlimited {| buf := buf b +:+ take (Available b) p; failed := failed b |} f)
      as (f1 & -> & Hf1 & Hd1); [done..|].
    destruct (IH {| buf := ""; failed := false |} f1 (drop (Available b) p))
      as (b' & f' & p' & -> & ? & ? & Hd); [done..|].
    exists b', f', p'. split; [done|]. split; [done|]. split; [done|].
    rewrite Hd, Hd1. simpl. by rewrite !append_assoc, take_append_drop.
Qed.

Lemma Write_unlimited b f p :
  failed b = false → room f = None →
  ∃ b' f', Write b f p = (b', f', true)
    ∧ failed b' = false ∧ room f' = None
    ∧ data f' +:+ buf b' = data f +:+ buf b +:+ p.
Proof.
  intros Hb Hf. unfold Write.
  destruct (writeLoop_unlimited (String.length p + 2) b f p Hb Hf)
    as (b' & f' & p' & -> & Hb' & Hf' & Hd).
  rewrite Hb'. eexists _, f'. split; [done|]. split; [done|]. split; [done|].
  simpl. by rewrite <- Hd.
Qed.

End BufioFacts.

(** ** Saving *)

Module StorageFacts.
Import GoStrings StringFacts BufioFacts Models Storage.

Lemma hashesOf_nil : hashesOf [] = ∅.
Proof. done. Qed.

Lemma hashesOf_cons a l : hashesOf (a :: l) = {[ContentHash a]} ∪ hashesOf l.
Proof. done. Qed.

Lemma hashesOf_app l1 l2 : hashesOf (l1 ++ l2) = hashesOf l1 ∪ hashesOf l2.
Proof. unfold hashesOf. rewrite fmap_app. set_solver. Qed.

Lemma firstByHash_app l1 : ∀ seen l2,
  firstByHash seen (l1 ++ l2)
  = firstByHash seen l1 ++ firstByHash (hashesOf l1 ∪ seen) l2.
Proof.
  induction l1 as [|a l1 IH]; intros seen l2; simpl.
  - f_equal. set_solver.
  - rewrite hashesOf_cons. case_bool_decide as Ha.
    + rewrite IH. do 2 f_equal. set_solver.
    + rewrite IH. simpl. do 3 f_equal. set_solver.
Qed.

Lemma firstByHash_fresh seen l a :
  a ∈ firstByHash seen l → ContentHash a ∉ seen.
Proof.
  revert seen. induction l as [|b l IH]; intros seen; simpl; [by intros ?%elem_of_nil|].
  case_bool_decide as Hb; [apply IH|].
  intros [->|Ha%IH]%elem_of_cons; [done|set_solver].
Qed.


Lemma cleanupOldBackups_outFile env cfg fs :
  outFile (cleanupOldBackups env cfg fs).1 = outFile fs.
Proof. unfold cleanupOldBackups. by repeat case_match. Qed.

Lemma createBackup_outFile env cfg fs :
  outFile (createBackup env cfg fs).1 = outFile fs.
Proof.
  unfold createBackup. repeat case_match; try done.
  simpl. by rewrite cleanupOldBackups_outFile.
Qed.

Lemma backupIfEnabled_outFile env j fs :
  outFile (backupIfEnabled env j fs) = outFile fs.
Proof. unfold backupIfEnabled. case_match; [apply createBackup_outFile|done]. Qed.

Section WithJSON.
Context `{JSON}.

Lemma encodeLines_app l1 l2 :
  encodeLines (l1 ++ l2) = encodeLines l1 +:+ encodeLines l2.
Proof.
  induction l1 as [|a l1 IH]; [done|]. simpl. by rewrite IH, !append_assoc.
Qed.

Lemma Save_duplicate env article j fs :
  ContentHash article ∈ existingHashes j →
  Save env article (j, fs) = ((j, fs), None).
Proof. intros Hin. unfold Save. by rewrite bool_decide_eq_true_2. Qed.

Lemma Save_new env article line j fs :
  ContentHash article ∉ existingHashes j → writable env →
  json_Marshal article = Some line →
  Save env article (j, fs)
  = ((withHashes j ({[ContentHash article]} ∪ existingHashes j),
      withOutFile (backupIfEnabled env j fs) (content fs +:+ line +:+ newline)),
     None).
Proof.
  intros Hnew [Hopen Hquota] Hline. unfold Save.
  rewrite bool_decide_eq_false_2 by done.
  unfold openAppend. rewrite Hopen, Hline, Hquota.
  rewrite !fileWrite_unlimited by done. simpl.
  unfold content. by rewrite backupIfEnabled_outFile, append_assoc.
Qed.

(** A call of [Save] that returns nil for a new fingerprint has opened
    the file, encoded the article and written the record and its line
    feed, whatever the surroundings. *)
Lemma Save_new_nil env article j fs :
  ContentHash article ∉ existingHashes j →
  (Save env article (j, fs)).2 = None →
  ∃ line, json_Marshal article = Some line
    ∧ Save env article (j, fs)
      = ((withHashes j ({[ContentHash article]} ∪ existingHashes j),
          withOutFile (backupIfEnabled env j fs) (content fs +:+ line +:+ newline)),
         None).
Proof.
  intros Hnew. unfold Save, openAppend, Bufio.fileWrite.
  rewrite bool_decide_eq_false_2 by done.
  destruct (openFails env); simpl; [done|].
  destruct (json_Marshal article) as [line|]; simpl; [|done].
  unfold content. rewrite backupIfEnabled_outFile.
  destruct (quota env) as [r|]; simpl.
  - destruct (String.length line <=? r) eqn:Hfit; simpl; [|done].
    destruct (r - String.length line) as [|rest]; simpl; [done|].
    intros _. exists line. by rewrite append_assoc.
  - intros _. exists line. by rewrite append_assoc.
Qed.


(** What the loop of [SaveBatch] keeps true while nothing fails. *)
Lemma batchStep_unlimited b article :
  Bufio.failed (writer b) = false → Bufio.room (file b) = None →
  is_Some (json_Marshal article) →
  let b' := batchStep b article in
  Bufio.failed (writer b') = false ∧ Bufio.room (file b') = None
  ∧ hashes b' = {[ContentHash article]} ∪ hashes b
  ∧ Bufio.data (file b') +:+ Bufio.buf (writer b')
    = (Bufio.data (file b) +:+ Bufio.buf (writer b))
      +:+ encodeLines (firstByHash (hashes b) [article]).
Proof.
  intros Hw Hf [line Hline]. unfold batchStep. simpl.
  case_bool_decide as Hdup; simpl.
  { split; [done|]. split; [done|]. split; [set_solver|]. by rewrite append_nil_r. }
  rewrite Hline.
  destruct (Write_unlimited (writer b) (file b) line Hw Hf)
    as (w1 & f1 & -> & Hw1 & Hf1 & Hd1). simpl.
  destruct (Write_unlimited w1 f1 newline Hw1 Hf1)
    as (w2 & f2 & -> & Hw2 & Hf2 & Hd2). simpl.
  split; [done|]. split; [done|]. split; [done|].
  rewrite Hd2, <- append_assoc, Hd1. by rewrite !append_assoc, append_nil_r.
Qed.

Lemma batchLoop_unlimited articles : ∀ b,
  Bufio.failed (writer b) = false → Bufio.room (file b) = None →
  Forall (λ a, is_Some (json_Marshal a)) articles →
  let b' := foldl batchStep b articles in
  Bufio.failed (writer b') = false ∧ Bufio.room (file b') = None
  ∧ hashes b' = hashesOf articles ∪ hashes b
  ∧ Bufio.data (file b') +:+ Bufio.buf (writer b')
    = (Bufio.data (file b) +:+ Bufio.buf (writer b))
      +:+ encodeLines (firstByHash (hashes b) articles).
Proof.
  induction articles as [|a articles IH]; intros b Hw Hf Henc; cbn [foldl].
  { split; [done|]. split; [done|]. split; [set_solver|]. simpl. by rewrite append_nil_r. }
  rewrite hashesOf_cons. apply Forall_cons in Henc as [Ha Henc].
  destruct (batchStep_unlimited b a Hw Hf Ha) as (Hw1 & Hf1 & Hh1 & Hd1).
  destruct (IH _ Hw1 Hf1 Henc) as (Hw2 & Hf2 & Hh2 & Hd2).
  split; [done|]. split; [done|]. split; [rewrite Hh2, Hh1; set_solver|].
  rewrite Hd2, Hd1, Hh1, append_assoc. f_equal.
  change (a :: articles) with ([a] ++ articles).
  rewrite (firstByHash_app [a]), encodeLines_app. do 3 f_equal.
  rewrite hashesOf_cons, hashesOf_nil. set_solver.
Qed.

Lemma SaveBatch_unlimited env articles j fs :
  writable env → Forall (λ a, is_Some (json_Marshal a)) articles →
  ∃ j' fs', SaveBatch env articles (j, fs) = ((j', fs'), None)
    ∧ config j' = config j
    ∧ existingHashes j' = hashesOf articles ∪ existingHashes j
    ∧ content fs'
      = content fs +:+ encodeLines (firstByHash (existingHashes j) articles)
    ∧ (outFile fs' = None → articles = []).
Proof.
  intros [Hopen Hquota] Henc. unfold SaveBatch.
  destruct articles as [|a articles].
  { exists j, fs. split; [done|]. split; [done|]. split; [set_solver|].
    simpl. by rewrite append_nil_r. }
  unfold openAppend. rewrite Hopen.
  set (b0 := {| hashes := existingHashes j; writer := Bufio.NewWriter;
                file := {| Bufio.data := default "" (outFile (backupIfEnabled env j fs));
                           Bufio.room := quota env |};
                savedCount := 0; skippedCount := 0 |}).
  destruct (batchLoop_unlimited (a :: articles) b0) as (Hw & Hf & Hh & Hd);
    [done|exact Hquota|exact Henc|].
  destruct (Flush_unlimited _ _ Hw Hf) as (f' & -> & _ & Hd').
  eexists _, _. split; [done|]. split; [done|]. split; [exact Hh|].
  split; [|done]. unfold content at 1. cbn [outFile withOutFile default].
  rewrite Hd', Hd. cbn [b0 file writer hashes Bufio.data Bufio.buf Bufio.NewWriter].
  unfold content. by rewrite backupIfEnabled_outFile, append_nil_r.
Qed.

(** One call that meets no failure. *)
Lemma runCall_unlimited env c j fs :
  writable env → Forall (λ a, is_Some (json_Marshal a)) (callArticles c) →
  ∃ j' fs', runCall env c (j, fs) = ((j', fs'), None)
    ∧ config j' = config j
    ∧ existingHashes j' = hashesOf (callArticles c) ∪ existingHashes j
    ∧ content fs'
      = content fs +:+ encodeLines (firstByHash (existingHashes j) (callArticles c))
    ∧ (outFile fs' = None → firstByHash (existingHashes j) (callArticles c) = []).
Proof.
  intros Hw Henc. destruct c as [a|articles]; cbn [runCall callArticles] in *.
  - apply Forall_singleton in Henc as [line Hline].
    destruct (decide (ContentHash a ∈ existingHashes j)) as [Hdup|Hnew].
    + rewrite Save_duplicate by done. exists j, fs.
      cbn [firstByHash]. rewrite bool_decide_eq_true_2 by done.
      rewrite hashesOf_cons, hashesOf_nil.
      split; [done|]. split; [done|]. split; [set_solver|]. simpl.
      by rewrite append_nil_r.
    + rewrite (Save_new _ _ line) by done. eexists _, _.
      cbn [firstByHash]. rewrite bool_decide_eq_false_2 by done.
      rewrite hashesOf_cons, hashesOf_nil.
      split; [done|]. split; [done|]. split; [set_solver|]. split; [|done].
      unfold content at 1. simpl. by rewrite Hline, append_nil_r.
  - destruct (SaveBatch_unlimited env articles j fs Hw Henc)
      as (j' & fs' & -> & ? & ? & ? & Hnone).
    exists j', fs'. repeat (split; [done|]). by intros ->%Hnone.
Qed.

Lemma offered_cons env c calls :
  offered ((env, c) :: calls) = callArticles c ++ offered calls.
Proof. done. Qed.

(** A sequence of calls that meets no failure. *)
Lemma runCalls_unlimited calls : ∀ j fs,
  Forall (λ c, writable c.1) calls →
  Forall (λ a, is_Some (json_Marshal a)) (offered calls) →
  ∃ j' fs' results, runCalls calls (j, fs) = ((j', fs'), results)
    ∧ Forall (λ r, r = None) results
    ∧ config j' = config j
    ∧ existingHashes j' = hashesOf (offered calls) ∪ existingHashes j
    ∧ content fs'
      = content fs +:+ encodeLines (firstByHash (existingHashes j) (offered calls))
    ∧ (outFile fs' = None → firstByHash (existingHashes j) (offered calls) = []).
Proof.
  induction calls as [|[env c] calls IH]; intros j fs Hw Henc.
  { exists j, fs, []. simpl. split; [done|]. split; [done|]. split; [done|].
    split; [set_solver|]. by rewrite append_nil_r. }
  apply Forall_cons in Hw as [Hw Hws]. rewrite offered_cons in *.
  apply Forall_app in Henc as [Henc Hencs].
  destruct (runCall_unlimited env c j fs Hw Henc)
    as (j1 & fs1 & Hrun1 & Hc1 & Hh1 & Hd1 & Hn1).
  destruct (IH j1 fs1 Hws Hencs) as (j2 & fs2 & rs & Hrun2 & Hrs & Hc2 & Hh2 & Hd2 & Hn2).
  exists j2, fs2, (None :: rs). simpl. rewrite Hrun1, Hrun2.
  split; [done|]. split; [by constructor|]. split; [congruence|].
  split; [rewrite Hh2, Hh1, hashesOf_app; set_solver|].
  rewrite firstByHash_app, encodeLines_app, <- Hh1.
  split; [by rewrite Hd2, Hd1, append_assoc|].
  intros Hnone. rewrite (Hn2 Hnone), app_nil_r.
  destruct (outFile fs1) eqn:Hfs1; [|by apply Hn1].
  assert (content fs2 = "") as Hempty by (unfold content; by rewrite Hnone).
  rewrite Hd2, (Hn2 Hnone), append_nil_r, Hd1 in Hempty.
  destruct (firstByHash (existingHashes j) (callArticles c)) as [|a l]; [done|].
  exfalso. apply (f_equal String.length) in Hempty.
  simpl in Hempty. rewrite !length_append in Hempty. simpl in Hempty. lia.
Qed.

(** [SaveBatch] over a file that takes no byte: the record stays in the
    buffer of the writer, the error of the deferred [Flush] is dropped,
    and the call returns nil with the fingerprint in the index and
    nothing written. *)
Lemma SaveBatch_full_disk env article line j fs :
  openFails env = false → quota env = Some 0 →
  ContentHash article ∉ existingHashes j →
  json_Marshal article = Some line →
  String.length line < Bufio.defaultBufSize →
  SaveBatch env [article] (j, fs)
  = ((withHashes j ({[ContentHash article]} ∪ existingHashes j),
      withOutFile (backupIfEnabled env j fs) (content fs)), None).
Proof.
  intros Hopen Hquota Hnew Hline Hlen.
  assert (∀ w f p, Bufio.failed w = false →
            String.length (Bufio.buf w) + String.length p ≤ Bufio.defaultBufSize →
            Bufio.Write w f p
            = ({| Bufio.buf := Bufio.buf w +:+ p; Bufio.failed := false |}, f, true))
    as Hbuffered.
  { intros w f p Hw Hfit. unfold Bufio.Write.
    replace (String.length p + 2) with (S (String.length p + 1)) by lia.
    cbn [Bufio.writeLoop]. unfold Bufio.Available, Bufio.Buffered.
    rewrite (proj2 (Nat.ltb_ge _ _)) by lia. cbn [andb]. by rewrite Hw. }
  assert (String.length newline = 1) as Hlf by done.
  unfold SaveBatch, openAppend. rewrite Hopen, Hquota.
  set (opened := {| Bufio.data := default "" (outFile (backupIfEnabled env j fs));
                    Bufio.room := Some 0 |}).
  set (b0 := {| hashes := existingHashes j; writer := Bufio.NewWriter;
                file := opened; savedCount := 0; skippedCount := 0 |}).
  assert (foldl batchStep b0 [article]
          = {| hashes := {[ContentHash article]} ∪ existingHashes j;
               writer := {| Bufio.buf := line +:+ newline; Bufio.failed := false |};
               file := opened; savedCount := 1; skippedCount := 0 |}) as ->.
  { cbn [foldl]. unfold batchStep. cbn [b0 hashes writer file savedCount skippedCount].
    rewrite bool_decide_eq_false_2 by done. rewrite Hline.
    rewrite Hbuffered by (cbn [Bufio.NewWriter Bufio.buf Bufio.failed String.length]; done || lia).
    cbn [negb Bufio.NewWriter Bufio.buf]. rewrite append_nil_l.
    rewrite Hbuffered by (cbn [Bufio.buf Bufio.failed]; done || lia).
    done. }
  cbn [hashes writer file]. unfold Bufio.Flush, Bufio.Buffered, Bufio.fileWrite.
  cbn [Bufio.failed Bufio.buf opened Bufio.room Bufio.data].
  destruct (String.length (line +:+ newline) =? 0) eqn:Hzero.
  { apply Nat.eqb_eq in Hzero. rewrite length_append in Hzero. lia. }
  rewrite (proj2 (Nat.leb_gt _ _)) by (rewrite length_append; lia).
  cbn [Bufio.data take]. unfold content.
  by rewrite append_nil_r, backupIfEnabled_outFile.
Qed.

Lemma offered_saves calls : offered (saves calls) = calls.*2.
Proof.
  induction calls as [|[env a] calls IH]; [done|].
  change (saves ((env, a) :: calls)) with ((env, CallSave a) :: saves calls).
  rewrite offered_cons, IH. done.
Qed.



End WithJSON.
End StorageFacts.

(** ** Loading *)

Module ScannerFacts.
Import GoStrings StringFacts Bufio.

Lemma rawLines_line line rest :
  hasByte LF line = false →
  rawLines (line +:+ String LF rest) = line :: rawLines rest.
Proof.
  induction line as [|c line IH]; intros Hlf.
  - reflexivity.
  - simpl in Hlf. apply orb_false_elim in Hlf as [Hc Hline].
    rewrite append_cons. simpl. rewrite Hc, (IH Hline). done.
Qed.

(** Whatever the file held, a record appended to it ends the last line. *)
Lemma rawLines_last content line :
  hasByte LF line = false →
  ∃ firsts front, rawLines (content +:+ line +:+ String LF "")
                  = firsts ++ [front +:+ line].
Proof.
  intros Hlf. induction content as [|c content (firsts & front & IH)].
  - exists [], "". rewrite append_nil_l. by rewrite rawLines_line.
  - rewrite append_cons. simpl. rewrite IH. destruct (Ascii.eqb c LF).
    + by exists ("" :: firsts), front.
    + destruct firsts as [|l firsts]; simpl.
      * by exists [], (String c front).
      * by exists (String c l :: firsts), front.
Qed.

Lemma scanTokens_tooLong lines line :
  line ∈ lines → MaxScanTokenSize ≤ String.length line →
  (scanTokens lines).2 = true.
Proof.
  intros Hin Hlong. induction lines as [|l lines IH]; [by apply elem_of_nil in Hin|].
  cbn [scanTokens]. destruct (MaxScanTokenSize <=? String.length l) eqn:Hl; [done|].
  apply elem_of_cons in Hin as [->|Hin].
  - apply Nat.leb_gt in Hl. lia.
  - specialize (IH Hin). by destruct (scanTokens lines).
Qed.

Lemma scanTokens_short lines :
  Forall (λ line, String.length line < MaxScanTokenSize) lines →
  scanTokens lines = (dropCR <$> lines, false).
Proof.
  induction 1 as [|l lines Hl _ IH]; [done|]. cbn [scanTokens].
  apply Nat.leb_gt in Hl. by rewrite Hl, IH.
Qed.

End ScannerFacts.

Module StorageTheorems.
Import GoStrings StringFacts Bufio BufioFacts ScannerFacts Models Storage StorageFacts.

Lemma firstByHash_offered seen l a : a ∈ firstByHash seen l → a ∈ l.
Proof.
  revert seen. induction l as [|b l IH]; intros seen; simpl; [done|].
  case_bool_decide.
  - intros Ha%IH. by right.
  - intros [->|Ha%IH]%elem_of_cons; [left|by right].
Qed.

Section WithJSON.
Context `{JSON}.

(** C10. When the output file does not exist, [Load] returns the empty
    list and no error; a store that [NewJSONLStorage] builds over it has
    an empty index, and [Exists] answers false for every fingerprint. *)
Theorem Load_missing_file (env : IOEnv) (fs : FS) (Hmissing : outFile fs = None) :
  Load env fs = Ok []
  ∧ ∀ cfg j, NewJSONLStorage env cfg fs = Ok j →
      existingHashes j = ∅
      ∧ ∀ contentHash, Exists j contentHash = (false, None).
Proof.
  assert (Load env fs = Ok []) as Hload by (unfold Load; by rewrite Hmissing).
  split; [done|]. intros cfg j. unfold NewJSONLStorage, loadExistingHashes.
  rewrite Hload. repeat case_match; try done. intros [= <-]. simpl.
  split; [done|]. intros h. unfold Exists. simpl.
  by rewrite bool_decide_eq_false_2 by set_solver.
Qed.

Lemma scanLines_encodeLines articles :
  Forall wellEncoded articles → Forall shortRecord articles →
  let '(tokens, tooLong) := Bufio.scanLines (encodeLines articles) in
  tooLong = false ∧ omap decodeLine tokens = articles.
Proof.
  intros Hwell Hshort.
  assert (∃ lines, rawLines (encodeLines articles) = lines
            ∧ Forall (λ l, String.length l < MaxScanTokenSize) lines
            ∧ omap decodeLine (dropCR <$> lines) = articles)
    as (lines & Hraw & Hlen & Hdec).
  { induction Hwell as [|a articles (line & Hline & Hlf & Hback) _ IH].
    { by exists []. }
    apply Forall_cons in Hshort as [(line' & Hline' & Hlen) Hshort].
    destruct (IH Hshort) as (lines & Hraw & Hlens & Hdec).
    exists (line :: lines). cbn [encodeLines]. rewrite Hline. cbn [default].
    unfold newline. rewrite append_cons, append_nil_l, rawLines_line, Hraw by done.
    split; [done|]. split; [constructor; [congruence|done]|].
    rewrite fmap_cons. cbn [omap list_omap]. rewrite Hback. f_equal. exact Hdec. }
  unfold scanLines. rewrite Hraw, scanTokens_short by done. done.
Qed.

(** Loading gives back what a sequence of calls persisted, when every
    record is shorter than the buffer of the scanner. *)
Lemma Load_after_calls calls env j fs :
  content fs = "" → existingHashes j = ∅ →
  Forall (λ c, writable c.1) calls →
  Forall wellEncoded (offered calls) → Forall shortRecord (offered calls) →
  openFails env = false → readFails env = false →
  ∃ st results, runCalls calls (j, fs) = (st, results)
    ∧ Load env st.2 = Ok (firstByHash ∅ (offered calls)).
Proof.
  intros Hempty Hidx Hw Hwell Hshort Hopen Hread.
  destruct (runCalls_unlimited calls j fs Hw)
    as (j' & fs' & rs & Hrun & _ & _ & _ & Hd & Hnone).
  { eapply Forall_impl; [exact Hwell|]. intros a (line & -> & _). by eexists. }
  exists (j', fs'), rs. split; [done|]. rewrite Hidx in *. simpl.
  unfold Load. destruct (outFile fs') as [c|] eqn:Hout; [|by rewrite Hnone].
  rewrite Hopen, Hread. unfold content in Hd at 1. rewrite Hout in Hd. simpl in Hd.
  rewrite Hd, Hempty, append_nil_l.
  set (persisted := firstByHash ∅ (offered calls)).
  assert (Forall wellEncoded persisted ∧ Forall shortRecord persisted) as [Hw' Hs'].
  { split; apply Forall_forall; intros a Ha%firstByHash_offered.
    - by apply (proj1 (Forall_forall _ _) Hwell).
    - by apply (proj1 (Forall_forall _ _) Hshort). }
  pose proof (scanLines_encodeLines persisted Hw' Hs') as Hscan.
  destruct (scanLines (encodeLines persisted)) as [tokens tooLong].
  destruct Hscan as [-> ->]. done.
Qed.


(** C2. A new article whose record has [MaxScanTokenSize] bytes or more is
    saved without error, its record is appended to the file, and from
    then on [Load] fails instead of returning the persisted articles; a
    store built over the file afterwards starts with an empty index. *)
Theorem Load_fails_after_long_record
    (env env' : IOEnv) (article : Article) (line : string)
    (j : JSONLStorage) (fs : FS)
    (Hwritable : writable env)
    (Hnew : ContentHash article ∉ existingHashes j)
    (Hline : json_Marshal article = Some line)
    (Honeline : hasByte Bufio.LF line = false)
    (Hlong : Bufio.MaxScanTokenSize ≤ String.length line) :
  ∃ j' fs',
    Save env article (j, fs) = ((j', fs'), None)
    ∧ content fs' = content fs +:+ line +:+ newline
    ∧ (∃ e, Load env' fs' = Fail e)
    ∧ ∀ cfg j2, NewJSONLStorage env' cfg fs' = Ok j2 → existingHashes j2 = ∅.
Proof.
  rewrite (Save_new env article line) by done. eexists _, _. split; [done|].
  split; [done|].
  assert (∃ e, Load env' (withOutFile (backupIfEnabled env j fs)
                            (content fs +:+ line +:+ newline)) = Fail e) as [e He].
  { unfold Load. simpl. destruct (openFails env'); [by eexists|].
    destruct (rawLines_last (content fs) line Honeline) as (firsts & front & Hraw).
    pose proof (scanTokens_tooLong (firsts ++ [front +:+ line]) (front +:+ line)) as Hscan.
    unfold scanLines, newline. rewrite Hraw.
    destruct (scanTokens _) as [tokens tooLong]. simpl in Hscan.
    rewrite Hscan; [by eexists| |].
    - apply elem_of_app. right. by apply list_elem_of_singleton.
    - rewrite length_append. lia. }
  split; [by exists e|]. intros cfg j2.
  unfold NewJSONLStorage, loadExistingHashes. rewrite He.
  repeat case_match; try done. by intros [= <-].
Qed.

End WithJSON.
End StorageTheorems.

(** ** Backup rotation *)

Module BackupFacts.
Import GoStrings StringFacts ContainsFacts Models Storage StorageFacts.

Lemma older_trans a b c : older a b → older b c → older a c.
Proof.
  intros [Hab Hne] [Hbc Hne']. split; [by etrans|].
  intros ->. apply Hne. by apply (anti_symm String.le).
Qed.

(** Retention of what retention left, to which more was added, is
    retention of everything. *)
Lemma keepsNewest_step n all kept more kept' :
  keepsNewest n all kept → keepsNewest n (kept ∪ more) kept' →
  keepsNewest n (all ∪ more) kept'.
Proof.
  intros (Hsub & Hsize & Hord) (Hsub' & Hsize' & Hord').
  destruct (decide (size all ≤ n)) as [Hfew|Hmany].
  { assert (kept = all) as ->; [|done].
    apply set_subseteq_size_eq; [done|lia]. }
  assert (size kept = n) as Hn by lia.
  assert (size kept ≤ size (kept ∪ more)) by (apply subseteq_size; set_solver).
  assert (size all ≤ size (all ∪ more)) by (apply subseteq_size; set_solver).
  assert (size kept' = n) as Hn' by lia.
  split; [set_solver|]. split; [lia|].
  intros d y Hd Hnd Hy.
  destruct (decide (d ∈ kept ∪ more)) as [?|Hout]; [by apply Hord'|].
  assert (d ∈ all ∧ d ∉ kept) as [Hdall Hdk] by set_solver.
  destruct (decide (y ∈ kept)) as [?|Hynew]; [by apply Hord|].
  assert (∃ m, m ∈ kept ∧ m ∉ kept') as (m & Hm & Hm').
  { destruct (set_choose_or_empty (kept ∖ kept')) as [(m & Hm)|Hempty].
    - exists m. set_solver.
    - assert (kept = kept') as ->; [|done].
      apply set_subseteq_size_eq; [set_solver|lia]. }
  apply (older_trans _ m); [by apply Hord|]. apply Hord'; [set_solver|done..].
Qed.

Lemma elem_of_backupFiles fs name :
  name ∈ backupFiles fs ↔ name ∈ dom (backupDir fs) ∧ matchBackupName name = true.
Proof.
  unfold backupFiles, globBackups.
  rewrite elem_of_list_to_set, list_elem_of_filter, elem_of_elements.
  rewrite Is_true_true. tauto.
Qed.

Lemma NoDup_globBackups fs : NoDup (globBackups fs).
Proof. apply NoDup_filter, NoDup_elements. Qed.

Lemma size_backupFiles fs : size (backupFiles fs) = length (globBackups fs).
Proof. apply size_list_to_set, NoDup_globBackups. Qed.

Lemma matchBackupName_created timestamp :
  matchBackupName (backupFileName timestamp) = true.
Proof.
  unfold matchBackupName, backupFileName. rewrite !andb_true_iff. repeat split.
  - apply Nat.leb_le. rewrite !length_append. simpl. lia.
  - apply HasPrefix_split. by eexists.
  - rewrite <- append_assoc. apply HasSuffix_app.
Qed.

Lemma removeFiles_dom env files : ∀ dir,
  (∀ file, removeFails env file = false) →
  dom (removeFiles env files dir) = dom dir ∖ list_to_set files.
Proof.
  induction files as [|f files IH]; intros dir Hok; simpl; [set_solver|].
  rewrite Hok, IH, dom_delete_L by done. set_solver.
Qed.

(** Pruning keeps the newest files. *)
Lemma cleanupOldBackups_keepsNewest env cfg fs :
  rotates env →
  keepsNewest (MaxBackupFiles cfg) (backupFiles fs)
    (backupFiles (cleanupOldBackups env cfg fs).1).
Proof.
  intros (_ & Hglob & Hremove). unfold cleanupOldBackups. rewrite Hglob.
  destruct (length (globBackups fs) <=? MaxBackupFiles cfg) eqn:Hlen; simpl.
  { apply Nat.leb_le in Hlen. rewrite <- size_backupFiles in Hlen.
    split; [done|]. split; [lia|]. by intros d y ? ?. }
  apply Nat.leb_gt in Hlen.
  set (sorted := merge_sort String.le (globBackups fs)) in *.
  assert (sorted ≡ₚ globBackups fs) as Hperm by apply merge_sort_Permutation.
  assert (StronglySorted String.le sorted) as Hsorted
    by apply (StronglySorted_merge_sort _).
  assert (NoDup sorted) as Hnd by (rewrite Hperm; apply NoDup_globBackups).
  assert (length sorted = length (globBackups fs)) as Hlength by by rewrite Hperm.
  set (k := length sorted - MaxBackupFiles cfg) in *.
  rewrite <- (take_drop k sorted) in Hsorted, Hnd.
  apply NoDup_app in Hnd as (_ & Hdisj & Hnd).
  assert (∀ name, name ∈ backupFiles fs
                  ↔ name ∈ list.take k sorted ∨ name ∈ list.drop k sorted) as Hall.
  { intros name. rewrite <- elem_of_app, take_drop, Hperm.
    unfold backupFiles. by rewrite elem_of_list_to_set. }
  assert (∀ name, name ∈ backupFiles
              (withBackupDir fs (removeFiles env (list.take k sorted) (backupDir fs)))
            ↔ name ∈ list.drop k sorted) as Hkept.
  { intros name. rewrite elem_of_backupFiles. simpl.
    rewrite removeFiles_dom, elem_of_difference, elem_of_list_to_set by done.
    pose proof (Hall name) as Hn. rewrite elem_of_backupFiles in Hn.
    split.
    - intros [[Hd Hnot] Hm]. destruct (proj1 Hn (conj Hd Hm)); done.
    - intros Hdrop. destruct (proj2 Hn (or_intror Hdrop)) as [Hd Hm].
      split; [split; [done|]|done]. intros Htake. by apply (Hdisj name). }
  split; [|split].
  - intros name Hname%Hkept. apply Hall. by right.
  - assert (backupFiles (withBackupDir fs
              (removeFiles env (list.take k sorted) (backupDir fs)))
            = list_to_set (list.drop k sorted)) as ->.
    { apply set_eq. intros name. by rewrite Hkept, elem_of_list_to_set. }
    rewrite size_list_to_set, length_drop by done.
    rewrite (size_backupFiles fs), <- Hlength. lia.
  - intros d y Hd Hnot Hy%Hkept. apply Hall in Hd as [Hd|Hd]; [|by apply Hkept in Hd].
    split; [by eapply StronglySorted_app_1_elem_of|].
    intros ->. by apply (Hdisj y).
Qed.

(** One rotation that meets no failure. *)
Lemma createBackup_keepsNewest env cfg fs saved :
  rotates env → outFile fs = Some saved →
  outFile (createBackup env cfg fs).1 = Some saved
  ∧ keepsNewest (MaxBackupFiles cfg)
      (backupFiles fs ∪ {[backupFileName (now env)]})
      (backupFiles (createBackup env cfg fs).1).
Proof.
  intros Hrot Hout. split; [by rewrite createBackup_outFile|].
  unfold createBackup. rewrite Hout. destruct Hrot as (Hcopy & ?). rewrite Hcopy.
  set (fs1 := withBackupDir fs _).
  assert (backupFiles fs1 = backupFiles fs ∪ {[backupFileName (now env)]}) as <-.
  { apply set_eq. intros name.
    rewrite elem_of_union, elem_of_singleton, !elem_of_backupFiles. simpl.
    rewrite dom_insert_L, elem_of_union, elem_of_singleton.
    pose proof (matchBackupName_created (now env)). naive_solver. }
  by apply cleanupOldBackups_keepsNewest.
Qed.

Lemma createdNames_cons env envs :
  createdNames (env :: envs) = {[backupFileName (now env)]} ∪ createdNames envs.
Proof. done. Qed.

(** A sequence of rotations that meet no failure. *)
Lemma rotations_keepsNewest cfg saved envs : ∀ fs all,
  Forall rotates envs → outFile fs = Some saved →
  keepsNewest (MaxBackupFiles cfg) all (backupFiles fs) →
  keepsNewest (MaxBackupFiles cfg) (all ∪ createdNames envs)
    (backupFiles (rotations envs cfg fs)).
Proof.
  induction envs as [|env envs IH]; intros fs all Hrot Hout Hkeeps.
  { unfold createdNames. simpl. by rewrite (right_id_L ∅ (∪)). }
  apply Forall_cons in Hrot as [Hrot Hrots].
  destruct (createBackup_keepsNewest env cfg fs saved Hrot Hout) as [Hout1 Hstep].
  rewrite createdNames_cons, (assoc_L (∪)).
  apply (IH _ _ Hrots Hout1). by eapply keepsNewest_step.
Qed.

(** C4. Rotations that meet no failure, start from a directory without
    backup files and write [MaxBackupFiles + k] distinct names leave
    exactly [MaxBackupFiles] backup files; these are among the names
    written, and every name written that is gone sorts strictly before
    every name that is kept. *)
Theorem backup_retention
    (cfg : StorageConfig) (envs : list IOEnv) (fs : FS) (saved : string) (k : nat)
    (Hrotates : Forall rotates envs)
    (Hfile : outFile fs = Some saved)
    (Hnone : backupFiles fs = ∅)
    (Hcreated : size (createdNames envs) = MaxBackupFiles cfg + k) :
  let kept := backupFiles (rotations envs cfg fs) in
  size kept = MaxBackupFiles cfg
  ∧ kept ⊆ createdNames envs
  ∧ ∀ dropped name,
      dropped ∈ createdNames envs → dropped ∉ kept → name ∈ kept →
      older dropped name.
Proof.
  destruct (rotations_keepsNewest cfg saved envs fs ∅ Hrotates Hfile)
    as (Hsub & Hsize & Hord).
  { rewrite Hnone. split; [done|]. split; [by rewrite size_empty, Nat.min_0_r|].
    by intros d y ?%not_elem_of_empty. }
  rewrite (left_id_L ∅ (∪)) in *. simpl. split; [lia|]. split; [done|]. exact Hord.
Qed.

End BackupFacts.

(** ** Titles and the scope gate *)

Module TitleFacts.
Import GoStrings Models Scraper.

Lemma titleFromSelectors_first e selectors before selector after :
  selectors = before ++ selector :: after →
  Forall (λ sel, ChildText e (TrimSpace sel) = "") before →
  ChildText e (TrimSpace selector) ≠ "" →
  titleFromSelectors e selectors = Some (cleanText (ChildText e (TrimSpace selector))).
Proof.
  intros -> Hbefore Hsel. induction Hbefore as [|sel before Hempty _ IH]; simpl.
  - by rewrite bool_decide_eq_true_2.
  - rewrite bool_decide_eq_false_2; [done|]. intros Hne. by apply Hne.
Qed.

Lemma titleFromSelectors_none e selectors :
  Forall (λ sel, ChildText e (TrimSpace sel) = "") selectors →
  titleFromSelectors e selectors = None.
Proof.
  induction 1 as [|sel selectors Hempty _ IH]; simpl; [done|].
  rewrite bool_decide_eq_false_2; [done|]. intros Hne. by apply Hne.
Qed.

Lemma Split_head s sep : ∃ first rest, Split s sep = first :: rest.
Proof.
  induction s as [|c s (first & rest & IH)]; simpl; [by eexists _, _|].
  destruct (Ascii.eqb c sep); [by eexists _, _|]. rewrite IH. by eexists _, _.
Qed.

Section WithExternals.
Context `{Externals}.

Lemma ExtractArticle_no_title now e s :
  extractTitle s e = "" → (ExtractArticle now e s).2 = None.
Proof.
  intros Htitle. unfold ExtractArticle. case_bool_decide; [done|].
  case_match; [done|].
  change (extractTitle _ e) with (extractTitle s e). rewrite Htitle.
  by rewrite bool_decide_eq_true_2.
Qed.

(** C6 (amended). The title selectors are tried in order and the first
    one with text gives the title, whitespace-normalised.  When no
    selector has text, the normalised text of the title tag is split on
    the bar: the trimmed first segment is the title when it is not empty,
    the whole normalised text is the title when the first segment is
    empty, and when the normalised text itself is empty there is no title
    and [ExtractArticle] returns no article. *)
Theorem extractTitle_fallback (s : Scraper) (e : HTMLElement) :
  let selectors := Split (SelTitle (Selectors (config s))) "," in
  let pageTitle := cleanText (ChildText e "title") in
  let firstSegment := TrimSpace (default "" (head (Split pageTitle "|"))) in
  (∀ before selector after,
     selectors = before ++ selector :: after →
     Forall (λ sel, ChildText e (TrimSpace sel) = "") before →
     ChildText e (TrimSpace selector) ≠ "" →
     extractTitle s e = cleanText (ChildText e (TrimSpace selector)))
  ∧ (Forall (λ sel, ChildText e (TrimSpace sel) = "") selectors →
     (pageTitle ≠ "" → firstSegment ≠ "" → extractTitle s e = firstSegment)
     ∧ (pageTitle ≠ "" → firstSegment = "" → extractTitle s e = pageTitle)
     ∧ (pageTitle = "" →
        extractTitle s e = "" ∧ ∀ now, (ExtractArticle now e s).2 = None)).
Proof.
  intros selectors pageTitle firstSegment. split.
  - intros before selector after Hsel Hbefore Htext. unfold extractTitle.
    fold selectors. by rewrite (titleFromSelectors_first _ _ _ _ _ Hsel).
  - intros Hnone.
    assert (extractTitle s e =
      if bool_decide (pageTitle ≠ "") then
        if bool_decide (firstSegment ≠ "") then firstSegment else pageTitle
      else "") as Hcode.
    { unfold extractTitle. fold selectors. rewrite titleFromSelectors_none by done.
      fold pageTitle. unfold firstSegment.
      destruct (Split_head pageTitle "|") as (first & rest & ->). done. }
    split; [|split].
    + intros ? ?. rewrite Hcode. by rewrite !bool_decide_eq_true_2.
    + intros ? Hfirst. rewrite Hcode, bool_decide_eq_true_2 by done.
      rewrite bool_decide_eq_false_2; [done|]. intros Hne. by apply Hne.
    + intros Hpage.
      assert (extractTitle s e = "") as Hempty.
      { rewrite Hcode. rewrite bool_decide_eq_false_2; [done|].
        intros Hne. by apply Hne. }
      split; [done|]. intros now. by apply ExtractArticle_no_title.
Qed.

End WithExternals.

(** The title tag [| My Blog]: [extractTitle] keeps it whole, the
    specification takes the segment after the bar. *)
Lemma extractTitle_not_first_nonempty_segment :
  let s := NewScraper Samples.plainConfig in
  extractTitle s Samples.barePage = "| My Blog"
  ∧ specTitle s Samples.barePage = "My Blog"
  ∧ extractTitle s Samples.barePage ≠ specTitle s Samples.barePage.
Proof. vm_compute. repeat split. discriminate. Qed.

(** The same page, by the second case of the fallback. *)
Lemma extractTitle_fallback_witness :
  extractTitle (NewScraper Samples.plainConfig) Samples.barePage = "| My Blog".
Proof.
  refine (proj1 (proj2 (proj2
    (@extractTitle_fallback Samples.externals
       (NewScraper Samples.plainConfig) Samples.barePage) _)) _ _).
  - vm_compute. repeat constructor.
  - vm_compute. discriminate.
  - vm_compute. reflexivity.
Defined.

End TitleFacts.

Module CollectorFacts.
Import GoStrings Models Collector.

Lemma anyExcluded_true patterns url :
  anyExcluded patterns url = true
  ↔ ∃ pattern, pattern ∈ patterns ∧ matchesPattern url pattern = true.
Proof.
  induction patterns as [|p ps IH]; simpl.
  - split; [done|]. intros (? & ?%elem_of_nil & _). done.
  - destruct (matchesPattern url p) eqn:Hp.
    + split; [|done]. intros _. exists p. split; [left|done].
    + rewrite IH. split.
      * intros (q & Hq & Hm). exists q. split; [by right|done].
      * intros (q & [->|Hq]%elem_of_cons & Hm); [congruence|by exists q].
Qed.

Lemma anyDomain_true domains url :
  anyDomain domains url = true
  ↔ ∃ domain, domain ∈ domains ∧ Contains url domain = true.
Proof.
  induction domains as [|d ds IH]; simpl.
  - split; [done|]. intros (? & ?%elem_of_nil & _). done.
  - destruct (Contains url d) eqn:Hd.
    + split; [|done]. intros _. exists d. split; [left|done].
    + rewrite IH. split.
      * intros (q & Hq & Hm). exists q. split; [by right|done].
      * intros (q & [->|Hq]%elem_of_cons & Hm); [congruence|by exists q].
Qed.

(** What the check accepts: no exclusion pattern matches, and the URL
    holds an allowed domain somewhere in it. *)
Lemma IsAllowedURL_accepts config url :
  IsAllowedURL config url = true
  ↔ (∀ pattern, pattern ∈ ExcludePatterns (Target config) →
                matchesPattern url pattern = false)
    ∧ ∃ domain, domain ∈ AllowedDomains (Target config)
                ∧ Contains url domain = true.
Proof.
  unfold IsAllowedURL.
  destruct (anyExcluded _ url) eqn:Hex.
  - apply anyExcluded_true in Hex as (p & Hp & Hm). split; [done|].
    intros [Hno _]. rewrite (Hno p Hp) in Hm. done.
  - destruct (anyDomain _ url) eqn:Hdom.
    + apply anyDomain_true in Hdom. split; [|done]. intros _. split; [|done].
      intros p Hp. destruct (matchesPattern url p) eqn:Hm; [|done].
      assert (anyExcluded (ExcludePatterns (Target config)) url = true) as Hyes
        by (apply anyExcluded_true; by exists p).
      congruence.
    + split; [done|]. intros [_ Hd%anyDomain_true]. congruence.
Qed.

(** C7. [IsAllowedURL] accepts a URL whose host is [evil.example], which
    is not an allowed domain, because the allowed domain occurs in its
    query; [isValidInternalLink], which compares the host, rejects it. *)
Theorem IsAllowedURL_accepts_foreign_host :
  IsAllowedURL Samples.config Samples.foreignURL = true
  ∧ NetURL.Host Samples.foreignURL = "evil.example"
  ∧ (NetURL.Host Samples.foreignURL ∉ AllowedDomains (Target Samples.config))
  ∧ Scraper.isValidInternalLink (Scraper.NewScraper Samples.config) Samples.foreignURL
    = false.
Proof.
  split; [vm_compute; reflexivity|]. split; [vm_compute; reflexivity|].
  split; [|vm_compute; reflexivity].
  assert (NetURL.Host Samples.foreignURL = "evil.example") as -> by (vm_compute; reflexivity).
  simpl. intros [?|?%elem_of_nil]%elem_of_cons; done.
Qed.

End CollectorFacts.

(** ** The outcomes of Save; the statements on the sample data *)

Module OutcomeFacts.
Import GoStrings StringFacts Bufio BufioFacts Models Storage StorageFacts.

Section WithLibraries.
Context `{Scraper.Externals} `{JSON}.

(** When [Save] returns no error for a new fingerprint. *)
Lemma Save_new_result env article j fs :
  ContentHash article ∉ existingHashes j →
  (Save env article (j, fs)).2 = None
  ↔ openFails env = false
    ∧ ∃ line, json_Marshal article = Some line ∧ takes env (String.length line + 1).
Proof.
  intros Hnew. unfold Save, openAppend, takes, fileWrite.
  rewrite bool_decide_eq_false_2 by done.
  destruct (openFails env); simpl; [naive_solver|].
  destruct (json_Marshal article) as [line|]; simpl; [|naive_solver].
  destruct (quota env) as [r|]; simpl; [|naive_solver].
  destruct (String.length line <=? r) eqn:Hfit; simpl.
  - apply Nat.leb_le in Hfit.
    destruct (r - String.length line) as [|rest] eqn:Hrest; simpl.
    + split; [done|]. intros (_ & l & [= <-] & ?). lia.
    + split; [|done]. intros _. split; [done|]. exists line. split; [done|lia].
  - apply Nat.leb_gt in Hfit. split; [done|].
    intros (_ & l & [= <-] & ?). lia.
Qed.

(** An error leaves the index as it was. *)
Lemma Save_index env article j fs :
  existingHashes (Save env article (j, fs)).1.1
  = match (Save env article (j, fs)).2 with
    | Some _ => existingHashes j
    | None => {[ContentHash article]} ∪ existingHashes j
    end.
Proof.
  unfold Save. case_bool_decide as Hdup; [simpl; set_solver|].
  repeat (case_match; simplify_eq/=; try done).
Qed.

(** C5 (amended). [Save] returns nil without a change for a duplicate.
    For a new fingerprint it returns nil exactly when the file opens, the
    article encodes and the file takes the record and its line feed; it
    then appends the record and adds the fingerprint, and otherwise it
    returns an error and the index is as before.  Nil is returned for a
    duplicate and for a saved article alike; [handleArticle] tells them
    apart by asking [Exists] first, and counts a duplicate as skipped and
    the result of [Save] as saved or failed. *)
Theorem Save_outcomes (env : IOEnv) (article : Article) (j : JSONLStorage) (fs : FS) :
  (ContentHash article ∈ existingHashes j →
     Save env article (j, fs) = ((j, fs), None))
  ∧ (ContentHash article ∉ existingHashes j →
     ((Save env article (j, fs)).2 = None
      ↔ openFails env = false
        ∧ ∃ line, json_Marshal article = Some line
                  ∧ takes env (String.length line + 1))
     ∧ ((Save env article (j, fs)).2 = None →
        ∃ line j' fs', json_Marshal article = Some line
          ∧ Save env article (j, fs) = ((j', fs'), None)
          ∧ existingHashes j' = {[ContentHash article]} ∪ existingHashes j
          ∧ content fs' = content fs +:+ line +:+ newline)
     ∧ ((Save env article (j, fs)).2 ≠ None →
        existingHashes (Save env article (j, fs)).1.1 = existingHashes j))
  ∧ (∀ clock e app scraper1,
       Crawler.storage app = (j, fs) →
       Scraper.ExtractArticle clock e (Crawler.scraper app) = (scraper1, Some article) →
       let app' := Crawler.handleArticle env clock e app in
       let counted := Crawler.processed (Crawler.stats app) in
       (ContentHash article ∈ existingHashes j →
          Crawler.storage app' = (j, fs)
          ∧ Crawler.stats app' = Crawler.skipped counted)
       ∧ (ContentHash article ∉ existingHashes j →
          Crawler.DryRun (Crawler.stats app) = false →
          Crawler.storage app' = (Save env article (j, fs)).1
          ∧ Crawler.stats app'
            = match (Save env article (j, fs)).2 with
              | Some _ => Crawler.failed counted
              | None => Crawler.saved counted
              end)).
Proof.
  split; [by apply Save_duplicate|]. split.
  - intros Hnew. split; [by apply Save_new_result|]. split.
    + intros Hnil. destruct (Save_new_nil env article j fs Hnew Hnil) as (line & Hline & ->).
      by eexists line, _, _.
    + intros Herr. rewrite Save_index. by destruct (Save env article (j, fs)).2.
  - intros clock e app scraper1 Hst Hex. unfold Crawler.handleArticle.
    rewrite Hex, Hst. unfold Exists. cbn [fst snd]. split.
    + intros Hdup. by rewrite bool_decide_eq_true_2.
    + intros Hnew Hdry. rewrite bool_decide_eq_false_2 by done.
      cbn [Crawler.processed Crawler.DryRun]. rewrite Hdry. cbn [negb].
      by destruct (Save env article (j, fs)) as [st1 [err|]].
Qed.

End WithLibraries.

(** Saving an article and saving it again return the same value. *)
Lemma Save_duplicate_returns_as_saved :
  ¬ @reportsDuplicateDistinctly Samples.codec.
Proof.
  intros Hclaim.
  set (article := Samples.note "h1" "first").
  set (fresh := (Samples.freshStore, Samples.emptyFS)).
  set (first := @Save Samples.codec (Samples.env "20250101_120000") article fresh).
  apply (Hclaim (Samples.env "20250101_120001") (Samples.env "20250101_120000")
           article article first.1 fresh).
  - vm_compute. set_solver.
  - vm_compute. set_solver.
  - vm_compute. reflexivity.
  - vm_compute. reflexivity.
Qed.

(** The first of two calls for one article returns nil and has appended
    the record; the second is the duplicate. *)
Lemma Save_outcomes_witness :
  let article := Samples.note "h1" "first" in
  let fresh := (Samples.freshStore, Samples.emptyFS) in
  let first := @Save Samples.codec (Samples.env "20250101_120000") article fresh in
  @Save Samples.codec (Samples.env "20250101_120001") article first.1 = (first.1, None)
  ∧ ∃ line j' fs',
      @json_Marshal Samples.codec article = Some line
      ∧ first = ((j', fs'), None)
      ∧ existingHashes j' = {[ "h1" ]} ∪ ∅
      ∧ content fs' = content Samples.emptyFS +:+ line +:+ newline.
Proof.
  intros article fresh first. split.
  - destruct first.1 as [j fs] eqn:Hfirst.
    refine (proj1 (@Save_outcomes Samples.externals Samples.codec
              (Samples.env "20250101_120001") article j fs) _).
    assert (j = first.1.1) as -> by (by rewrite Hfirst).
    vm_compute. set_solver.
  - refine (proj1 (proj2 (proj1 (proj2 (@Save_outcomes Samples.externals Samples.codec
              (Samples.env "20250101_120000") article
              Samples.freshStore Samples.emptyFS)) _)) _).
    + vm_compute. set_solver.
    + vm_compute. reflexivity.
Defined.

End OutcomeFacts.

Module Witnesses.
Import GoStrings Models Storage StorageFacts StorageTheorems BackupFacts.

(** No output file. *)
Lemma Load_missing_file_witness :
  outFile Samples.emptyFS = None
  ∧ @Load Samples.codec (Samples.env "20250101_120000") Samples.emptyFS = Ok [].
Proof.
  split; [reflexivity|].
  exact (proj1 (@Load_missing_file Samples.codec
                  (Samples.env "20250101_120000") Samples.emptyFS eq_refl)).
Defined.



(** The sample calls, then [Load]: the first article of each fingerprint,
    in the order of the file. *)
Lemma Load_after_calls_sample :
  ∃ st results,
    @runCalls Samples.codec Samples.sampleCalls (Samples.freshStore, Samples.emptyFS)
    = (st, results)
    ∧ @Load Samples.codec (Samples.env "20250101_120003") st.2
      = Ok [ Samples.note "h1" "first"; Samples.note "h2" "other" ].
Proof.
  destruct (@Load_after_calls Samples.codec Samples.sampleCalls
              (Samples.env "20250101_120003") Samples.freshStore Samples.emptyFS)
    as (st & results & Hrun & Hload); try reflexivity.
  - repeat constructor.
  - unfold Samples.sampleCalls, offered. simpl.
    repeat constructor;
      (eexists; split; [reflexivity|]; split; vm_compute; reflexivity).
  - unfold Samples.sampleCalls, offered. simpl.
    repeat constructor;
      (eexists; split; [reflexivity|]; apply Nat.ltb_lt; vm_compute; reflexivity).
  - exists st, results. split; [exact Hrun|]. rewrite Hload.
    vm_compute. reflexivity.
Qed.

(** A title of [MaxScanTokenSize] bytes. *)
Lemma Load_fails_after_long_record_witness :
  ∃ j' fs',
    @Save Samples.codec (Samples.env "20250101_120000") Samples.longArticle
      (Samples.freshStore, Samples.emptyFS) = ((j', fs'), None)
    ∧ ∃ e, @Load Samples.codec (Samples.env "20250101_120001") fs' = Fail e.
Proof.
  destruct (@Load_fails_after_long_record Samples.codec
              (Samples.env "20250101_120000") (Samples.env "20250101_120001")
              Samples.longArticle
              ("{" +:+ "h9" +:+ ":" +:+ Samples.fill Bufio.MaxScanTokenSize "a" +:+ "}")
              Samples.freshStore Samples.emptyFS)
    as (j' & fs' & Hsave & _ & Hload & _).
  - split; reflexivity.
  - vm_compute. set_solver.
  - reflexivity.
  - vm_compute. reflexivity.
  - apply Nat.leb_le. vm_compute. reflexivity.
  - by exists j', fs'.
Defined.

(** Four rotations with a retention of two: the two newest names stay. *)
Lemma backup_retention_witness :
  backupFiles (rotations Samples.sampleRotations Samples.twoBackups Samples.seededFS)
  = {[ "articles_backup_20250101_120006.jsonl";
       "articles_backup_20250101_120009.jsonl" ]}
  ∧ size (backupFiles (rotations Samples.sampleRotations Samples.twoBackups Samples.seededFS)) = 2.
Proof.
  split; [vm_compute; reflexivity|].
  refine (proj1 (backup_retention Samples.twoBackups Samples.sampleRotations
                   Samples.seededFS _ 2 _ eq_refl _ _)).
  - repeat constructor.
  - vm_compute. reflexivity.
  - vm_compute. reflexivity.
Defined.

End Witnesses.

(** ** The store under any surroundings *)

Module StoreInvariants.
Import GoStrings StringFacts Bufio BufioFacts Models Storage StorageFacts.

Lemma extends_refl a : extends a a.
Proof. exists "". by rewrite append_nil_r. Qed.

Lemma extends_trans a b c : extends a b → extends b c → extends a c.
Proof. intros [m1 ->] [m2 ->]. exists (m1 +:+ m2). by rewrite append_assoc. Qed.

Lemma extends_append a more : extends a (a +:+ more).
Proof. by exists more. Qed.

(** A write to the file appends a beginning of its argument. *)
Lemma fileWrite_extends f p : extends (data f) (data (fileWrite f p).1.1).
Proof.
  unfold fileWrite. destruct (room f) as [r|]; [|apply extends_append].
  destruct (String.length p <=? r); apply extends_append.
Qed.

Lemma Flush_extends b f : extends (data f) (data (Flush b f).1.2).
Proof.
  unfold Flush. destruct (failed b); [apply extends_refl|].
  destruct (Buffered b =? 0); [apply extends_refl|].
  pose proof (fileWrite_extends f (buf b)) as Hw.
  destruct (fileWrite f (buf b)) as [[f' n] ok]. by destruct ok.
Qed.

Lemma writeLoop_extends fuel : ∀ b f p,
  extends (data f) (data (writeLoop fuel b f p).1.2).
Proof.
  induction fuel as [|fuel IH]; intros b f p; cbn [writeLoop]; [apply extends_refl|].
  destruct ((Available b <? String.length p) && negb (failed b)); [|apply extends_refl].
  destruct (Buffered b =? 0).
  - pose proof (fileWrite_extends f p) as Hw.
    destruct (fileWrite f p) as [[f' n] ok]. eapply extends_trans; [exact Hw|apply IH].
  - pose proof (Flush_extends {| buf := buf b +:+ take (Available b) p; failed := failed b |} f)
      as Hf.
    destruct (Flush _ f) as [[b' f'] ok]. eapply extends_trans; [exact Hf|apply IH].
Qed.

Lemma Write_extends b f p : extends (data f) (data (Write b f p).1.2).
Proof.
  unfold Write. pose proof (writeLoop_extends (String.length p + 2) b f p) as Hw.
  destruct (writeLoop _ b f p) as [[b' f'] p']. by destruct (failed b').
Qed.

Section WithJSON.
Context `{JSON}.

Lemma batchStep_extends b article :
  extends (data (file b)) (data (file (batchStep b article))).
Proof.
  unfold batchStep. case_bool_decide; [apply extends_refl|].
  destruct (json_Marshal article) as [line|]; [|apply extends_refl].
  pose proof (Write_extends (writer b) (file b) line) as H1.
  destruct (Write (writer b) (file b) line) as [[w f] ok]. destruct ok; [|done].
  pose proof (Write_extends w f newline) as H2.
  destruct (Write w f newline) as [[w2 f2] ok2]. cbn [negb fst snd] in *.
  destruct ok2; cbn [negb file]; by eapply extends_trans.
Qed.

Lemma batchLoop_extends articles : ∀ b,
  extends (data (file b)) (data (file (foldl batchStep b articles))).
Proof.
  induction articles as [|a articles IH]; intros b; cbn [foldl]; [apply extends_refl|].
  eapply extends_trans; [apply batchStep_extends|apply IH].
Qed.

Lemma batchStep_hashes b article :
  hashes b ⊆ hashes (batchStep b article)
  ∧ hashes (batchStep b article) ⊆ {[ContentHash article]} ∪ hashes b.
Proof.
  unfold batchStep. case_bool_decide; [set_solver|].
  destruct (json_Marshal article) as [line|]; [|set_solver].
  destruct (Write (writer b) (file b) line) as [[w f] ok]. destruct ok; [|set_solver].
  destruct (Write w f newline) as [[w2 f2] ok2]. destruct ok2; set_solver.
Qed.

Lemma batchLoop_hashes articles : ∀ b,
  hashes b ⊆ hashes (foldl batchStep b articles)
  ∧ hashes (foldl batchStep b articles) ⊆ hashesOf articles ∪ hashes b.
Proof.
  induction articles as [|a articles IH]; intros b; cbn [foldl]; [set_solver|].
  destruct (batchStep_hashes b a) as [H1 H2].
  destruct (IH (batchStep b a)) as [H3 H4]. rewrite hashesOf_cons. set_solver.
Qed.

(** One call, whatever fails. *)
Lemma runCall_invariants env c j fs :
  let st := (runCall env c (j, fs)).1 in
  config st.1 = config j ∧ outputFile st.1 = outputFile j
  ∧ existingHashes j ⊆ existingHashes st.1
  ∧ existingHashes st.1 ⊆ hashesOf (callArticles c) ∪ existingHashes j
  ∧ extends (content fs) (content st.2)
  ∧ (is_Some (outFile fs) → is_Some (outFile st.2)).
Proof.
  destruct c as [a|articles]; cbn [runCall callArticles].
  - unfold Save, openAppend. case_bool_decide as Hdup.
    { cbn [fst snd]. repeat split; try done; try set_solver. apply extends_refl. }
    unfold content. destruct (openFails env).
    { cbn [fst snd]. rewrite backupIfEnabled_outFile.
      repeat split; try done; try set_solver. apply extends_refl. }
    destruct (json_Marshal a) as [line|].
    2:{ cbn [fst snd withOutFile outFile Bufio.data default].
        rewrite backupIfEnabled_outFile.
        repeat split; try done; try set_solver. apply extends_refl. }
    set (opened := {| data := default "" (outFile (backupIfEnabled env j fs));
                      room := quota env |}).
    pose proof (fileWrite_extends opened line) as H1.
    destruct (fileWrite opened line) as [[written n] ok].
    cbn [fst snd opened data] in H1. rewrite backupIfEnabled_outFile in H1.
    destruct ok; cbn [negb].
    2:{ cbn [fst snd withOutFile outFile default withHashes existingHashes config outputFile].
        repeat split; try done; set_solver. }
    pose proof (fileWrite_extends written newline) as H2.
    destruct (fileWrite written newline) as [[ended n2] ok2]. cbn [fst snd] in H2.
    destruct ok2; cbn [negb fst snd withOutFile outFile default withHashes existingHashes
                       config outputFile];
      (repeat split; try done; try set_solver; by eapply extends_trans).
  - unfold SaveBatch. destruct articles as [|a articles].
    { cbn [fst snd]. repeat split; try done; try set_solver. apply extends_refl. }
    unfold openAppend, content. destruct (openFails env).
    { cbn [fst snd]. rewrite backupIfEnabled_outFile.
      repeat split; try done; try set_solver. apply extends_refl. }
    set (b0 := {| hashes := existingHashes j; writer := NewWriter;
                  file := {| data := default "" (outFile (backupIfEnabled env j fs));
                             room := quota env |};
                  savedCount := 0; skippedCount := 0 |}).
    pose proof (batchLoop_extends (a :: articles) b0) as H1.
    destruct (batchLoop_hashes (a :: articles) b0) as [H3 H4].
    set (b := foldl batchStep b0 (a :: articles)) in *.
    pose proof (Flush_extends (writer b) (file b)) as H2.
    destruct (Flush (writer b) (file b)) as [[w closed] ok].
    cbn [fst snd withOutFile outFile default withHashes existingHashes config outputFile
         b0 file data hashes] in *.
    rewrite backupIfEnabled_outFile in H1.
    repeat split; try done. by eapply extends_trans.
Qed.

(** X1. The index only grows, and only by fingerprints that were offered;
    the configuration and the path of the store never change. *)
Theorem index_grows_by_offered (calls : list (IOEnv * call)) (st : JSONLStorage * FS) :
  let st' := (runCalls calls st).1 in
  config st'.1 = config st.1 ∧ outputFile st'.1 = outputFile st.1
  ∧ existingHashes st.1 ⊆ existingHashes st'.1
  ∧ existingHashes st'.1 ⊆ hashesOf (offered calls) ∪ existingHashes st.1.
Proof.
  revert st. induction calls as [|[env c] calls IH]; intros [j fs]; cbn [runCalls].
  { cbn [fst snd]. repeat split; try done. set_solver. }
  pose proof (runCall_invariants env c j fs) as (Hc & Ho & H1 & H2 & _).
  destruct (runCall env c (j, fs)) as [[j1 fs1] r]. cbn [fst snd] in *.
  specialize (IH (j1, fs1)). destruct (runCalls calls (j1, fs1)) as [[j2 fs2] rs].
  cbn [fst snd] in *. destruct IH as (Hc' & Ho' & H3 & H4).
  rewrite offered_cons, hashesOf_app.
  split; [congruence|]. split; [congruence|]. set_solver.
Qed.

(** X2. The output file is only appended to: whatever a sequence of calls of
    [Save] and [SaveBatch] meets, the content afterwards is the content
    before with bytes appended, and a file that exists stays. *)
Theorem output_file_append_only (calls : list (IOEnv * call)) (st : JSONLStorage * FS) :
  let st' := (runCalls calls st).1 in
  extends (content st.2) (content st'.2)
  ∧ (is_Some (outFile st.2) → is_Some (outFile st'.2)).
Proof.
  revert st. induction calls as [|[env c] calls IH]; intros [j fs]; cbn [runCalls].
  { cbn [fst snd]. split; [apply extends_refl|done]. }
  pose proof (runCall_invariants env c j fs) as (_ & _ & _ & _ & H1 & H2).
  destruct (runCall env c (j, fs)) as [[j1 fs1] r]. cbn [fst snd] in *.
  specialize (IH (j1, fs1)). destruct (runCalls calls (j1, fs1)) as [[j2 fs2] rs].
  cbn [fst snd] in *. destruct IH as (H3 & H4).
  split; [by eapply extends_trans|]. intros Hsome. by apply H4, H2.
Qed.

End WithJSON.
End StoreInvariants.

(** ** Backups and saving *)

Module BackupIndependence.
Import GoStrings StringFacts Bufio BufioFacts Models Storage StorageFacts.

Section WithJSON.
Context `{JSON}.

(** X3. Backups are best effort: what a call of [Save] or [SaveBatch]
    returns, the index and the output file afterwards depend on the index
    and the output file before, and on whether the file opens and what it
    takes; not on the backup settings, the backup directory, or any
    failure of copying and pruning. *)
Theorem saving_ignores_backups (env env' : IOEnv) (c : call)
    (j j' : JSONLStorage) (fs fs' : FS)
    (Hopen : openFails env = openFails env') (Hquota : quota env = quota env')
    (Hindex : existingHashes j = existingHashes j') (Hfile : outFile fs = outFile fs') :
  let r := runCall env c (j, fs) in
  let r' := runCall env' c (j', fs') in
  r.2 = r'.2
  ∧ existingHashes r.1.1 = existingHashes r'.1.1
  ∧ outFile r.1.2 = outFile r'.1.2.
Proof.
  destruct c as [a|articles]; cbn [runCall].
  - unfold Save, openAppend. rewrite <- Hindex, <- Hopen, <- Hquota.
    rewrite !backupIfEnabled_outFile, <- Hfile.
    case_bool_decide; [done|]. destruct (openFails env).
    { cbn [fst snd]. by rewrite !backupIfEnabled_outFile. }
    destruct (json_Marshal a) as [line|]; [|done].
    destruct (fileWrite _ line) as [[written n] ok]. destruct ok; [|done].
    cbn [negb]. destruct (fileWrite written newline) as [[ended n2] ok2].
    destruct ok2; cbn [negb fst snd withOutFile outFile withHashes existingHashes];
      by rewrite <- ?Hindex.
  - unfold SaveBatch, openAppend. destruct articles as [|a articles]; [done|].
    rewrite <- Hindex, <- Hopen, <- Hquota.
    rewrite !backupIfEnabled_outFile, <- Hfile. destruct (openFails env).
    { cbn [fst snd]. by rewrite !backupIfEnabled_outFile. }
    by destruct (Flush _ _) as [[w closed] ok].
Qed.

End WithJSON.

(** A store whose backup copy fails and a store without backups. *)
Lemma saving_ignores_backups_witness :
  let plain := {| config := {| OutputFormat := "jsonl"; OutputFile := "data/articles.jsonl";
                               BackupEnabled := false; BackupDirectory := "";
                               MaxBackupFiles := 0 |};
                  outputFile := "data/articles.jsonl";
                  existingHashes := ∅ |} in
  let r := @runCall Samples.codec (Samples.failingCopy "20250101_120000")
             (CallSave (Samples.note "h2" "other")) (Samples.freshStore, Samples.seededFS) in
  let r' := @runCall Samples.codec (Samples.env "20250101_120000")
              (CallSave (Samples.note "h2" "other")) (plain, Samples.seededFS) in
  r.2 = r'.2 ∧ existingHashes r.1.1 = existingHashes r'.1.1
  ∧ outFile r.1.2 = outFile r'.1.2.
Proof.
  intros plain.
  exact (@saving_ignores_backups Samples.codec (Samples.failingCopy "20250101_120000")
           (Samples.env "20250101_120000")
           (CallSave (Samples.note "h2" "other")) Samples.freshStore plain
           Samples.seededFS Samples.seededFS eq_refl eq_refl eq_refl eq_refl).
Defined.

End BackupIndependence.

(** ** Batches, restarts and statistics *)

Module BatchFacts.
Import GoStrings StringFacts Bufio BufioFacts Models Storage StorageFacts.

Section WithJSON.
Context `{JSON}.

(** X4. When nothing fails, one call of [SaveBatch] leaves the index and the
    output file that a call of [Save] for each article, in order, leaves. *)
Theorem SaveBatch_as_Saves (env : IOEnv) (calls : list (IOEnv * Article))
    (j : JSONLStorage) (fs : FS)
    (Hbatch : writable env) (Heach : Forall (λ c, writable c.1) calls)
    (Hencode : Forall (λ a, is_Some (json_Marshal a)) calls.*2) :
  let batch := (SaveBatch env calls.*2 (j, fs)).1 in
  let each := (runCalls (saves calls) (j, fs)).1 in
  existingHashes batch.1 = existingHashes each.1
  ∧ content batch.2 = content each.2.
Proof.
  destruct (SaveBatch_unlimited env calls.*2 j fs Hbatch Hencode)
    as (j1 & fs1 & -> & _ & Hh1 & Hd1 & _).
  destruct (runCalls_unlimited (saves calls) j fs)
    as (j2 & fs2 & rs & -> & _ & _ & Hh2 & Hd2 & _).
  { unfold saves. apply Forall_fmap. eapply Forall_impl; [exact Heach|]. by intros []. }
  { by rewrite offered_saves. }
  rewrite offered_saves in *. cbn [fst snd]. by rewrite Hh1, Hh2, Hd1, Hd2.
Qed.

(** X5. [SaveBatch] over a file that takes no more bytes returns nil and puts
    the fingerprint in the index although nothing reaches the file; a
    later [Save] of the article is then skipped as a duplicate. *)
Theorem SaveBatch_full_disk_loses_record (env env' : IOEnv) (article : Article)
    (line : string) (j : JSONLStorage) (fs : FS)
    (Hopen : openFails env = false) (Hfull : quota env = Some 0)
    (Hnew : ContentHash article ∉ existingHashes j)
    (Hline : json_Marshal article = Some line)
    (Hfits : String.length line < defaultBufSize) :
  ∃ j' fs',
    SaveBatch env [article] (j, fs) = ((j', fs'), None)
    ∧ content fs' = content fs
    ∧ ContentHash article ∈ existingHashes j'
    ∧ Save env' article (j', fs') = ((j', fs'), None).
Proof.
  rewrite (SaveBatch_full_disk env article line) by done. eexists _, _.
  split; [done|]. split; [done|].
  assert (ContentHash article
          ∈ existingHashes (withHashes j ({[ContentHash article]} ∪ existingHashes j)))
    as Hin by (simpl; set_solver).
  split; [done|]. by apply Save_duplicate.
Qed.

End WithJSON.

Lemma SaveBatch_as_Saves_witness :
  let batch := (@SaveBatch Samples.codec (Samples.env "20250101_120000")
                  Samples.sampleSaves.*2 (Samples.freshStore, Samples.emptyFS)).1 in
  let each := (@runCalls Samples.codec (saves Samples.sampleSaves)
                 (Samples.freshStore, Samples.emptyFS)).1 in
  existingHashes batch.1 = existingHashes each.1 ∧ content batch.2 = content each.2.
Proof.
  apply (@SaveBatch_as_Saves Samples.codec).
  - split; reflexivity.
  - repeat constructor.
  - repeat constructor; by eexists.
Defined.

Lemma SaveBatch_full_disk_loses_record_witness :
  ∃ j' fs',
    @SaveBatch Samples.codec (Samples.fullAfter 0 "20250101_120000")
      [Samples.note "h1" "first"] (Samples.freshStore, Samples.emptyFS)
    = ((j', fs'), None)
    ∧ content fs' = ""
    ∧ "h1" ∈ existingHashes j'
    ∧ @Save Samples.codec (Samples.env "20250101_120001") (Samples.note "h1" "first")
        (j', fs') = ((j', fs'), None).
Proof.
  apply (@SaveBatch_full_disk_loses_record Samples.codec
           (Samples.fullAfter 0 "20250101_120000") (Samples.env "20250101_120001")
           (Samples.note "h1" "first") "{h1:first}"
           Samples.freshStore Samples.emptyFS).
  - reflexivity.
  - reflexivity.
  - vm_compute. set_solver.
  - reflexivity.
  - apply Nat.ltb_lt. vm_compute. reflexivity.
Defined.

End BatchFacts.

Module RestartFacts.
Import GoStrings StringFacts Bufio BufioFacts ScannerFacts Models Storage StorageFacts
  StorageTheorems.

Lemma foldl_hashes (l : list Article) : ∀ seen : gset string,
  foldl (λ hs article, {[ContentHash article]} ∪ hs) seen l = hashesOf l ∪ seen.
Proof.
  induction l as [|a l IH]; intros seen; cbn [foldl].
  - rewrite hashesOf_nil. set_solver.
  - rewrite IH, hashesOf_cons. set_solver.
Qed.

Lemma hashesOf_firstByHash l : ∀ seen,
  hashesOf (firstByHash seen l) ∪ seen = hashesOf l ∪ seen.
Proof.
  induction l as [|a l IH]; intros seen; cbn [firstByHash]; [done|].
  case_bool_decide.
  - rewrite IH, hashesOf_cons. set_solver.
  - rewrite !hashesOf_cons. specialize (IH ({[ContentHash a]} ∪ seen)). revert IH.
    generalize (hashesOf (firstByHash ({[ContentHash a]} ∪ seen) l)) (hashesOf l).
    intros X Y IH. apply set_eq. intros x.
    assert (x ∈ X ∪ ({[ContentHash a]} ∪ seen) ↔ x ∈ Y ∪ ({[ContentHash a]} ∪ seen))
      as Hx by (by rewrite IH).
    clear IH. set_solver.
Qed.

Lemma NoDup_firstByHash l : ∀ seen, NoDup (ContentHash <$> firstByHash seen l).
Proof.
  induction l as [|a l IH]; intros seen; cbn [firstByHash]; [constructor|].
  case_bool_decide; [apply IH|]. rewrite fmap_cons. apply NoDup_cons. split; [|apply IH].
  intros (b & Hb & Hin)%list_elem_of_fmap. apply firstByHash_fresh in Hin. apply Hin. rewrite <- Hb. apply elem_of_union_l. by apply elem_of_singleton.
Qed.

Lemma size_hashesOf l : size (hashesOf l) = length (firstByHash ∅ l).
Proof.
  pose proof (hashesOf_firstByHash l ∅) as Heq.
  assert (hashesOf l = hashesOf (firstByHash ∅ l)) as -> by set_solver.
  unfold hashesOf. rewrite size_list_to_set by apply NoDup_firstByHash.
  by rewrite length_fmap.
Qed.

Section WithJSON.
Context `{JSON}.

(** X6. After calls that meet no failure, on a new store and with records
    that [Load] can read, a store built over the file has the index that
    the running store has: the index in memory is the index of the file. *)
Theorem index_rebuilt_at_restart (calls : list (IOEnv * call)) (env : IOEnv)
    (cfg : Config) (j : JSONLStorage) (fs : FS)
    (Hempty : content fs = "") (Hindex : existingHashes j = ∅)
    (Hwritable : Forall (λ c, writable c.1) calls)
    (Hwell : Forall wellEncoded (offered calls))
    (Hshort : Forall shortRecord (offered calls))
    (Hopen : openFails env = false) (Hread : readFails env = false) :
  ∀ j2, NewJSONLStorage env cfg (runCalls calls (j, fs)).1.2 = Ok j2 →
    existingHashes j2 = existingHashes (runCalls calls (j, fs)).1.1.
Proof.
  destruct (Load_after_calls calls env j fs) as (st & results & Hrun & Hload); [done..|].
  destruct (runCalls_unlimited calls j fs Hwritable)
    as (j' & fs' & rs & Hrun' & _ & _ & Hh & _).
  { eapply Forall_impl; [exact Hwell|]. intros a (line & -> & _). by eexists. }
  rewrite Hrun in *. injection Hrun' as -> _. cbn [fst snd] in *.
  intros j2. unfold NewJSONLStorage, loadExistingHashes. rewrite Hload.
  repeat case_match; try done. intros [= <-]. cbn [fst existingHashes withHashes].
  rewrite foldl_hashes, Hh, Hindex. pose proof (hashesOf_firstByHash (offered calls) ∅).
  set_solver.
Qed.

(** X7. After such calls the statistics count what the index holds:
    [TotalArticles] is the number of fingerprints in the index and
    [TotalSizeBytes] the length of the output file. *)
Theorem GetStats_counts_index (calls : list (IOEnv * call)) (env : IOEnv)
    (modTime : string) (j : JSONLStorage) (fs : FS)
    (Hempty : content fs = "") (Hindex : existingHashes j = ∅)
    (Hwritable : Forall (λ c, writable c.1) calls)
    (Hwell : Forall wellEncoded (offered calls))
    (Hshort : Forall shortRecord (offered calls))
    (Hopen : openFails env = false) (Hread : readFails env = false) :
  let st := (runCalls calls (j, fs)).1 in
  ∃ stats, StorageStats.GetStats env modTime st.1 st.2 = (stats, None)
    ∧ StorageStats.TotalArticles stats = Z.of_nat (size (existingHashes st.1))
    ∧ StorageStats.TotalSizeBytes stats = Z.of_nat (String.length (content st.2))
    ∧ StorageStats.StorageFormat stats = "jsonl"
    ∧ StorageStats.OutputFile stats = outputFile st.1.
Proof.
  destruct (Load_after_calls calls env j fs) as (st & results & Hrun & Hload); [done..|].
  destruct (runCalls_unlimited calls j fs Hwritable)
    as (j' & fs' & rs & Hrun' & _ & _ & Hh & _).
  { eapply Forall_impl; [exact Hwell|]. intros a (line & -> & _). by eexists. }
  rewrite Hrun in *. injection Hrun' as -> _. cbn [fst snd] in *. cbv zeta.
  unfold StorageStats.GetStats. rewrite Hload. eexists. split; [done|].
  cbn [StorageStats.TotalArticles StorageStats.TotalSizeBytes StorageStats.StorageFormat
       StorageStats.OutputFile].
  split.
  { rewrite Hh, Hindex. f_equal. rewrite <- size_hashesOf. f_equal. set_solver. }
  unfold content. by destruct (outFile fs').
Qed.

End WithJSON.

Lemma index_rebuilt_at_restart_witness :
  ∃ j2, @NewJSONLStorage Samples.codec (Samples.env "20250101_120003") Samples.config
          (@runCalls Samples.codec Samples.sampleCalls
             (Samples.freshStore, Samples.emptyFS)).1.2 = Ok j2
        ∧ existingHashes j2
          = existingHashes (@runCalls Samples.codec Samples.sampleCalls
                              (Samples.freshStore, Samples.emptyFS)).1.1.
Proof.
  destruct (@NewJSONLStorage Samples.codec (Samples.env "20250101_120003") Samples.config
              (@runCalls Samples.codec Samples.sampleCalls
                 (Samples.freshStore, Samples.emptyFS)).1.2) as [j2|e] eqn:Hnew;
    [|by vm_compute in Hnew].
  exists j2. split; [reflexivity|]. revert j2 Hnew.
  apply (@index_rebuilt_at_restart Samples.codec); try reflexivity.
  - repeat constructor.
  - unfold Samples.sampleCalls, offered. simpl.
    repeat constructor;
      (eexists; split; [reflexivity|]; split; vm_compute; reflexivity).
  - unfold Samples.sampleCalls, offered. simpl.
    repeat constructor;
      (eexists; split; [reflexivity|]; apply Nat.ltb_lt; vm_compute; reflexivity).
Defined.

Lemma GetStats_counts_index_witness :
  let st := (@runCalls Samples.codec Samples.sampleCalls
               (Samples.freshStore, Samples.emptyFS)).1 in
  ∃ stats, @StorageStats.GetStats Samples.codec (Samples.env "20250101_120003")
             "2025-01-01T12:00:02Z" st.1 st.2 = (stats, None)
    ∧ StorageStats.TotalArticles stats = Z.of_nat (size (existingHashes st.1))
    ∧ StorageStats.TotalSizeBytes stats = Z.of_nat (String.length (content st.2))
    ∧ StorageStats.StorageFormat stats = "jsonl"
    ∧ StorageStats.OutputFile stats = outputFile st.1.
Proof.
  apply (@GetStats_counts_index Samples.codec); try reflexivity.
  - repeat constructor.
  - unfold Samples.sampleCalls, offered. simpl.
    repeat constructor;
      (eexists; split; [reflexivity|]; split; vm_compute; reflexivity).
  - unfold Samples.sampleCalls, offered. simpl.
    repeat constructor;
      (eexists; split; [reflexivity|]; apply Nat.ltb_lt; vm_compute; reflexivity).
Defined.

End RestartFacts.

(** ** Unreadable lines; what a rotation touches *)

Module LoadFacts.
Import GoStrings StringFacts Bufio BufioFacts ScannerFacts Models Storage StorageFacts
  StorageTheorems.

Section WithJSON.
Context `{JSON}.

Lemma rawLines_encodeLines_app articles rest :
  Forall wellEncoded articles →
  rawLines (encodeLines articles +:+ rest)
  = ((λ a, default "" (json_Marshal a)) <$> articles) ++ rawLines rest.
Proof.
  induction 1 as [|a articles (line & Hline & Hlf & _) _ IH]; [by rewrite append_nil_l|].
  cbn [encodeLines]. rewrite fmap_cons, Hline. cbn [default from_option id app].
  unfold newline. rewrite append_assoc, !append_cons, append_nil_l.
  rewrite rawLines_line by done. by rewrite IH.
Qed.

Lemma decode_records articles :
  Forall wellEncoded articles →
  omap decodeLine (dropCR <$> ((λ a, default "" (json_Marshal a)) <$> articles))
  = articles.
Proof.
  induction 1 as [|a articles (line & Hline & _ & Hback) _ IH]; [done|].
  rewrite !fmap_cons, Hline. cbn [default from_option id omap list_omap].
  rewrite Hback. f_equal. exact IH.
Qed.

Lemma short_records articles :
  Forall shortRecord articles →
  Forall (λ l, String.length l < MaxScanTokenSize)
    ((λ a, default "" (json_Marshal a)) <$> articles).
Proof.
  intros Hs. apply Forall_fmap. eapply Forall_impl; [exact Hs|].
  intros a (line & Hline & Hlen). cbv [compose]. rewrite Hline. exact Hlen.
Qed.

(** X8. [Load] passes over a line that is blank or does not decode, and
    returns the articles of the records before and after it. *)
Theorem Load_skips_unreadable_line (env : IOEnv) (fs : FS)
    (before after : list Article) (junk : string)
    (Hfile : outFile fs
             = Some (encodeLines before +:+ junk +:+ newline +:+ encodeLines after))
    (Hwell : Forall wellEncoded (before ++ after))
    (Hshort : Forall shortRecord (before ++ after))
    (Honeline : hasByte LF junk = false)
    (Hfits : String.length junk < MaxScanTokenSize)
    (Hjunk : decodeLine (dropCR junk) = None)
    (Hopen : openFails env = false) (Hread : readFails env = false) :
  Load env fs = Ok (before ++ after).
Proof.
  apply Forall_app in Hwell as [Hw1 Hw2]. apply Forall_app in Hshort as [Hs1 Hs2].
  unfold Load. rewrite Hfile, Hopen, Hread. unfold scanLines.
  rewrite rawLines_encodeLines_app by done. unfold newline.
  rewrite append_cons, append_nil_l, rawLines_line by done.
  rewrite <- (append_nil_r (encodeLines after)), rawLines_encodeLines_app by done.
  cbn [rawLines]. rewrite app_nil_r.
  rewrite scanTokens_short.
  2:{ apply Forall_app. split; [by apply short_records|].
      constructor; [done|by apply short_records]. }
  cbn [orb]. f_equal.
  rewrite fmap_app, fmap_cons, omap_app. cbn [omap list_omap]. rewrite Hjunk.
  by rewrite !decode_records.
Qed.

End WithJSON.

(** A line of text between two records. *)
Lemma Load_skips_unreadable_line_witness :
  @Load Samples.codec (Samples.env "20250101_120000")
    {| outFile := Some ("{h1:first}" +:+ newline +:+ "not a record" +:+ newline
                        +:+ "{h2:other}" +:+ newline +:+ "");
       backupDir := ∅ |}
  = Ok [ Samples.note "h1" "first"; Samples.note "h2" "other" ].
Proof.
  apply (@Load_skips_unreadable_line Samples.codec (Samples.env "20250101_120000") _
           [Samples.note "h1" "first"] [Samples.note "h2" "other"] "not a record").
  - reflexivity.
  - repeat constructor;
      (eexists; split; [reflexivity|]; split; vm_compute; reflexivity).
  - repeat constructor;
      (eexists; split; [reflexivity|]; apply Nat.ltb_lt; vm_compute; reflexivity).
  - reflexivity.
  - apply Nat.ltb_lt. vm_compute. reflexivity.
  - vm_compute. reflexivity.
  - reflexivity.
  - reflexivity.
Defined.

End LoadFacts.

Module RotationFacts.
Import GoStrings StringFacts Models Storage StorageFacts BackupFacts.

Lemma removeFiles_lookup env files : ∀ dir name,
  name ∉ files → removeFiles env files dir !! name = dir !! name.
Proof.
  induction files as [|f files IH]; intros dir name Hnot; cbn [removeFiles]; [done|].
  apply not_elem_of_cons in Hnot as [Hne Hnot].
  destruct (removeFails env f); rewrite IH by done; [done|].
  by rewrite lookup_delete_ne.
Qed.



Lemma cleanupOldBackups_other env cfg fs name :
  matchBackupName name = false →
  backupDir (cleanupOldBackups env cfg fs).1 !! name = backupDir fs !! name.
Proof.
  intros Hname. unfold cleanupOldBackups. destruct (globFails env); [done|].
  destruct (_ <=? _)%nat; [done|]. cbn [fst withBackupDir backupDir].
  apply removeFiles_lookup. intros Hin%subseteq_take.
  rewrite merge_sort_Permutation in Hin. unfold globBackups in Hin.
  apply list_elem_of_filter in Hin as [Hm _]. rewrite Hname in Hm. done.
Qed.


(** X10. A rotation never removes or changes an entry of the backup directory
    that is not named like a backup. *)
Theorem createBackup_keeps_other_files (env : IOEnv) (cfg : StorageConfig) (fs : FS)
    (name : string) (Hother : matchBackupName name = false) :
  backupDir (createBackup env cfg fs).1 !! name = backupDir fs !! name.
Proof.
  assert (backupFileName (now env) ≠ name) as Hne.
  { intros <-. by rewrite matchBackupName_created in Hother. }
  unfold createBackup. destruct (outFile fs) as [written|]; [|done].
  destruct (copyFault env) as [[| |n]|]; cbn [fst withBackupDir backupDir]; try done.
  - by rewrite lookup_insert_ne.
  - rewrite cleanupOldBackups_other by done. cbn [withBackupDir backupDir].
    by rewrite lookup_insert_ne.
Qed.

Lemma createBackup_keeps_other_files_witness :
  backupDir (createBackup (Samples.env "20250101_120009") Samples.twoBackups
               Samples.crowdedFS).1 !! "notes.txt" = Some "keep".
Proof.
  rewrite (createBackup_keeps_other_files (Samples.env "20250101_120009")
             Samples.twoBackups Samples.crowdedFS "notes.txt").
  - reflexivity.
  - vm_compute. reflexivity.
Defined.

End RotationFacts.

(** ** The handlers of the crawler *)

Module CrawlerFacts.
Import GoStrings Models Storage StorageFacts.
Import Crawler.

Section WithLibraries.
Context `{Scraper.Externals} `{JSON}.

(** What one call of [handleArticle] does to the counters, the flag and
    the index. *)
Lemma handleArticle_step env clock e app :
  let app' := handleArticle env clock e app in
  let before := stats app in
  let after := stats app' in
  ProcessedURLs after = (ProcessedURLs before + 1)%Z
  ∧ DryRun after = DryRun before
  ∧ (SavedArticles after + SkippedArticles after + ErrorCount after
     = SavedArticles before + SkippedArticles before + ErrorCount before + 1)%Z
  ∧ (SavedArticles before ≤ SavedArticles after)%Z
  ∧ (SkippedArticles before ≤ SkippedArticles after)%Z
  ∧ (ErrorCount before ≤ ErrorCount after)%Z
  ∧ (DryRun before = true →
       storage app' = storage app ∧ ErrorCount after = ErrorCount before)
  ∧ (DryRun before = false →
       (Z.of_nat (size (existingHashes (storage app').1))
        - Z.of_nat (size (existingHashes (storage app).1))
        = SavedArticles after - SavedArticles before)%Z).
Proof.
  unfold handleArticle.
  destruct (Scraper.ExtractArticle clock e (scraper app)) as [scraper1 [article|]].
  2:{ cbn. repeat split; try lia; try done; intros _; lia. }
  destruct (storage app) as [j fs] eqn:Hst. unfold Exists. cbn [fst snd].
  case_bool_decide as Hdup.
  { cbn. repeat split; try lia; try done; intros _; lia. }
  cbn [processed DryRun]. destruct (DryRun (stats app)) eqn:Hdry; cbn [negb].
  { cbn. repeat split; try lia; try done. }
  pose proof (OutcomeFacts.Save_index env article j fs) as Hidx.
  destruct (Save env article (j, fs)) as [[j1 fs1] [err|]]; cbn [fst snd] in Hidx;
    cbn; (repeat split; try lia; try done); intros _; rewrite Hidx; [lia|].
  rewrite size_union by set_solver. rewrite size_singleton. lia.
Qed.

(** X11. Over any sequence of pages, every call of [handleArticle] is counted
    once as processed and once as saved, skipped or failed; the counters
    never decrease and the dry-run flag stays. *)
Theorem handleArticles_counts_each_page
    (pages : list (IOEnv * Time * Scraper.HTMLElement)) (app : CrawlerApp) :
  let before := stats app in
  let after := stats (handleArticles pages app) in
  ProcessedURLs after = (ProcessedURLs before + Z.of_nat (length pages))%Z
  ∧ (SavedArticles after + SkippedArticles after + ErrorCount after
     = SavedArticles before + SkippedArticles before + ErrorCount before
       + Z.of_nat (length pages))%Z
  ∧ (SavedArticles before ≤ SavedArticles after)%Z
  ∧ (SkippedArticles before ≤ SkippedArticles after)%Z
  ∧ (ErrorCount before ≤ ErrorCount after)%Z
  ∧ DryRun after = DryRun before.
Proof.
  revert app. unfold handleArticles.
  induction pages as [|[[env clock] e] pages IH]; intros app; cbn [foldl].
  { cbn [length]. repeat split; lia. }
  pose proof (handleArticle_step env clock e app) as (Hp & Hd & Hsum & H1 & H2 & H3 & _).
  specialize (IH (handleArticle env clock e app)). cbv zeta in *. cbn [fst snd length].
  destruct IH as (Hp' & Hsum' & H1' & H2' & H3' & Hd').
  repeat split; try lia. congruence.
Qed.

(** X12. In a dry run the store is never touched and nothing is counted as
    failed, whatever the pages and the surroundings. *)
Theorem dry_run_leaves_storage
    (pages : list (IOEnv * Time * Scraper.HTMLElement)) (app : CrawlerApp)
    (Hdry : DryRun (stats app) = true) :
  storage (handleArticles pages app) = storage app
  ∧ ErrorCount (stats (handleArticles pages app)) = ErrorCount (stats app).
Proof.
  revert app Hdry. unfold handleArticles.
  induction pages as [|[[env clock] e] pages IH]; intros app Hdry; cbn [foldl]; [done|].
  pose proof (handleArticle_step env clock e app) as (_ & Hd & _ & _ & _ & _ & Hkeep & _).
  cbv zeta in *. cbn [fst snd]. destruct (Hkeep Hdry) as [Hs He].
  destruct (IH (handleArticle env clock e app)) as [Hs' He']; [congruence|].
  split; congruence.
Qed.

(** X13. Outside a dry run, [SavedArticles] grows by the number of
    fingerprints that enter the index. *)
Theorem saved_counts_new_fingerprints
    (pages : list (IOEnv * Time * Scraper.HTMLElement)) (app : CrawlerApp)
    (Hwet : DryRun (stats app) = false) :
  let app' := handleArticles pages app in
  (Z.of_nat (size (existingHashes (storage app').1))
   - Z.of_nat (size (existingHashes (storage app).1))
   = SavedArticles (stats app') - SavedArticles (stats app))%Z.
Proof.
  revert app Hwet. unfold handleArticles.
  induction pages as [|[[env clock] e] pages IH]; intros app Hwet; cbn [foldl].
  { cbv zeta. lia. }
  pose proof (handleArticle_step env clock e app) as (_ & Hd & _ & _ & _ & _ & _ & Hsize).
  cbv zeta in *. cbn [fst snd]. specialize (Hsize Hwet).
  assert (DryRun (stats (handleArticle env clock e app)) = false) as Hwet'
    by (rewrite Hd; exact Hwet).
  specialize (IH (handleArticle env clock e app) Hwet'). lia.
Qed.

(** X14. The URLs that [handleLinks] hands to the collector: without
    repetition, in the order of [ExtractLinks], and exactly the
    resolutions of the non-empty references of the page that pass a rule
    of [ExtractLinks], match no exclusion pattern and hold an allowed
    domain. *)
Theorem handleLinks_visits_exactly (config : Config) (e : Scraper.HTMLElement) :
  NoDup (handleLinks config e)
  ∧ handleLinks config e `sublist_of` Scraper.ExtractLinks e
  ∧ ∀ u, u ∈ handleLinks config e
         ↔ (∃ href, href ∈ Scraper.Hrefs e ∧ href ≠ ""
                    ∧ Scraper.resolveURL (Scraper.RequestURL e) href = u
                    ∧ Scraper.isArticleLink u || Scraper.isPaginationLink u = true)
           ∧ (∀ pattern, pattern ∈ ExcludePatterns (Target config) →
                         Collector.matchesPattern u pattern = false)
           ∧ ∃ domain, domain ∈ AllowedDomains (Target config)
                       ∧ Contains u domain = true.
Proof.
  unfold handleLinks, Scraper.ExtractLinks.
  destruct (ScraperFacts.foldl_visitHref (Scraper.RequestURL e) (Scraper.Hrefs e) ([], ∅))
    as [[Hnd _] Hm].
  { split; [constructor|]. intros u. simpl. set_solver. }
  split; [by apply NoDup_filter|]. split; [apply sublist_filter|].
  intros u. rewrite list_elem_of_filter, Hm, CollectorFacts.IsAllowedURL_accepts.
  cbn [fst]. split.
  - intros [Hallowed [?%elem_of_nil|Hlink]]; [done|]. by split.
  - intros [Hlink Hallowed]. split; [done|]. by right.
Qed.

(** X15. The handler of [main] and [handleArticle] leave the same scraper and
    the same store, and count the page as processed; together, saved and
    skipped grow alike.  An article whose fingerprint is in the index is
    counted as saved by [main] and as skipped by [handleArticle]; when
    [Save] fails [main] counts nothing and [handleArticle] counts a
    failure. *)
Theorem main_handler_agrees (env : IOEnv) (clock : Time) (e : Scraper.HTMLElement)
    (app : CrawlerApp) (st : Main.State)
    (Hscraper : Main.scraperInstance st = scraper app)
    (Hstore : Main.store st = storage app) :
  let app' := handleArticle env clock e app in
  let st' := Main.articleHandler (DryRun (stats app)) env clock e st in
  Main.scraperInstance st' = scraper app'
  ∧ Main.store st' = storage app'
  ∧ (Main.processedURLs st' - Main.processedURLs st
     = ProcessedURLs (stats app') - ProcessedURLs (stats app))%Z
  ∧ (Main.savedArticles st' + Main.skippedArticles st'
     - (Main.savedArticles st + Main.skippedArticles st)
     = SavedArticles (stats app') + SkippedArticles (stats app')
       - (SavedArticles (stats app) + SkippedArticles (stats app)))%Z
  ∧ (SavedArticles (stats app') - SavedArticles (stats app)
     ≤ Main.savedArticles st' - Main.savedArticles st)%Z
  ∧ (∀ scraper1 article,
       Scraper.ExtractArticle clock e (scraper app) = (scraper1, Some article) →
       ContentHash article ∈ existingHashes (storage app).1 →
       Main.savedArticles st' = (Main.savedArticles st + 1)%Z
       ∧ SavedArticles (stats app') = SavedArticles (stats app)
       ∧ SkippedArticles (stats app') = (SkippedArticles (stats app) + 1)%Z)
  ∧ (∀ scraper1 article,
       Scraper.ExtractArticle clock e (scraper app) = (scraper1, Some article) →
       DryRun (stats app) = false →
       is_Some (Save env article (storage app)).2 →
       Main.savedArticles st' = Main.savedArticles st
       ∧ Main.skippedArticles st' = Main.skippedArticles st
       ∧ ErrorCount (stats app') = (ErrorCount (stats app) + 1)%Z).
Proof.
  unfold handleArticle, Main.articleHandler. rewrite Hscraper, Hstore.
  destruct (Scraper.ExtractArticle clock e (scraper app)) as [scraper1 [article|]].
  2:{ cbn [stats storage scraper ProcessedURLs SavedArticles SkippedArticles ErrorCount
           DryRun processed saved skipped failed Main.scraperInstance Main.store
           Main.processedURLs Main.savedArticles Main.skippedArticles fst snd].
      split; [done|]. split; [done|]. split; [lia|]. split; [lia|]. split; [lia|].
      split; intros ? ? [=]. }
  destruct (storage app) as [j fs] eqn:Hst. unfold Exists. cbn [fst snd processed DryRun].
  destruct (DryRun (stats app)) eqn:Hdry; cbn [negb].
  - case_bool_decide as Hdup;
      cbn [stats storage scraper ProcessedURLs SavedArticles SkippedArticles ErrorCount
           DryRun processed saved skipped failed Main.scraperInstance Main.store
           Main.processedURLs Main.savedArticles Main.skippedArticles fst snd];
      (split; [done|]; split; [done|]; split; [lia|]; split; [lia|]; split; [lia|]; split).
    + intros ? ? [= <- <-] _. repeat split; lia.
    + by intros ? ? _ [=].
    + by intros ? ? [= <- <-] Hin.
    + by intros ? ? _ [=].
  - case_bool_decide as Hdup.
    + rewrite Save_duplicate by done.
      cbn [stats storage scraper ProcessedURLs SavedArticles SkippedArticles ErrorCount
           DryRun processed saved skipped failed Main.scraperInstance Main.store
           Main.processedURLs Main.savedArticles Main.skippedArticles fst snd].
      split; [done|]. split; [done|]. split; [lia|]. split; [lia|]. split; [lia|]. split.
      * intros ? ? [= <- <-] _. repeat split; lia.
      * intros ? ? [= <- <-] _ Hs. rewrite Save_duplicate in Hs by done.
        by destruct Hs as [? [=]].
    + destruct (Save env article (j, fs)) as [[j1 fs1] [err|]] eqn:Hsave;
        cbn [stats storage scraper ProcessedURLs SavedArticles SkippedArticles ErrorCount
           DryRun processed saved skipped failed Main.scraperInstance Main.store
           Main.processedURLs Main.savedArticles Main.skippedArticles fst snd];
        (split; [done|]; split; [done|]; split; [lia|]; split; [lia|]; split; [lia|];
         split).
      * by intros ? ? [= <- <-] Hin.
      * intros ? ? [= <- <-] _ _. repeat split; lia.
      * by intros ? ? [= <- <-] Hin.
      * intros ? ? [= <- <-] _ Hs. rewrite Hsave in Hs. by destruct Hs as [? [=]].
Qed.

End WithLibraries.

(** The article page twice and a page without text, in a dry run. *)
Lemma dry_run_leaves_storage_witness :
  storage (@handleArticles Samples.externals Samples.codec Samples.samplePages
             (Samples.app true))
  = (Samples.freshStore, Samples.emptyFS)
  ∧ ErrorCount (stats (@handleArticles Samples.externals Samples.codec
                         Samples.samplePages (Samples.app true))) = 0%Z.
Proof.
  exact (@dry_run_leaves_storage Samples.externals Samples.codec Samples.samplePages
           (Samples.app true) eq_refl).
Defined.

(** The same pages outside a dry run. *)
Lemma saved_counts_new_fingerprints_witness :
  let app' := @handleArticles Samples.externals Samples.codec Samples.samplePages
                (Samples.app false) in
  (Z.of_nat (size (existingHashes (storage app').1))
   - Z.of_nat (size (existingHashes (storage (Samples.app false)).1))
   = SavedArticles (stats app') - SavedArticles (stats (Samples.app false)))%Z.
Proof.
  exact (@saved_counts_new_fingerprints Samples.externals Samples.codec
           Samples.samplePages (Samples.app false) eq_refl).
Defined.

(** The two handlers on the article page, from the start. *)
Lemma main_handler_agrees_witness :
  let app' := @handleArticle Samples.externals Samples.codec
                (Samples.env "20250101_120000") 0%Z Samples.articlePage
                (Samples.app false) in
  let st' := @Main.articleHandler Samples.externals Samples.codec false
               (Samples.env "20250101_120000") 0%Z Samples.articlePage
               Samples.mainState in
  Main.scraperInstance st' = scraper app' ∧ Main.store st' = storage app'.
Proof.
  intros app' st'.
  destruct (@main_handler_agrees Samples.externals Samples.codec
              (Samples.env "20250101_120000") 0%Z Samples.articlePage
              (Samples.app false) Samples.mainState eq_refl eq_refl)
    as (Hs & Hst & _).
  split; [exact Hs|exact Hst].
Defined.

End CrawlerFacts.

(** ** Trimming *)

Module TrimFacts.
Import GoStrings StringFacts ContainsFacts.

Lemma string_rev_app s : ∀ acc, String.rev_app s acc = String.rev s +:+ acc.
Proof.
  unfold String.rev. induction s as [|c s IH]; intros acc; cbn [String.rev_app].
  - by rewrite append_nil_l.
  - rewrite IH, (IH (String c "")), append_assoc. by rewrite append_cons, append_nil_l.
Qed.

Lemma string_rev_cons c s : String.rev (String c s) = String.rev s +:+ String c "".
Proof. unfold String.rev at 1. cbn [String.rev_app]. apply string_rev_app. Qed.

Lemma string_rev_append s t : String.rev (s +:+ t) = String.rev t +:+ String.rev s.
Proof.
  induction s as [|c s IH].
  - rewrite append_nil_l. change (String.rev "") with "". by rewrite append_nil_r.
  - by rewrite append_cons, !string_rev_cons, IH, append_assoc.
Qed.

Lemma string_rev_involutive s : String.rev (String.rev s) = s.
Proof.
  induction s as [|c s IH]; [done|]. rewrite string_rev_cons, string_rev_append, IH. done.
Qed.

Lemma string_length_rev s : String.length (String.rev s) = String.length s.
Proof.
  induction s as [|c s IH]; [done|]. rewrite string_rev_cons, length_append, IH. simpl. lia.
Qed.

Lemma stripRune_None runes s :
  stripRune runes s = None ↔ ∀ r, r ∈ runes → HasPrefix s r = false.
Proof.
  induction runes as [|r runes IH]; cbn [stripRune].
  - split; [|done]. by intros _ r ?%elem_of_nil.
  - destruct (HasPrefix s r) eqn:Hr.
    + split; [done|]. intros Hall. rewrite Hall in Hr; [done|left].
    + rewrite IH. split.
      * intros Hall q [->|Hq]%elem_of_cons; [done|by apply Hall].
      * intros Hall q Hq. apply Hall. by right.
Qed.

Lemma stripRune_Some runes s s' :
  stripRune runes s = Some s' → ∃ r, r ∈ runes ∧ s = r +:+ s'.
Proof.
  induction runes as [|r runes IH]; cbn [stripRune]; [done|].
  destruct (HasPrefix s r) eqn:Hr.
  - intros [= <-]. exists r. split; [left|].
    apply HasPrefix_split in Hr as [rest ->]. by rewrite drop_append_length.
  - intros (q & Hq & ->)%IH. exists q. split; [by right|done].
Qed.

(** A string that starts with no rune of [runes] is left as it is. *)
Lemma trimLeftLoop_clean fuel runes s :
  stripRune runes s = None → trimLeftLoop fuel runes s = s.
Proof. intros Hs. destruct fuel; [done|]. cbn [trimLeftLoop]. by rewrite Hs. Qed.

(** With enough fuel what is left is the end of the input and starts
    with no rune of [runes]. *)
Lemma trimLeftLoop_spec runes : Forall (λ r, r ≠ "") runes → ∀ fuel s,
  String.length s ≤ fuel →
  stripRune runes (trimLeftLoop fuel runes s) = None
  ∧ ∃ front, s = front +:+ trimLeftLoop fuel runes s.
Proof.
  intros Hne. induction fuel as [|fuel IH]; intros s Hlen.
  - assert (s = "") as -> by (destruct s; [done|simpl in Hlen; lia]).
    cbn [trimLeftLoop]. split; [|by exists ""].
    apply stripRune_None. intros r Hr.
    destruct r as [|c r]; [|done]. by apply (proj1 (Forall_forall _ _) Hne) in Hr.
  - cbn [trimLeftLoop]. destruct (stripRune runes s) as [s'|] eqn:Hs.
    + apply stripRune_Some in Hs as (r & Hr & ->).
      apply (proj1 (Forall_forall _ _) Hne) in Hr.
      destruct (IH s') as [Hclean [front Hfront]].
      { rewrite length_append in Hlen. destruct r; [done|]. simpl in Hlen. lia. }
      split; [done|]. exists (r +:+ front). by rewrite append_assoc, <- Hfront.
    + split; [done|]. by exists "".
Qed.

Lemma HasPrefix_app s t r : HasPrefix s r = true → HasPrefix (s +:+ t) r = true.
Proof.
  intros [rest ->]%HasPrefix_split. apply HasPrefix_split. exists (rest +:+ t).
  by rewrite append_assoc.
Qed.

Lemma stripRune_prefix runes s t :
  stripRune runes (s +:+ t) = None → stripRune runes s = None.
Proof.
  rewrite !stripRune_None. intros Hall r Hr. specialize (Hall r Hr).
  destruct (HasPrefix s r) eqn:Hs; [|done]. by rewrite (HasPrefix_app s t r) in Hall.
Qed.

Lemma spaceRunes_nonempty : Forall (λ r, r ≠ "") spaceRunes.
Proof. unfold spaceRunes. repeat constructor; done. Qed.

Lemma spaceRunes_rev_nonempty : Forall (λ r, r ≠ "") (String.rev <$> spaceRunes).
Proof. unfold spaceRunes. repeat constructor; done. Qed.

(** What [TrimSpace] returns starts and ends with no space, and is a
    part of its argument. *)
Lemma TrimSpace_spec s :
  stripRune spaceRunes (TrimSpace s) = None
  ∧ stripRune (String.rev <$> spaceRunes) (String.rev (TrimSpace s)) = None
  ∧ ∃ front back, s = front +:+ TrimSpace s +:+ back.
Proof.
  unfold TrimSpace, TrimLeftSpace, TrimRightSpace.
  destruct (trimLeftLoop_spec spaceRunes spaceRunes_nonempty (String.length s) s)
    as [Hleft [front Hfront]]; [done|].
  set (t := trimLeftLoop (String.length s) spaceRunes s) in *.
  destruct (trimLeftLoop_spec _ spaceRunes_rev_nonempty (String.length t) (String.rev t))
    as [Hright [back Hback]]; [by rewrite string_length_rev|].
  set (w := trimLeftLoop (String.length t) (String.rev <$> spaceRunes) (String.rev t)) in *.
  assert (t = String.rev w +:+ String.rev back) as Ht.
  { rewrite <- string_rev_append, <- Hback. by rewrite string_rev_involutive. }
  split; [|split].
  - rewrite Ht in Hleft. by apply stripRune_prefix in Hleft.
  - by rewrite string_rev_involutive.
  - exists front, (String.rev back). by rewrite <- Ht.
Qed.

Lemma TrimSpace_clean s :
  stripRune spaceRunes s = None →
  stripRune (String.rev <$> spaceRunes) (String.rev s) = None →
  TrimSpace s = s.
Proof.
  intros Hl Hr. unfold TrimSpace, TrimLeftSpace, TrimRightSpace.
  rewrite (trimLeftLoop_clean _ _ s) by done.
  rewrite trimLeftLoop_clean by done. apply string_rev_involutive.
Qed.

Lemma TrimSpace_idempotent s : TrimSpace (TrimSpace s) = TrimSpace s.
Proof. destruct (TrimSpace_spec s) as (Hl & Hr & _). by apply TrimSpace_clean. Qed.

End TrimFacts.

(** ** Clean text and extracted articles *)

Module CleanTextFacts.
Import GoStrings StringFacts TrimFacts Models Scraper.

Lemma collapseSpace_collapsed s : ∀ b, collapsedFrom b (collapseSpace b s) = true.
Proof.
  induction s as [|c s IH]; intros b; [done|]. cbn [collapseSpace].
  destruct (isReSpace c) eqn:Hc.
  - destruct b; [apply IH|]. cbn [collapsedFrom].
    replace (isReSpace " ") with true by (by vm_compute). by rewrite IH.
  - cbn [collapsedFrom]. rewrite Hc. apply IH.
Qed.

Lemma collapsed_fixed s : ∀ b, collapsedFrom b s = true → collapseSpace b s = s.
Proof.
  induction s as [|c s IH]; intros b; [done|]. cbn [collapseSpace collapsedFrom].
  destruct (isReSpace c).
  - intros [[->%Ascii.eqb_eq Hb%negb_true_iff]%andb_prop Hs]%andb_prop. subst b.
    by rewrite IH.
  - intros Hs. by rewrite IH.
Qed.

Lemma collapsed_weaken s : collapsedFrom true s = true → collapsedFrom false s = true.
Proof.
  destruct s as [|c s]; [done|]. cbn [collapsedFrom]. destruct (isReSpace c); [|done].
  by rewrite andb_false_r.
Qed.

Lemma collapsed_prefix s t : ∀ b,
  collapsedFrom b (s +:+ t) = true → collapsedFrom b s = true.
Proof.
  induction s as [|c s IH]; intros b; [done|]. rewrite append_cons.
  cbn [collapsedFrom]. destruct (isReSpace c); [|apply IH].
  intros [-> Hs%IH]%andb_prop. done.
Qed.

Lemma collapsed_suffix s t : ∀ b,
  collapsedFrom b (s +:+ t) = true → collapsedFrom false t = true.
Proof.
  induction s as [|c s IH]; intros b.
  - rewrite append_nil_l. destruct b; [apply collapsed_weaken|done].
  - rewrite append_cons. cbn [collapsedFrom]. destruct (isReSpace c); [|apply IH].
    intros [_ Hs%IH]%andb_prop. done.
Qed.

(** X16. What [cleanText] returns is in normal form: it holds no whitespace
    of the class [\s] but single blanks, it starts and ends with no
    space, and cleaning it again changes nothing.  The function
    [NormalizeWhitespace] of the content processor is the same
    computation. *)
Theorem cleanText_normal_form (text : string) :
  collapsedFrom false (cleanText text) = true
  ∧ stripRune spaceRunes (cleanText text) = None
  ∧ stripRune (String.rev <$> spaceRunes) (String.rev (cleanText text)) = None
  ∧ cleanText (cleanText text) = cleanText text.
Proof.
  unfold cleanText at 1 2 3 5.
  destruct (TrimSpace_spec (collapseSpace false text)) as (Hl & Hr & front & back & Hc).
  assert (collapsedFrom false (TrimSpace (collapseSpace false text)) = true) as Hu.
  { pose proof (collapseSpace_collapsed text false) as Hcol. rewrite Hc in Hcol.
    apply collapsed_suffix in Hcol. by apply collapsed_prefix in Hcol. }
  split; [done|]. split; [done|]. split; [done|].
  unfold cleanText. rewrite (collapsed_fixed _ _ Hu). apply TrimSpace_idempotent.
Qed.

End CleanTextFacts.

Module ArticleFacts.
Import GoStrings StringFacts TrimFacts CleanTextFacts Models Scraper VisitedFacts.

Lemma TrimSpace_empty : TrimSpace "" = "".
Proof. reflexivity. Qed.

Lemma titleFromSelectors_trimmed e selectors title :
  titleFromSelectors e selectors = Some title → TrimSpace title = title.
Proof.
  induction selectors as [|selector rest IH]; cbn [titleFromSelectors]; [done|].
  case_bool_decide; [|exact IH]. intros [= <-]. apply TrimSpace_idempotent.
Qed.

(** The title that [extractTitle] returns has no space at its ends. *)
Lemma extractTitle_trimmed s e : TrimSpace (extractTitle s e) = extractTitle s e.
Proof.
  unfold extractTitle.
  destruct (titleFromSelectors e _) as [title|] eqn:Ht;
    [by eapply titleFromSelectors_trimmed|].
  case_bool_decide; [|done].
  destruct (Split _ "|") as [|part0 parts]; [apply TrimSpace_idempotent|].
  case_bool_decide; apply TrimSpace_idempotent.
Qed.

Section WithExternals.
Context `{Externals}.

(** X17. [ExtractArticle] returns an article exactly for a URL that was not
    visited, is an article page and has a title and a content.  The
    article carries the URL of the page, the title that [extractTitle]
    found, which is not empty, a content that is not empty, the plain
    text and the word count of that content, the time of the call, and
    as fingerprint the digest of its title followed by its plain text;
    it becomes the last article of the scraper. *)
Theorem ExtractArticle_postcondition (now : Time) (e : HTMLElement) (s : Scraper) :
  (is_Some (ExtractArticle now e s).2
   ↔ (RequestURL e ∉ visitedURLs s)
     ∧ URLFilter.IsArticlePage (urlFilter s) (RequestURL e) = true
     ∧ extractTitle s e ≠ "" ∧ extractContent s e ≠ "")
  ∧ ∀ s' article, ExtractArticle now e s = (s', Some article) →
      URL article = RequestURL e
      ∧ Title article = extractTitle s e ∧ Title article ≠ ""
      ∧ Content article = extractContent s e ∧ Content article ≠ ""
      ∧ PlainText article = htmlToPlainText (Content article)
      ∧ WordCount article = calculateWordCount (PlainText article)
      ∧ Author article = extractAuthor s e
      ∧ PublishedDate article = extractPublishedDate s e
      ∧ ScrapedAt article = now
      ∧ ContentHash article = md5_hex (Title article +:+ PlainText article)
      ∧ GetArticles s' = GetArticles s ++ [article]
      ∧ GetArticleCount s' = S (GetArticleCount s).
Proof.
  unfold ExtractArticle, URLFilter.ShouldExtractContent.
  cbn [config urlFilter articles visitedURLs].
  change (extractTitle {| config := config s; articles := articles s;
            visitedURLs := {[RequestURL e]} ∪ visitedURLs s; urlFilter := urlFilter s |} e)
    with (extractTitle s e).
  change (extractContent {| config := config s; articles := articles s;
            visitedURLs := {[RequestURL e]} ∪ visitedURLs s; urlFilter := urlFilter s |} e)
    with (extractContent s e).
  change (extractAuthor {| config := config s; articles := articles s;
            visitedURLs := {[RequestURL e]} ∪ visitedURLs s; urlFilter := urlFilter s |} e)
    with (extractAuthor s e).
  change (extractPublishedDate {| config := config s; articles := articles s;
            visitedURLs := {[RequestURL e]} ∪ visitedURLs s; urlFilter := urlFilter s |} e)
    with (extractPublishedDate s e).
  case_bool_decide as Hv;
    [split; [|done]; cbn [snd]; rewrite is_Some_alt; naive_solver|].
  destruct (URLFilter.IsArticlePage (urlFilter s) (RequestURL e)) eqn:Hpage; cbn [negb];
    [|split; [|done]; cbn [snd]; rewrite is_Some_alt; naive_solver].
  case_bool_decide as Ht;
    [split; [|done]; cbn [snd]; rewrite is_Some_alt; naive_solver|].
  case_bool_decide as Hc;
    [split; [|done]; cbn [snd]; rewrite is_Some_alt; naive_solver|].
  split; [cbn [snd]; rewrite is_Some_alt; naive_solver|].
  intros s' article [= <- <-].
  cbn [URL Title Content PlainText WordCount Author PublishedDate ScrapedAt ContentHash].
  unfold GetArticles, GetArticleCount, generateContentHash. cbn [articles].
  rewrite extractTitle_trimmed, length_app. cbn [length].
  repeat split; try done. lia.
Qed.

(** The articles of the scraper carry different URLs, all of them
    visited, as long as they did at the start. *)
Lemma articles_distinct_step now e s :
  NoDup (URL <$> articles s) → (∀ a, a ∈ articles s → URL a ∈ visitedURLs s) →
  let s' := (ExtractArticle now e s).1 in
  NoDup (URL <$> articles s') ∧ ∀ a, a ∈ articles s' → URL a ∈ visitedURLs s'.
Proof.
  intros Hnd Hvis. pose proof (ExtractArticle_step now e s) as Hstep.
  destruct (ExtractArticle now e s) as [s' [a|]]; cbn [fst].
  - destruct Hstep as (Hv & Ha & Hurl & Hnew). rewrite Ha, Hv, fmap_app.
    cbn [fmap list_fmap]. split.
    + apply NoDup_app. split; [done|]. split; [|apply NoDup_singleton].
      intros u (b & Hu & Hb)%list_elem_of_fmap Hin%list_elem_of_singleton.
      apply Hnew. rewrite <- Hurl, <- Hin, Hu. by apply Hvis.
    + intros b [Hb|[->|[]%elem_of_nil]%elem_of_cons]%elem_of_app.
      * apply elem_of_union_r. by apply Hvis.
      * apply elem_of_union_l. rewrite Hurl. by apply elem_of_singleton.
  - destruct Hstep as (Hv & Ha). rewrite Ha, Hv. split; [done|].
    intros b Hb. apply elem_of_union_r. by apply Hvis.
Qed.

(** X18. After any sequence of calls on a new scraper, the list of articles
    is the list of the articles the calls returned, in order; its length
    is [GetArticleCount]; no two of them carry the same URL, and the URL
    of each is in the visited set. *)
Theorem articles_are_the_results (calls : list (Time * HTMLElement)) (cfg : Config) :
  let s' := (extractAll calls (NewScraper cfg)).1 in
  let results := (extractAll calls (NewScraper cfg)).2 in
  GetArticles s' = omap id results
  ∧ GetArticleCount s' = length (omap id results)
  ∧ NoDup (URL <$> GetArticles s')
  ∧ ∀ article, article ∈ GetArticles s' → URL article ∈ visitedURLs s'.
Proof.
  assert (∀ s,
    articles (extractAll calls s).1 = articles s ++ omap id (extractAll calls s).2
    ∧ (NoDup (URL <$> articles s) → (∀ a, a ∈ articles s → URL a ∈ visitedURLs s) →
       NoDup (URL <$> articles (extractAll calls s).1)
       ∧ ∀ a, a ∈ articles (extractAll calls s).1
              → URL a ∈ visitedURLs (extractAll calls s).1)) as Hall.
  { induction calls as [|[now e] calls IH]; intros s; cbn [extractAll].
    { cbn [fst snd omap list_omap]. by rewrite app_nil_r. }
    pose proof (ExtractArticle_step now e s) as Hstep.
    pose proof (articles_distinct_step now e s) as Hinv.
    destruct (ExtractArticle now e s) as [s1 r]. cbn [fst] in Hinv.
    specialize (IH s1). destruct (extractAll calls s1) as [s2 rs]. cbn [fst snd] in *.
    destruct IH as [Hart Hkeep]. split.
    - rewrite Hart. destruct r as [a|]; cbn [omap list_omap id].
      + destruct Hstep as (_ & -> & _). cbn [mbind option_bind]. by rewrite <- app_assoc.
      + destruct Hstep as (_ & ->). done.
    - intros Hnd Hvis. destruct (Hinv Hnd Hvis) as [Hnd1 Hvis1]. by apply Hkeep. }
  destruct (Hall (NewScraper cfg)) as [Hart Hinv]. cbv zeta.
  unfold GetArticles, GetArticleCount.
  destruct Hinv as [Hnd Hvis]; [constructor|by intros a ?%elem_of_nil|].
  rewrite Hart in *. cbn [NewScraper articles app] in *. done.
Qed.

End WithExternals.
End ArticleFacts.

(** ** The storage factory *)

Module FactoryFacts.
Import GoStrings Models Factory.

Section WithLibraries.
Context `{Unicode} `{Storage.JSON}.

(** X19. A configuration that [ValidateStorageConfig] accepts names an output
    file and the format [jsonl], in any case of letters, and a backup
    directory and a retention of one file or more when backups are
    enabled; [NewStorage] then never reports a format and returns what
    [NewJSONLStorage] returns. *)
Theorem validated_config_opens_jsonl_store (env : Storage.IOEnv) (config : Config)
    (fs : Storage.FS) (Hvalid : ValidateStorageConfig config = None) :
  strings_ToLower (OutputFormat (Storage config)) = "jsonl"
  ∧ Models.OutputFile (Storage config) ≠ ""
  ∧ (BackupEnabled (Storage config) = true →
       BackupDirectory (Storage config) ≠ "" ∧ 1 ≤ MaxBackupFiles (Storage config))
  ∧ NewStorage env config fs
    = match Storage.NewJSONLStorage env config fs with
      | Storage.Ok j => inl j
      | Storage.Fail e => inr (ErrStorage e)
      end.
Proof.
  unfold ValidateStorageConfig in Hvalid.
  destruct (String.eqb (Models.OutputFile (Storage config)) "") eqn:Hfile; [done|].
  apply String.eqb_neq in Hfile. cbn [existsb] in Hvalid. rewrite orb_false_r in Hvalid.
  destruct (String.eqb (strings_ToLower (OutputFormat (Storage config))) "jsonl")
    eqn:Hformat; [|done].
  cbn [negb] in Hvalid. split; [by apply String.eqb_eq|]. split; [done|]. split.
  - intros Hbackup. rewrite Hbackup in Hvalid.
    destruct (String.eqb (BackupDirectory (Storage config)) "") eqn:Hdir; [done|].
    apply String.eqb_neq in Hdir. split; [done|].
    destruct (MaxBackupFiles (Storage config) <=? 0) eqn:Hmax; [done|].
    apply Nat.leb_gt in Hmax. lia.
  - unfold NewStorage. by rewrite Hformat.
Qed.

(** X20. [NewStorage] itself looks at the format alone: it returns a store
    only for the format [jsonl], and then the store that
    [NewJSONLStorage] builds, with the storage settings of the
    configuration as they are. *)
Theorem NewStorage_checks_format_only (env : Storage.IOEnv) (config : Config)
    (fs : Storage.FS) (j : Storage.JSONLStorage)
    (Hstore : NewStorage env config fs = inl j) :
  strings_ToLower (OutputFormat (Storage config)) = "jsonl"
  ∧ Storage.NewJSONLStorage env config fs = Storage.Ok j
  ∧ Storage.config j = Storage config
  ∧ Storage.outputFile j = Models.OutputFile (Storage config).
Proof.
  unfold NewStorage in Hstore.
  destruct (String.eqb (strings_ToLower (OutputFormat (Storage config))) "jsonl")
    eqn:Hformat.
  2:{ by repeat case_match. }
  split; [by apply String.eqb_eq|].
  destruct (Storage.NewJSONLStorage env config fs) as [j'|e] eqn:Hnew; [|done].
  injection Hstore as ->. split; [done|].
  unfold Storage.NewJSONLStorage, Storage.loadExistingHashes in Hnew.
  repeat case_match; simplify_eq; done.
Qed.

End WithLibraries.

(** The format in capitals. *)
Lemma validated_config_opens_jsonl_store_witness :
  @strings_ToLower Samples.unicode (OutputFormat (Storage Samples.capitalsConfig)) = "jsonl"
  ∧ @NewStorage Samples.unicode Samples.codec (Samples.env "20250101_120000")
      Samples.capitalsConfig Samples.emptyFS
    = inl {| Storage.config := Storage Samples.capitalsConfig;
             Storage.outputFile := "data/articles.jsonl";
             Storage.existingHashes := ∅ |}.
Proof.
  destruct (@validated_config_opens_jsonl_store Samples.unicode Samples.codec
              (Samples.env "20250101_120000") Samples.capitalsConfig Samples.emptyFS)
    as (Hformat & _ & _ & Hnew).
  - vm_compute. reflexivity.
  - split; [exact Hformat|]. rewrite Hnew. reflexivity.
Defined.

(** A configuration without an output file: [NewStorage] returns a store
    that [ValidateStorageConfig] would refuse. *)
Lemma NewStorage_checks_format_only_witness :
  let config := {| Target := Target Samples.config; Selectors := Selectors Samples.config;
                   Storage := {| OutputFormat := "jsonl"; OutputFile := "";
                                 BackupEnabled := false; BackupDirectory := "";
                                 MaxBackupFiles := 0 |} |} in
  @ValidateStorageConfig Samples.unicode config = Some ErrOutputFileRequired
  ∧ ∃ j, @NewStorage Samples.unicode Samples.codec (Samples.env "20250101_120000")
           config Samples.emptyFS = inl j
         ∧ Storage.outputFile j = "".
Proof.
  intros config. split; [reflexivity|].
  eexists. split; [reflexivity|].
  refine (proj2 (proj2 (proj2 (@NewStorage_checks_format_only Samples.unicode Samples.codec
            (Samples.env "20250101_120000") config Samples.emptyFS _ eq_refl)))).
Defined.

End FactoryFacts.

(** ** Exclusion patterns and the classes of URLs *)

Module PatternFacts.
Import GoStrings StringFacts ContainsFacts Models.

Lemma Split_nonempty s sep : Split s sep ≠ [].
Proof.
  induction s as [|c s IH]; [done|]. cbn [Split].
  destruct (Ascii.eqb c sep); [done|]. by destruct (Split s sep).
Qed.

Lemma length_Split s sep : length (Split s sep) = S (countByte sep s).
Proof.
  induction s as [|c s IH]; [done|]. cbn [Split countByte].
  destruct (Ascii.eqb c sep); cbn [length]; [by rewrite IH|].
  pose proof (Split_nonempty s sep). destruct (Split s sep); [done|]. exact IH.
Qed.

Lemma Split_none s sep : countByte sep s = 0 → Split s sep = [s].
Proof.
  induction s as [|c s IH]; [done|]. cbn [Split countByte].
  destruct (Ascii.eqb c sep); [done|]. intros Hs. by rewrite IH.
Qed.

Lemma Split_once front back sep :
  countByte sep front = 0 → countByte sep back = 0 →
  Split (front +:+ String sep back) sep = [front; back].
Proof.
  intros Hf Hb. induction front as [|c front IH].
  - rewrite append_nil_l. cbn [Split]. by rewrite Ascii.eqb_refl, Split_none.
  - rewrite append_cons. cbn [Split countByte] in *.
    destruct (Ascii.eqb c sep); [done|]. by rewrite IH.
Qed.

Lemma prefix_cons a s c t :
  String.prefix (String a s) (String c t)
  = if Ascii.ascii_dec a c then String.prefix s t else false.
Proof. reflexivity. Qed.

Lemma Contains_byte s c : Contains s (String c "") = negb (countByte c s =? 0).
Proof.
  induction s as [|d s IH]; [done|]. rewrite Contains_cons, IH.
  unfold HasPrefix. cbn [String.prefix countByte].
  destruct (Ascii.ascii_dec c d) as [->|Hne].
  - rewrite Ascii.eqb_refl. by destruct s.
  - assert (Ascii.eqb d c = false) as -> by (apply Ascii.eqb_neq; congruence). done.
Qed.

Lemma countByte_append c s t : countByte c (s +:+ t) = countByte c s + countByte c t.
Proof.
  induction s as [|d s IH]; [done|]. rewrite append_cons. cbn [countByte].
  rewrite IH. lia.
Qed.

Lemma matchesPattern_one_star url front back :
  countByte "*" front = 0 → countByte "*" back = 0 →
  Collector.matchesPattern url (front +:+ "*" +:+ back)
  = HasPrefix url front && HasSuffix url back.
Proof.
  intros Hf Hb. unfold Collector.matchesPattern.
  change ("*" +:+ back) with (String "*" back).
  rewrite Contains_byte, countByte_append. cbn [countByte]. rewrite Ascii.eqb_refl.
  replace (countByte "*" front + (1 + countByte "*" back) =? 0) with false
    by (symmetry; apply Nat.eqb_neq; lia).
  cbn [negb]. by rewrite Split_once.
Qed.

Lemma matchesPattern_literal url pattern :
  countByte "*" pattern ≠ 1 →
  Collector.matchesPattern url pattern = Contains url pattern.
Proof.
  intros Hstars. unfold Collector.matchesPattern.
  destruct (Contains pattern "*"); [|done].
  pose proof (length_Split pattern "*") as Hlen.
  destruct (Split pattern "*") as [|p0 [|p1 [|p2 ps]]]; try done.
  cbn [length] in Hlen. lia.
Qed.

(** X21. How [matchesPattern] reads a pattern, by the number of its stars:
    with one star the URL has to begin with what is before the star and
    to end with what is after it; without a star, and with two stars or
    more, the pattern is looked up in the URL as it is written, stars
    included.  The collector and the scraper carry the same function. *)
Theorem matchesPattern_by_stars (url : string) :
  (∀ front back,
     countByte "*" front = 0 → countByte "*" back = 0 →
     Collector.matchesPattern url (front +:+ "*" +:+ back)
     = HasPrefix url front && HasSuffix url back)
  ∧ (∀ pattern,
       countByte "*" pattern ≠ 1 →
       Collector.matchesPattern url pattern = Contains url pattern)
  ∧ (∀ pattern,
       Scraper.matchesPattern url pattern = Collector.matchesPattern url pattern).
Proof.
  split; [apply matchesPattern_one_star|]. split; [apply matchesPattern_literal|done].
Qed.

(** X22. An exclusion pattern that is a path followed by a star, such as
    [/tags/*], matches only URLs that begin with that path: a URL that
    does not begin with a slash, and so every URL with a scheme, passes
    it. *)
Theorem path_pattern_misses_absolute_URL (url path : string)
    (Hpath : countByte "*" path = 0) (Hscheme : HasPrefix url "/" = false) :
  Collector.matchesPattern url ("/" +:+ path +:+ "*") = false.
Proof.
  change ("/" +:+ path +:+ "*") with (String "/" path +:+ "*" +:+ "").
  rewrite matchesPattern_one_star; [|exact Hpath|reflexivity].
  apply andb_false_iff. left. unfold HasPrefix in *. cbn [String.prefix] in *.
  destruct url as [|c url]; [done|]. rewrite prefix_cons in *.
  destruct (Ascii.ascii_dec "/" c); [by destruct url|done].
Qed.

(** A page under [/tags/] of the target site: the pattern [/tags/*] of
    the configuration does not exclude it. *)
Lemma path_pattern_misses_absolute_URL_witness :
  Collector.matchesPattern "https://yamada-tech-memo.netlify.app/tags/go/" "/tags/*" = false
  ∧ "/tags/*" ∈ ExcludePatterns (Target Samples.config)
  ∧ Collector.IsAllowedURL Samples.config
      "https://yamada-tech-memo.netlify.app/tags/go/" = true.
Proof.
  split; [|split].
  - apply (path_pattern_misses_absolute_URL
             "https://yamada-tech-memo.netlify.app/tags/go/" "tags/");
      reflexivity.
  - cbn. in_list.
  - vm_compute. reflexivity.
Defined.

End PatternFacts.

Module ClassifierFacts.
Import GoStrings StringFacts Regexp RegexpFacts URLFilter URLFilterFacts.

Lemma lastByte_split s c : lastByte s = Some c → ∃ front, s = front +:+ String c "".
Proof.
  induction s as [|d s IH]; [done|]. cbn [lastByte]. destruct s as [|e s].
  - intros [= ->]. by exists "".
  - intros (front & ->)%IH. by exists (String d front).
Qed.

Lemma IsArticlePage_ends_with_slash url :
  IsArticlePage NewURLFilter url = true → lastByte url = Some "/"%char.
Proof.
  unfold IsArticlePage. destruct (anyMatch (excludePatterns NewURLFilter) url); [done|].
  destruct (anyMatch (articlePatterns NewURLFilter) url) eqn:Hm; [|done]. intros _.
  apply anyMatch_true in Hm as (p & Hp & Hm). cbn [articlePatterns NewURLFilter] in Hp.
  repeat (apply elem_of_cons in Hp as [->|Hp]); [..|by apply elem_of_nil in Hp];
    match type of Hm with
    | MatchString ?p _ = true =>
        let r := compiled p in
        apply (MatchString_ends_with "/" p r);
          [vm_compute; reflexivity|vm_compute; tail_found|exact Hm]
    end.
Qed.

(** X23. The classifier and the trailing slash: a URL is a list page exactly
    when it ends in a slash (the third list pattern subsumes the other
    two), links are followed exactly from such URLs, an article page ends
    in a slash, and so the type of a URL is [other] exactly when the URL
    does not end in a slash. *)
Theorem classification_by_trailing_slash (url : string) :
  (∀ uf, IsListPage uf url = true ↔ lastByte url = Some "/"%char)
  ∧ (ShouldFollowLinks NewURLFilter url = true ↔ lastByte url = Some "/"%char)
  ∧ (IsArticlePage NewURLFilter url = true → lastByte url = Some "/"%char)
  ∧ (GetURLType NewURLFilter url = "other" ↔ lastByte url ≠ Some "/"%char).
Proof.
  assert (∀ uf, IsListPage uf url = true ↔ lastByte url = Some "/"%char) as Hlist.
  { intros uf. split; [apply IsListPage_ends_with_slash|].
    intros (front & ->)%lastByte_split. unfold IsListPage. apply anyMatch_true.
    exists "/$". split; [unfold listPatterns; in_list|].
    let r := compiled "/$" in apply (MatchString_suffix _ r); vm_compute; reflexivity. }
  split; [exact Hlist|]. split; [|split; [apply IsArticlePage_ends_with_slash|]].
  - unfold ShouldFollowLinks. rewrite orb_true_iff, Hlist. split; [|by left].
    intros [?|?%IsArticlePage_ends_with_slash]; done.
  - unfold GetURLType. destruct (IsArticlePage NewURLFilter url) eqn:Ha.
    { apply IsArticlePage_ends_with_slash in Ha. split; [done|]. intros Hno. done. }
    destruct (IsListPage NewURLFilter url) eqn:Hl.
    + apply Hlist in Hl. split; [done|]. intros Hno. done.
    + split; [|done]. intros _ Hyes%(Hlist NewURLFilter). congruence.
Qed.

End ClassifierFacts.

(** ** Numbered list pages *)

Module PaginationFacts.
Import GoStrings StringFacts Regexp RegexpFacts URLFilter URLFilterFacts.

Lemma matchK_lit t r : ∀ s k,
  matchK (lit t r) s k = true ↔ ∃ s', s = t +:+ s' ∧ matchK r s' k = true.
Proof.
  induction t as [|c t IH]; intros s k; cbn [lit].
  - split; [intros Hm; by exists s|]. by intros (s' & -> & Hm).
  - cbn [matchK]. destruct s as [|d s].
    + split; [done|]. by intros (s' & [=] & _).
    + rewrite andb_true_iff, IH, Ascii.eqb_eq. split.
      * intros [-> (s' & -> & Hm)]. by exists s'.
      * intros (s' & Hs & Hm). rewrite append_cons in Hs. injection Hs as -> ->.
        split; [done|]. by exists s'.
Qed.

(** What a starred class of bytes consumes. *)
Lemma star_digit_inv k : ∀ fuel s,
  (fix iter (fuel : nat) (s : string) : bool :=
     k s
     || match fuel with
        | O => false
        | S fuel' =>
            matchK Digit s
              (λ s', (String.length s' <? String.length s)%nat && iter fuel' s')
        end) fuel s = true →
  ∃ ds rest, s = ds +:+ rest ∧ allBytes isDigit ds = true ∧ k rest = true.
Proof.
  induction fuel as [|fuel IH]; intros s.
  - rewrite orb_false_r. intros Hk. by exists "", s.
  - intros [Hk|Hm]%orb_prop; [by exists "", s|]. cbn [matchK] in Hm.
    destruct s as [|d s]; [done|].
    apply andb_prop in Hm as [Hd [_ Hm]%andb_prop].
    apply IH in Hm as (ds & rest & -> & Hds & Hk).
    exists (String d ds), rest. cbn [allBytes]. by rewrite Hd, Hds.
Qed.

Lemma star_notchr_intro c k x : ∀ fuel s,
  allBytes (λ d, negb (Ascii.eqb d c)) x = true → k s = true →
  String.length (x +:+ s) ≤ fuel →
  (fix iter (fuel : nat) (s : string) : bool :=
     k s
     || match fuel with
        | O => false
        | S fuel' =>
            matchK (NotChr c) s
              (λ s', (String.length s' <? String.length s)%nat && iter fuel' s')
        end) fuel (x +:+ s) = true.
Proof.
  induction x as [|d x IH]; intros fuel s Hx Hk Hfuel.
  - rewrite append_nil_l. destruct fuel; by rewrite Hk.
  - rewrite append_cons in *. cbn [allBytes] in Hx. apply andb_prop in Hx as [Hd Hx].
    destruct fuel as [|fuel]; [simpl in Hfuel; lia|].
    apply orb_true_intro. right. cbn [matchK]. rewrite Hd. cbn [andb].
    apply andb_true_intro. split; [apply Nat.ltb_lt; simpl; lia|].
    apply IH; [done..|]. simpl in Hfuel. lia.
Qed.

Lemma plus_digit_inv s k :
  matchK (plus Digit) s k = true →
  ∃ ds rest, s = ds +:+ rest ∧ ds ≠ "" ∧ allBytes isDigit ds = true ∧ k rest = true.
Proof.
  unfold plus. cbn [matchK]. destruct s as [|d s]; [done|].
  intros [Hd Hm]%andb_prop. apply star_digit_inv in Hm as (ds & rest & -> & Hds & Hk).
  exists (String d ds), rest. cbn [allBytes]. by rewrite Hd, Hds.
Qed.

Lemma plus_notchr_intro c x s k :
  x ≠ "" → allBytes (λ d, negb (Ascii.eqb d c)) x = true → k s = true →
  matchK (plus (NotChr c)) (x +:+ s) k = true.
Proof.
  intros Hne Hx Hk. destruct x as [|d x]; [done|]. rewrite append_cons.
  cbn [allBytes] in Hx. apply andb_prop in Hx as [Hd Hx].
  unfold plus. cbn [matchK]. rewrite Hd. cbn [andb].
  by apply star_notchr_intro.
Qed.

Lemma digits_without_slash ds :
  allBytes isDigit ds = true → allBytes (λ d, negb (Ascii.eqb d "/")) ds = true.
Proof.
  induction ds as [|d ds IH]; [done|]. cbn [allBytes].
  intros [Hd Hds]%andb_prop. rewrite IH by done. rewrite andb_true_r.
  destruct (Ascii.eqb d "/") eqn:Heq; [|done]. apply Ascii.eqb_eq in Heq. by subst d.
Qed.

(** Text that the pattern of the numbered list pages matches is matched
    by the third article pattern as well: the word [page] and the number
    are two segments without a slash. *)
Lemma list_page_matches_article_pattern url :
  MatchString "/posts/page/\d+/$" url = true →
  MatchString "/posts/[^/]+/[^/]+/$" url = true.
Proof.
  unfold MatchString.
  assert (Compile "/posts/page/\d+/$"
          = Some (lit "/posts/page/" (Seq (plus Digit) (lit "/" EndText)))) as ->
    by (vm_compute; reflexivity).
  assert (Compile "/posts/[^/]+/[^/]+/$"
          = Some (lit "/posts/"
                    (Seq (plus (NotChr "/"))
                       (lit "/" (Seq (plus (NotChr "/")) (lit "/" EndText)))))) as ->
    by (vm_compute; reflexivity).
  intros (front & rest & -> & Hm)%search_split. apply search_app.
  unfold matchHere in Hm. apply matchK_lit in Hm as (s1 & -> & Hm).
  cbn [matchK] in Hm. apply plus_digit_inv in Hm as (ds & s2 & -> & Hne & Hds & Hm).
  apply matchK_lit in Hm as (s3 & -> & Hm). cbn [matchK] in Hm.
  destruct s3; [|done].
  assert (search (lit "/posts/"
                    (Seq (plus (NotChr "/"))
                       (lit "/" (Seq (plus (NotChr "/")) (lit "/" EndText)))))
            ("/posts/" +:+ "page" +:+ "/" +:+ ds +:+ "/") = true) as Hgoal.
  { destruct ("/posts/" +:+ "page" +:+ "/" +:+ ds +:+ "/") as [|c0 s0] eqn:Hs;
      [by destruct ds|].
    rewrite <- Hs. clear Hs.
    assert (∀ r s, matchHere r s = true → search r s = true) as Hhere.
    { intros r s Hr. destruct s; cbn [search]; by rewrite Hr. }
    apply Hhere. unfold matchHere. apply matchK_lit. eexists. split; [reflexivity|].
    cbn [matchK]. apply plus_notchr_intro; [done|by vm_compute|].
    apply matchK_lit. eexists. split; [reflexivity|]. cbn [matchK].
    apply plus_notchr_intro; [done|by apply digits_without_slash|].
    apply matchK_lit. exists "". split; [by rewrite append_nil_r|]. done. }
  exact Hgoal.
Qed.

(** X24. A numbered list page, such as [/posts/page/2/], that no exclusion
    pattern matches is classified as an article: it is a list page and
    an article page at once, and [GetURLType] asks for the article
    first, so [ExtractArticle] does not skip it. *)
Theorem numbered_list_page_is_article (url : string)
    (Hpage : MatchString "/posts/page/\d+/$" url = true)
    (Hkept : anyMatch (excludePatterns NewURLFilter) url = false) :
  IsListPage NewURLFilter url = true
  ∧ IsArticlePage NewURLFilter url = true
  ∧ ShouldExtractContent NewURLFilter url = true
  ∧ GetURLType NewURLFilter url = "article".
Proof.
  assert (IsArticlePage NewURLFilter url = true) as Hart.
  { unfold IsArticlePage. rewrite Hkept.
    assert (anyMatch (articlePatterns NewURLFilter) url = true) as ->; [|done].
    apply anyMatch_true. exists "/posts/[^/]+/[^/]+/$".
    split; [cbn; in_list|by apply list_page_matches_article_pattern]. }
  split; [|split; [done|split; [done|]]].
  - unfold IsListPage. apply anyMatch_true. exists "/posts/page/\d+/$".
    split; [unfold listPatterns; in_list|done].
  - unfold GetURLType. by rewrite Hart.
Qed.

(** The second list page of the target site. *)
Lemma numbered_list_page_is_article_witness :
  GetURLType NewURLFilter "https://yamada-tech-memo.netlify.app/posts/page/2/" = "article".
Proof.
  refine (proj2 (proj2 (proj2 (numbered_list_page_is_article
            "https://yamada-tech-memo.netlify.app/posts/page/2/" _ _)))).
  - vm_compute. reflexivity.
  - vm_compute. reflexivity.
Defined.

End PaginationFacts.

(** ** Construction and round trip; the statements on the sample data *)

Module ConstructionFacts.
Import GoStrings StringFacts Models Storage StorageFacts StorageTheorems RestartFacts.

Section WithJSON.
Context `{JSON}.

(** X25. [NewJSONLStorage] fails only when a directory cannot be made.  What
    the output file holds never makes it fail: the index of the store is
    the set of the fingerprints that [Load] returns, and it is empty when
    [Load] fails. *)
Theorem NewJSONLStorage_result (env : IOEnv) (cfg : Config) (fs : FS) :
  ((∃ j, NewJSONLStorage env cfg fs = Ok j)
   ↔ mkdirFails env (OutputFile (Models.Storage cfg)) = false
     ∧ (BackupEnabled (Models.Storage cfg) = true →
        mkdirFails env (BackupDirectory (Models.Storage cfg)) = false))
  ∧ ∀ j, NewJSONLStorage env cfg fs = Ok j →
      config j = Models.Storage cfg
      ∧ outputFile j = OutputFile (Models.Storage cfg)
      ∧ existingHashes j
        = match Load env fs with
          | Ok articles => hashesOf articles
          | Fail _ => ∅
          end.
Proof.
  unfold NewJSONLStorage, loadExistingHashes.
  destruct (mkdirFails env (OutputFile (Models.Storage cfg))); cbn [negb].
  { split; [|done]. split; [by intros [j ?]|by intros [? _]]. }
  destruct (BackupEnabled (Models.Storage cfg)); cbn [andb].
  - destruct (mkdirFails env (BackupDirectory (Models.Storage cfg))).
    { split; [|done]. split; [by intros [j ?]|]. intros [_ Hb]. by specialize (Hb eq_refl). }
    split; [split; [done|by eexists]|]. intros j [= <-].
    destruct (Load env fs); cbn [fst existingHashes withHashes config outputFile];
      [|done]. rewrite foldl_hashes. repeat split. set_solver.
  - split; [split; [done|by eexists]|]. intros j [= <-].
    destruct (Load env fs); cbn [fst existingHashes withHashes config outputFile];
      [|done]. rewrite foldl_hashes. repeat split. set_solver.
Qed.

(** X26. Round trip: on a new store, after calls of [Save] and [SaveBatch]
    that meet no failure and whose records are single lines shorter than
    the buffer of the scanner, every call has returned nil and [Load]
    returns the first article of each fingerprint, in the order of the
    calls. *)
Theorem Load_returns_first_of_each_fingerprint
    (calls : list (IOEnv * call)) (env : IOEnv) (j : JSONLStorage) (fs : FS)
    (Hempty : content fs = "") (Hindex : existingHashes j = ∅)
    (Hwritable : Forall (λ c, writable c.1) calls)
    (Hwell : Forall wellEncoded (offered calls))
    (Hshort : Forall shortRecord (offered calls))
    (Hopen : openFails env = false) (Hread : readFails env = false) :
  Forall (λ r, r = None) (runCalls calls (j, fs)).2
  ∧ Load env (runCalls calls (j, fs)).1.2 = Ok (firstByHash ∅ (offered calls)).
Proof.
  destruct (Load_after_calls calls env j fs) as (st & results & Hrun & Hload); [done..|].
  destruct (runCalls_unlimited calls j fs Hwritable)
    as (j' & fs' & rs & Hrun' & Hnil & _).
  { eapply Forall_impl; [exact Hwell|]. intros a (line & -> & _). by eexists. }
  rewrite Hrun in *. injection Hrun' as -> ->. done.
Qed.

End WithJSON.

Lemma Load_returns_first_of_each_fingerprint_witness :
  Forall (λ r, r = None)
    (@runCalls Samples.codec Samples.sampleCalls (Samples.freshStore, Samples.emptyFS)).2
  ∧ @Load Samples.codec (Samples.env "20250101_120003")
      (@runCalls Samples.codec Samples.sampleCalls
         (Samples.freshStore, Samples.emptyFS)).1.2
    = Ok [ Samples.note "h1" "first"; Samples.note "h2" "other" ].
Proof.
  destruct (@Load_returns_first_of_each_fingerprint Samples.codec Samples.sampleCalls
              (Samples.env "20250101_120003") Samples.freshStore Samples.emptyFS)
    as [Hnil Hload]; try reflexivity.
  - repeat constructor.
  - unfold Samples.sampleCalls, offered. simpl.
    repeat constructor;
      (eexists; split; [reflexivity|]; split; vm_compute; reflexivity).
  - unfold Samples.sampleCalls, offered. simpl.
    repeat constructor;
      (eexists; split; [reflexivity|]; apply Nat.ltb_lt; vm_compute; reflexivity).
  - split; [exact Hnil|]. rewrite Hload. vm_compute. reflexivity.
Defined.

End ConstructionFacts.

Module SampleFacts.
Import GoStrings Models.

(** The article page of the samples: its article. *)
Lemma ExtractArticle_postcondition_witness :
  ∃ s' article,
    @Scraper.ExtractArticle Samples.externals 0%Z Samples.articlePage
      (Scraper.NewScraper Samples.config) = (s', Some article)
    ∧ URL article = "https://yamada-tech-memo.netlify.app/posts/go-colly/"
    ∧ Title article = "Scraping with Colly"
    ∧ ContentHash article
      = @Scraper.md5_hex Samples.externals (Title article +:+ PlainText article)
    ∧ Scraper.GetArticleCount s' = 1.
Proof.
  destruct (@Scraper.ExtractArticle Samples.externals 0%Z Samples.articlePage
              (Scraper.NewScraper Samples.config)) as [s' [article|]] eqn:Hex;
    [|by vm_compute in Hex].
  exists s', article. split; [reflexivity|].
  destruct (proj2 (@ArticleFacts.ExtractArticle_postcondition Samples.externals 0%Z
                     Samples.articlePage (Scraper.NewScraper Samples.config))
              s' article Hex)
    as (Hurl & Htitle & _ & _ & _ & _ & _ & _ & _ & _ & Hhash & _ & Hcount).
  split; [exact Hurl|]. split; [rewrite Htitle; vm_compute; reflexivity|].
  split; [exact Hhash|]. exact Hcount.
Defined.

(** The patterns [*.jpg], [/posts/$] and [a*b*c] of an exclusion list. *)
Lemma matchesPattern_by_stars_witness :
  Collector.matchesPattern "https://example.org/photo.jpg" "*.jpg" = true
  ∧ Collector.matchesPattern "https://example.org/posts/" "/posts/$" = false
  ∧ Collector.matchesPattern "https://example.org/a/b/c" "a*b*c" = false.
Proof.
  destruct (PatternFacts.matchesPattern_by_stars "https://example.org/photo.jpg")
    as [Hone _].
  destruct (PatternFacts.matchesPattern_by_stars "https://example.org/posts/")
    as (_ & Hnone & _).
  destruct (PatternFacts.matchesPattern_by_stars "https://example.org/a/b/c")
    as (_ & Hmany & _).
  split; [|split].
  - change "*.jpg" with ("" +:+ "*" +:+ ".jpg"). rewrite Hone by reflexivity.
    vm_compute. reflexivity.
  - rewrite Hnone by (vm_compute; lia). vm_compute. reflexivity.
  - rewrite Hmany by (vm_compute; lia). vm_compute. reflexivity.
Defined.

End SampleFacts.
